(** * Galaxy lensing quantities of PyAutoGalaxy: a shallow embedding

    The development follows [autoastro/galaxy/galaxy.py].  Python objects
    are dynamically typed, so attribute values live in one universe
    [Value]; exceptions are results of an error monad; numpy arrays of
    floats are lists of rationals (rounding, infinities and NaN are not
    represented: a division by zero, which numpy answers with inf or nan,
    is the rational division and gives 0). *)

From Stdlib Require Import String List Bool Arith ZArith QArith Qminmax Lia Lqa.
Import ListNotations.

Local Open Scope string_scope.
Local Open Scope list_scope.
Local Open Scope Q_scope.

(** ** Exceptions *)

Module Py.

Inductive exn : Type :=
| GalaxyException (msg : string)
| AttributeError (name : string)
| IndexError
| ValueError
| TypeError (msg : string).

Inductive result (A : Type) : Type :=
| Ok (a : A)
| Raise (e : exn).

Arguments Ok {A} a.
Arguments Raise {A} e.

Definition bind {A B : Type} (m : result A) (k : A -> result B) : result B :=
  match m with
  | Ok a => k a
  | Raise e => Raise e
  end.

Fixpoint mapM {A B : Type} (f : A -> result B) (l : list A) : result (list B) :=
  match l with
  | [] => Ok []
  | a :: l' =>
      match f a with
      | Ok b =>
          match mapM f l' with
          | Ok bs => Ok (b :: bs)
          | Raise e => Raise e
          end
      | Raise e => Raise e
      end
  end.

(** The builtin [all] over a tuple of booleans. *)
Definition all (l : list bool) : bool := forallb (fun b => b) l.

End Py.

Export Py.

Notation "x <- m ;; k" := (bind m (fun x => k))
  (at level 61, m at next level, right associativity).

(** ** numpy arrays *)

(** One-dimensional arrays of floats are lists; arrays of shape [(n, 2)] are
    lists of pairs; two-dimensional arrays are lists of rows. *)
Module np.

Definition zip_with {A B C : Type} (f : A -> B -> C) (a : list A) (b : list B)
  : list C :=
  map (fun p => f (fst p) (snd p)) (combine a b).

(** Elementwise binary operations need operands of one shape (broadcasting
    between arrays of different lengths is not represented and raises). *)
Definition elementwise {A : Type} (f : A -> A -> A) (a b : list A)
  : result (list A) :=
  if (length a =? length b)%nat then Ok (zip_with f a b)
  else Raise ValueError.

Definition zeros (n : nat) : list Q := repeat 0 n.

(** [np.full((n, 2), fill_value)] *)
Definition full2 (n : nat) (fill_value : Q) : list (Q * Q) :=
  repeat (fill_value, fill_value) n.

Definition add (a b : list Q) : result (list Q) := elementwise Qplus a b.

Definition pair_add (u v : Q * Q) : Q * Q := (fst u + fst v, snd u + snd v).

Definition pair_sub (u v : Q * Q) : Q * Q := (fst u - fst v, snd u - snd v).

Definition add2 (a b : list (Q * Q)) : result (list (Q * Q)) :=
  elementwise pair_add a b.

Definition subtract2 (a b : list (Q * Q)) : result (list (Q * Q)) :=
  elementwise pair_sub a b.

(** [np.add(a, c)] with a scalar [c]. *)
Definition add_scalar (a : list Q) (c : Q) : list Q := map (fun x => x + c) a.

Definition divide (a b : list Q) : result (list Q) := elementwise Qdiv a b.

(** [np.divide(a, c)] with a scalar [c]. *)
Definition divide_scalar (a : list Q) (c : Q) : list Q := map (fun x => x / c) a.

(** [np.max]: an empty array has no maximum. *)
Definition max (a : list Q) : result Q :=
  match a with
  | [] => Raise ValueError
  | x :: a' => Ok (fold_left Qmax a' x)
  end.

(** [np.diff(x)]: [x[k+1] - x[k]]. *)
Definition diff (x : list Q) : list Q :=
  map (fun k => nth (S k) x 0 - nth k x 0) (seq 0 (length x - 1)).

(** [np.gradient(f, x)] for one-dimensional [f] with the coordinates [x] of
    the samples and [edge_order=1].  The coordinates must be as many as the
    samples ([ValueError] otherwise).  With as many coordinates as samples
    and fewer than two of them, [np.diff(x)] is empty and numpy's test
    [(diffx == diffx[0]).all()] for a constant spacing indexes it, which
    raises [IndexError] before the size of [f] is looked at.  When the
    spacing [np.diff(x)] is constant numpy takes it as a scalar and uses
    [(f[i+1] - f[i-1]) / (2 h)] in the interior; otherwise the weights
    [a], [b], [c] below.  The ends are one-sided differences.

    Rationals stand for floats.  Where a spacing that numpy divides by is
    zero, numpy returns [nan] or [inf] at that sample and still returns the
    array; the rationals have no such value and [/] gives 0 there.  The
    model says nothing of the code at such a sample: the theorems that
    state the value of a gradient, or of a quantity computed from one,
    carry the hypothesis [spaced_at] or [well_spaced] on the coordinates,
    under which no division is by zero. *)
Definition gradient_1d (f x : list Q) : result (list Q) :=
  let n := length f in
  if negb (length x =? n)%nat then Raise ValueError
  else if (n <? 2)%nat then Raise IndexError
  else
    let ax_dx := diff x in
    let uniform_spacing := forallb (fun dk => Qeq_bool dk (nth 0 ax_dx 0)) ax_dx in
    let interior (i : nat) : Q :=
      if uniform_spacing then
        (nth (i + 1) f 0 - nth (i - 1) f 0) / (2 * nth 0 ax_dx 0)
      else
        let dx1 := nth (i - 1) ax_dx 0 in
        let dx2 := nth i ax_dx 0 in
        let a := (- dx2) / (dx1 * (dx1 + dx2)) in
        let b := (dx2 - dx1) / (dx1 * dx2) in
        let c := dx1 / (dx2 * (dx1 + dx2)) in
        a * nth (i - 1) f 0 + b * nth i f 0 + c * nth (i + 1) f 0 in
    let dx_0 := nth 0 ax_dx 0 in
    let dx_n := if uniform_spacing then nth 0 ax_dx 0 else nth (n - 2) ax_dx 0 in
    Ok ([(nth 1 f 0 - nth 0 f 0) / dx_0]
        ++ map interior (seq 1 (n - 2))
        ++ [(nth (n - 1) f 0 - nth (n - 2) f 0) / dx_n]).

(** Column [j] of a two-dimensional array. *)
Definition column (f : list (list Q)) (j : nat) : list Q :=
  map (fun row => nth j row 0) f.

Definition ncols (f : list (list Q)) : nat :=
  match f with
  | [] => O
  | row :: _ => length row
  end.

Definition transpose (nrows : nat) (cols : list (list Q)) : list (list Q) :=
  map (fun i => map (fun col => nth i col 0) cols) (seq 0 nrows).

(** [np.gradient(f, x, axis=1)]: along each row. *)
Definition gradient_axis1 (f : list (list Q)) (x : list Q) : result (list (list Q)) :=
  mapM (fun row => gradient_1d row x) f.

(** [np.gradient(f, y, axis=0)]: along each column. *)
Definition gradient_axis0 (f : list (list Q)) (y : list Q) : result (list (list Q)) :=
  cols <- mapM (fun j => gradient_1d (column f j) y) (seq 0 (ncols f)) ;;
  Ok (transpose (length f) cols).

(** [scalar op array] and [array op scalar] on two-dimensional arrays. *)
Definition map2d (g : Q -> Q) (f : list (list Q)) : list (list Q) :=
  map (map g) f.

(** [np.stack((a, b), axis=-1)] of two two-dimensional arrays: the arrays
    must have one shape. *)
Definition stack2 (a b : list (list Q)) : result (list (list (Q * Q))) :=
  if (length a =? length b)%nat then
    mapM (fun rows =>
            if (length (fst rows) =? length (snd rows))%nat
            then Ok (combine (fst rows) (snd rows))
            else Raise ValueError)
         (combine a b)
  else Raise ValueError.

End np.

(** The builtin [sum] over a non-empty sequence of arrays: it starts from
    the integer [0], and [0 + a] is [a] with [0] added to every entry. *)
Fixpoint sum_from {A : Type} (add : A -> A -> result A) (acc : A) (l : list A)
  : result A :=
  match l with
  | [] => Ok acc
  | a :: l' => acc' <- add acc a ;; sum_from add acc' l'
  end.

Definition sum_arrays (first : list Q) (rest : list (list Q)) : result (list Q) :=
  sum_from np.add (map (fun x => 0 + x) first) rest.

Definition sum_arrays2 (first : list (Q * Q)) (rest : list (list (Q * Q)))
  : result (list (Q * Q)) :=
  sum_from np.add2 (map (np.pair_add (0, 0)) first) rest.

(** The builtin [sum] over numbers. *)
Definition sum_numbers (l : list Q) : Q := fold_left Qplus l 0.

(** ** Values held by attributes *)

(** Modelled from the spec: the profile classes of [autoastro.profiles] are
    not part of the sources; a profile is a value object carrying its class
    name, its capabilities (what [isinstance(obj, lp.LightProfile)] and
    [isinstance(obj, mp.MassProfile)] answer) and its named parameters, and
    two profiles are equal when all of these are equal by value. *)
Record Profile : Type := mkProfile {
  profile_class : string;
  isinstance_LightProfile : bool;
  isinstance_MassProfile : bool;
  profile_params : list (string * Q)
}.

(** Modelled from the spec: pixelizations and regularizations of
    [autoarray.operators.inversion] are value objects, equal by value. *)
Record Pixelization : Type := mkPixelization {
  pixelization_class : string;
  pixelization_params : list (string * Q)
}.

Record Regularization : Type := mkRegularization {
  regularization_class : string;
  regularization_params : list (string * Q)
}.

(** [class HyperGalaxy(object)]: the three hyper-parameters and the number
    drawn from the class-wide counter [_ids]. *)
Record HyperGalaxyT : Type := mkHyperGalaxy {
  contribution_factor : Q;
  noise_factor : Q;
  noise_power : Q;
  component_number : nat
}.

#[warnings="-register-all"]
Inductive Value : Type :=
| VNone
| VBool (b : bool)
| VInt (n : Z)
| VFloat (x : Q)
| VStr (s : string)
| VProfile (p : Profile)
| VPixelization (p : Pixelization)
| VRegularization (r : Regularization)
| VHyperGalaxy (h : HyperGalaxyT)
| VList (l : list Value).

Definition is_None (v : Value) : bool :=
  match v with
  | VNone => true
  | _ => false
  end.

(** Python numbers compare across [bool], [int] and [float]. *)
Definition as_number (v : Value) : option Q :=
  match v with
  | VBool b => Some (if b then 1 else 0)
  | VInt n => Some (inject_Z n)
  | VFloat x => Some x
  | _ => None
  end.

Fixpoint list_eqb {A : Type} (eqb : A -> A -> bool) (l1 l2 : list A) : bool :=
  match l1, l2 with
  | [], [] => true
  | x :: l1', y :: l2' => eqb x y && list_eqb eqb l1' l2'
  | _, _ => false
  end.

Definition param_eqb (a b : string * Q) : bool :=
  String.eqb (fst a) (fst b) && Qeq_bool (snd a) (snd b).

Definition Profile_eqb (p q : Profile) : bool :=
  String.eqb (profile_class p) (profile_class q)
  && Bool.eqb (isinstance_LightProfile p) (isinstance_LightProfile q)
  && Bool.eqb (isinstance_MassProfile p) (isinstance_MassProfile q)
  && list_eqb param_eqb (profile_params p) (profile_params q).

Definition Pixelization_eqb (p q : Pixelization) : bool :=
  String.eqb (pixelization_class p) (pixelization_class q)
  && list_eqb param_eqb (pixelization_params p) (pixelization_params q).

Definition Regularization_eqb (p q : Regularization) : bool :=
  String.eqb (regularization_class p) (regularization_class q)
  && list_eqb param_eqb (regularization_params p) (regularization_params q).

Module HyperGalaxy.

(** [HyperGalaxy.__init__]: [ids] is the state of the class counter
    [_ids = count()]; the new state is returned with the object. *)
Definition __init__ (ids : nat) (contribution_factor noise_factor noise_power : Q)
  : HyperGalaxyT * nat :=
  (mkHyperGalaxy contribution_factor noise_factor noise_power ids, S ids).

(** [HyperGalaxy.__eq__]. *)
Definition __eq__ (self : HyperGalaxyT) (other : Value) : bool :=
  match other with
  | VHyperGalaxy o =>
      Qeq_bool (contribution_factor self) (contribution_factor o)
      && Qeq_bool (noise_factor self) (noise_factor o)
      && Qeq_bool (noise_power self) (noise_power o)
  | _ => false
  end.

(** [HyperGalaxy.contribution_map_from_hyper_images] *)
Definition contribution_map_from_hyper_images (self : HyperGalaxyT)
  (hyper_model_image hyper_galaxy_image : list Q) : result (list Q) :=
  contribution_map <- np.divide hyper_galaxy_image
                        (np.add_scalar hyper_model_image (contribution_factor self)) ;;
  m <- np.max contribution_map ;;
  Ok (np.divide_scalar contribution_map m).

(** [HyperGalaxy.hyper_noise_map_from_contribution_map]; [power] is the
    operator [**] of floats. *)
Definition hyper_noise_map_from_contribution_map (power : Q -> Q -> Q)
  (self : HyperGalaxyT) (noise_map contribution_map : list Q) : result (list Q) :=
  product <- np.elementwise Qmult noise_map contribution_map ;;
  Ok (map (fun v => noise_factor self * power v (noise_power self)) product).

Definition hyper_noise_map_from_hyper_images_and_noise_map (power : Q -> Q -> Q)
  (self : HyperGalaxyT) (hyper_model_image hyper_galaxy_image noise_map : list Q)
  : result (list Q) :=
  contribution_map <- contribution_map_from_hyper_images self hyper_model_image
                        hyper_galaxy_image ;;
  hyper_noise_map_from_contribution_map power self noise_map contribution_map.

End HyperGalaxy.

(** The operator [==] on attribute values. *)
Fixpoint value_eqb (a b : Value) : bool :=
  match a, b with
  | VNone, VNone => true
  | VStr s, VStr t => String.eqb s t
  | VProfile p, VProfile q => Profile_eqb p q
  | VPixelization p, VPixelization q => Pixelization_eqb p q
  | VRegularization p, VRegularization q => Regularization_eqb p q
  | VHyperGalaxy h, _ => HyperGalaxy.__eq__ h b
  | VList l1, VList l2 =>
      (fix go (l1 l2 : list Value) : bool :=
         match l1, l2 with
         | [], [] => true
         | x :: l1', y :: l2' => value_eqb x y && go l1' l2'
         | _, _ => false
         end) l1 l2
  | _, _ =>
      match as_number a, as_number b with
      | Some x, Some y => Qeq_bool x y
      | _, _ => false
      end
  end.

(** ** Instance dictionaries: insertion ordered, keys unique *)

Definition dict : Type := list (string * Value).

Fixpoint dict_get (d : dict) (k : string) : option Value :=
  match d with
  | [] => None
  | (k', v) :: d' => if String.eqb k' k then Some v else dict_get d' k
  end.

Fixpoint dict_set (d : dict) (k : string) (v : Value) : dict :=
  match d with
  | [] => [(k, v)]
  | (k', v') :: d' =>
      if String.eqb k' k then (k', v) :: d' else (k', v') :: dict_set d' k v
  end.

Definition dict_values (d : dict) : list Value := map snd d.

Definition is_light_profile (obj : Value) : bool :=
  match obj with
  | VProfile p => isinstance_LightProfile p
  | _ => false
  end.

Definition is_mass_profile (obj : Value) : bool :=
  match obj with
  | VProfile p => isinstance_MassProfile p
  | _ => false
  end.

(** ** Grids and arrays of [autoarray] *)

(** Modelled from the spec: the grid, array and mapping structures of
    [autoarray] are not part of the sources.  A grid is an ordered sequence
    of (y, x) coordinates with a known two-dimensional shape, a pixel to
    physical transform and a sub-sampling factor; the mapping services wrap
    flat values in the structure of the grid or reshape them, without
    changing any value.  Masks are not represented: every pixel of the
    two-dimensional layout is part of the flat sequence. *)
Module aa.

Record Mask : Type := mkMask {
  shape_2d : nat * nat;
  sub_size : nat;
  pixel_scales : Q * Q;
  origin : Q * Q
}.

Definition sub_shape_2d (mask : Mask) : nat * nat :=
  (fst (shape_2d mask) * sub_size mask, snd (shape_2d mask) * sub_size mask)%nat.

Record Array : Type := mkArray {
  sub_array_1d : list Q;
  array_mask : Mask
}.

Record Grid : Type := mkGrid {
  sub_grid_1d : list (Q * Q);
  grid_mask : Mask
}.

(** [grid.shape[0]] and [len(grid)]. *)
Definition shape0 (grid : Grid) : nat := length (sub_grid_1d grid).

Definition array_from_sub_array_1d (mask : Mask) (sub_array_1d : list Q) : Array :=
  mkArray sub_array_1d mask.

Definition array_from_sub_array_2d (mask : Mask) (sub_array_2d : list (list Q))
  : Array :=
  mkArray (concat sub_array_2d) mask.

Definition grid_from_sub_grid_1d (mask : Mask) (sub_grid_1d : list (Q * Q)) : Grid :=
  mkGrid sub_grid_1d mask.

Definition grid_from_sub_grid_2d (mask : Mask) (sub_grid_2d : list (list (Q * Q)))
  : Grid :=
  mkGrid (concat sub_grid_2d) mask.

Definition reshape {A : Type} (shape : nat * nat) (flat : list A) : list (list A) :=
  map (fun i => firstn (snd shape) (skipn (i * snd shape) flat)) (seq 0 (fst shape)).

Definition in_2d {A : Type} (mask : Mask) (flat : list A) : result (list (list A)) :=
  let shape := sub_shape_2d mask in
  if (length flat =? fst shape * snd shape)%nat then Ok (reshape shape flat)
  else Raise ValueError.

Definition array_in_2d (a : Array) : result (list (list Q)) :=
  in_2d (array_mask a) (sub_array_1d a).

Definition grid_in_2d (g : Grid) : result (list (list (Q * Q))) :=
  in_2d (grid_mask g) (sub_grid_1d g).

(** Arithmetic of arrays: elementwise on the flat values, the structure of
    the left operand is kept. *)
Definition map_array (f : Q -> Q) (a : Array) : Array :=
  mkArray (map f (sub_array_1d a)) (array_mask a).

Definition zip_array (f : Q -> Q -> Q) (a b : Array) : result Array :=
  v <- np.elementwise f (sub_array_1d a) (sub_array_1d b) ;;
  Ok (mkArray v (array_mask a)).

Definition subtract_grid (a b : Grid) : result Grid :=
  v <- np.subtract2 (sub_grid_1d a) (sub_grid_1d b) ;;
  Ok (mkGrid v (grid_mask a)).

End aa.

(** ** Collaborators outside the sources *)

Inductive Cosmology : Type :=
| Planck15
| OtherCosmology (name : string).

(** The evaluation functions of the profiles ([autoastro.profiles]), the
    square root of floats, the contour tracer [skimage.measure.find_contours]
    and the pixel to physical transform of the grid geometry are taken as
    parameters.  The integrated quantities of a profile convert units with
    the redshifts and the cosmology they are given and may raise. *)
Class Collaborators : Type := {
  LightProfile_profile_image_from_grid : Profile -> aa.Grid -> list Q;
  LightProfile_luminosity_within_circle_in_units :
    Profile -> Q -> string -> Value -> Value -> Cosmology -> dict -> result Q;
  LightProfile_luminosity_within_ellipse_in_units :
    Profile -> Q -> string -> Value -> Value -> Cosmology -> dict -> result Q;
  MassProfile_convergence_from_grid : Profile -> aa.Grid -> list Q;
  MassProfile_potential_from_grid : Profile -> aa.Grid -> list Q;
  MassProfile_deflections_from_grid : Profile -> aa.Grid -> list (Q * Q);
  MassProfile_mass_within_circle_in_units :
    Profile -> Q -> Value -> Value -> string -> Cosmology -> dict -> result Q;
  MassProfile_mass_within_ellipse_in_units :
    Profile -> Q -> Value -> Value -> string -> Cosmology -> dict -> result Q;
  MassProfile_einstein_radius_in_units :
    Profile -> string -> Value -> Cosmology -> result Q;
  MassProfile_einstein_mass_in_units :
    Profile -> string -> Value -> Value -> Cosmology -> dict -> result Q;
  sqrt : Q -> Q;
  find_contours : list (list Q) -> Q -> list (list (Q * Q));
  grid_arcsec_from_grid_pixels_1d_for_marching_squares :
    aa.Mask -> list (Q * Q) -> nat * nat -> aa.Grid
}.

(** Calling a method of a profile on an attribute value: a value that is
    not a profile has no such method. *)
Definition call_profile {A : Type} (method : string) (f : Profile -> A) (obj : Value)
  : result A :=
  match obj with
  | VProfile p => Ok (f p)
  | _ => Raise (AttributeError method)
  end.

(** The same for a method that may raise. *)
Definition call_profile_method {A : Type} (method : string)
  (f : Profile -> result A) (obj : Value) : result A :=
  match obj with
  | VProfile p => f p
  | _ => Raise (AttributeError method)
  end.

(** ** The class [Galaxy] *)

Module Galaxy.

(** A galaxy is its instance dictionary [__dict__]. *)
Record t : Type := mk { __dict__ : dict }.

(** The read-only properties of the class: assigning to one of these names
    on an instance raises [AttributeError] (a property without a setter). *)
Definition properties : list string :=
  [ "light_profiles"; "mass_profiles"; "has_redshift"; "has_pixelization";
    "has_regularization"; "has_hyper_galaxy"; "has_light_profile";
    "has_mass_profile"; "has_profile"; "uses_cluster_inversion" ].

Definition is_property (name : string) : bool :=
  existsb (String.eqb name) properties.

(** The names that [setattr(self, name, val)] refuses, with the error it
    raises.  A read-only property of the class has no setter
    ([AttributeError]).  The three data descriptors that every instance of
    a class without [__slots__] carries are refused as well:
    [__weakref__] is not writable ([AttributeError]), [__dict__] must be
    set to a dictionary and [__class__] to a class ([TypeError]), and no
    value of [Value] is a dictionary or a class.  Every other name is
    stored in the instance dictionary.  The base class [ModelObject] of
    [autofit] is not part of the sources and is taken to add no read-only
    name. *)
Definition refused (name : string) : option exn :=
  if is_property name then Some (AttributeError name)
  else if String.eqb name "__weakref__" then Some (AttributeError name)
  else if String.eqb name "__dict__" then Some (TypeError name)
  else if String.eqb name "__class__" then Some (TypeError name)
  else None.

Definition setattr (self : t) (name : string) (val : Value) : result t :=
  match refused name with
  | Some e => Raise e
  | None => Ok (mk (dict_set (__dict__ self) name val))
  end.

(** The keyword arguments that [setattr] accepts: no name that it
    refuses. *)
Definition kwargs_valid (kwargs : list (string * Value)) : bool :=
  forallb (fun kv => match refused (fst kv) with
                     | None => true
                     | Some _ => false
                     end) kwargs.

(** [for name, val in kwargs.items(): setattr(self, name, val)] *)
Fixpoint setattr_items (self : t) (kwargs : list (string * Value)) : result t :=
  match kwargs with
  | [] => Ok self
  | (name, val) :: kwargs' =>
      self' <- setattr self name val ;;
      setattr_items self' kwargs'
  end.

(** Modelled from the spec: [ModelObject.__init__] of [autofit] is not part
    of the sources; it assigns the distinct integer identity used for
    hashing, here the attribute [id], drawn by the caller as [fresh_id]. *)
Definition ModelObject___init__ (fresh_id : Z) : t :=
  mk [("id", VInt fresh_id)].

(** [Galaxy.__init__(self, redshift, pixelization=None, regularization=None,
    hyper_galaxy=None, **kwargs)] *)
Definition __init__ (fresh_id : Z)
  (redshift pixelization regularization hyper_galaxy : Value)
  (kwargs : list (string * Value)) : result t :=
  let self := ModelObject___init__ fresh_id in
  self <- setattr self "redshift" redshift ;;
  self <- setattr self "hyper_model_image_1d" VNone ;;
  self <- setattr self "hyper_galaxy_image_1d" VNone ;;
  self <- setattr self "binned_hyper_galaxy_image_1d" VNone ;;
  self <- setattr_items self kwargs ;;
  self <- setattr self "pixelization" pixelization ;;
  self <- setattr self "regularization" regularization ;;
  if negb (is_None pixelization) && is_None regularization then
    Raise (GalaxyException
      "If the galaxy has a pixelization, it must also have a regularization.")
  else if is_None pixelization && negb (is_None regularization) then
    Raise (GalaxyException
      "If the galaxy has a regularization, it must also have a pixelization.")
  else
    setattr self "hyper_galaxy" hyper_galaxy.

Definition light_profiles (self : t) : list Value :=
  filter is_light_profile (dict_values (__dict__ self)).

Definition mass_profiles (self : t) : list Value :=
  filter is_mass_profile (dict_values (__dict__ self)).

(** Reading an instance attribute that is not a property (the methods of
    the class are not represented as values). *)
Definition attribute (self : t) (name : string) : result Value :=
  match dict_get (__dict__ self) name with
  | Some v => Ok v
  | None => Raise (AttributeError name)
  end.

Definition __hash__ (self : t) : result Value := attribute self "id".

Definition has_redshift (self : t) : result bool :=
  v <- attribute self "redshift" ;; Ok (negb (is_None v)).

Definition has_pixelization (self : t) : result bool :=
  v <- attribute self "pixelization" ;; Ok (negb (is_None v)).

Definition has_regularization (self : t) : result bool :=
  v <- attribute self "regularization" ;; Ok (negb (is_None v)).

Definition has_hyper_galaxy (self : t) : result bool :=
  v <- attribute self "hyper_galaxy" ;; Ok (negb (is_None v)).

Definition has_light_profile (self : t) : bool :=
  (0 <? length (light_profiles self))%nat.

Definition has_mass_profile (self : t) : bool :=
  (0 <? length (mass_profiles self))%nat.

Definition has_profile (self : t) : bool :=
  (0 <? length (mass_profiles self) + length (light_profiles self))%nat.

(** [type(self.pixelization) is pix.VoronoiBrightnessImage] *)
Definition uses_cluster_inversion (self : t) : result bool :=
  v <- attribute self "pixelization" ;;
  Ok match v with
     | VPixelization p => String.eqb (pixelization_class p) "VoronoiBrightnessImage"
     | _ => false
     end.

(** [self.name]: properties of the class come before the dictionary. *)
Definition getattr (self : t) (name : string) : result Value :=
  if String.eqb name "light_profiles" then Ok (VList (light_profiles self))
  else if String.eqb name "mass_profiles" then Ok (VList (mass_profiles self))
  else if String.eqb name "has_redshift" then
    b <- has_redshift self ;; Ok (VBool b)
  else if String.eqb name "has_pixelization" then
    b <- has_pixelization self ;; Ok (VBool b)
  else if String.eqb name "has_regularization" then
    b <- has_regularization self ;; Ok (VBool b)
  else if String.eqb name "has_hyper_galaxy" then
    b <- has_hyper_galaxy self ;; Ok (VBool b)
  else if String.eqb name "has_light_profile" then Ok (VBool (has_light_profile self))
  else if String.eqb name "has_mass_profile" then Ok (VBool (has_mass_profile self))
  else if String.eqb name "has_profile" then Ok (VBool (has_profile self))
  else if String.eqb name "uses_cluster_inversion" then
    b <- uses_cluster_inversion self ;; Ok (VBool b)
  else attribute self name.

(** The right operand of [==]: a galaxy, an instance of another class given
    by its instance dictionary, or a plain value. *)
Inductive Object : Type :=
| OGalaxy (g : t)
| OInstance (class_name : string) (d : dict)
| OValue (v : Value).

Definition isinstance_Galaxy (other : Object) : bool :=
  match other with
  | OGalaxy _ => true
  | _ => false
  end.

Definition param_get (params : list (string * Q)) (name : string) : result Value :=
  match find (fun kv => String.eqb (fst kv) name) params with
  | Some kv => Ok (VFloat (snd kv))
  | None => Raise (AttributeError name)
  end.

(** Data attributes of the modelled values; [None], numbers, strings and
    lists have no data attribute. *)
Definition getattr_value (v : Value) (name : string) : result Value :=
  match v with
  | VProfile p => param_get (profile_params p) name
  | VPixelization p => param_get (pixelization_params p) name
  | VRegularization r => param_get (regularization_params r) name
  | VHyperGalaxy h =>
      if String.eqb name "contribution_factor" then Ok (VFloat (contribution_factor h))
      else if String.eqb name "noise_factor" then Ok (VFloat (noise_factor h))
      else if String.eqb name "noise_power" then Ok (VFloat (noise_power h))
      else if String.eqb name "component_number" then
        Ok (VInt (Z.of_nat (component_number h)))
      else Raise (AttributeError name)
  | _ => Raise (AttributeError name)
  end.

Definition getattr_object (other : Object) (name : string) : result Value :=
  match other with
  | OGalaxy g => getattr g name
  | OInstance _ d =>
      match dict_get d name with
      | Some v => Ok v
      | None => Raise (AttributeError name)
      end
  | OValue v => getattr_value v name
  end.

(** [Galaxy.__eq__]: the tuple is built first, every component evaluated in
    order, and [all] is applied to the finished tuple. *)
Definition __eq__ (self : t) (other : Object) : result bool :=
  let c0 := isinstance_Galaxy other in
  a1 <- getattr self "pixelization" ;;
  b1 <- getattr_object other "pixelization" ;;
  let c1 := value_eqb a1 b1 in
  a2 <- getattr self "redshift" ;;
  b2 <- getattr_object other "redshift" ;;
  let c2 := value_eqb a2 b2 in
  a3 <- getattr self "hyper_galaxy" ;;
  b3 <- getattr_object other "hyper_galaxy" ;;
  let c3 := value_eqb a3 b3 in
  a4 <- getattr self "light_profiles" ;;
  b4 <- getattr_object other "light_profiles" ;;
  let c4 := value_eqb a4 b4 in
  a5 <- getattr self "mass_profiles" ;;
  b5 <- getattr_object other "mass_profiles" ;;
  let c5 := value_eqb a5 b5 in
  Ok (all [c0; c1; c2; c3; c4; c5]).

(** The names read on the right operand by [__eq__], in evaluation order. *)
Definition compared_attributes : list string :=
  [ "pixelization"; "redshift"; "hyper_galaxy"; "light_profiles"; "mass_profiles" ].

(** *** Grid quantities *)

Section Methods.

Context `{Collaborators}.

(** In the four aggregations below the branch on [has_light_profile] or
    [has_mass_profile] is the case analysis on the evaluated profiles: the
    list is empty exactly when the property is false, and [sum] is only
    applied to a non-empty sequence. *)

Definition profile_image_from_grid (self : t) (grid : aa.Grid) : result aa.Array :=
  images <- mapM (call_profile "profile_image_from_grid"
                    (fun p => LightProfile_profile_image_from_grid p grid))
                 (light_profiles self) ;;
  match images with
  | first :: rest =>
      profile_image <- sum_arrays first rest ;;
      Ok (aa.array_from_sub_array_1d (aa.grid_mask grid) profile_image)
  | [] =>
      Ok (aa.array_from_sub_array_1d (aa.grid_mask grid) (np.zeros (aa.shape0 grid)))
  end.

Definition convergence_from_grid (self : t) (grid : aa.Grid) : result aa.Array :=
  convergences <- mapM (call_profile "convergence_from_grid"
                          (fun p => MassProfile_convergence_from_grid p grid))
                       (mass_profiles self) ;;
  match convergences with
  | first :: rest =>
      convergence <- sum_arrays first rest ;;
      Ok (aa.array_from_sub_array_1d (aa.grid_mask grid) convergence)
  | [] =>
      Ok (aa.array_from_sub_array_1d (aa.grid_mask grid) (np.zeros (aa.shape0 grid)))
  end.

Definition potential_from_grid (self : t) (grid : aa.Grid) : result aa.Array :=
  potentials <- mapM (call_profile "potential_from_grid"
                        (fun p => MassProfile_potential_from_grid p grid))
                     (mass_profiles self) ;;
  match potentials with
  | first :: rest =>
      potential <- sum_arrays first rest ;;
      Ok (aa.array_from_sub_array_1d (aa.grid_mask grid) potential)
  | [] =>
      Ok (aa.array_from_sub_array_1d (aa.grid_mask grid) (np.zeros (aa.shape0 grid)))
  end.

Definition deflections_from_grid (self : t) (grid : aa.Grid) : result aa.Grid :=
  all_deflections <- mapM (call_profile "deflections_from_grid"
                             (fun p => MassProfile_deflections_from_grid p grid))
                          (mass_profiles self) ;;
  match all_deflections with
  | first :: rest =>
      deflections <- sum_arrays2 first rest ;;
      Ok (aa.grid_from_sub_grid_1d (aa.grid_mask grid) deflections)
  | [] =>
      Ok (aa.grid_from_sub_grid_1d (aa.grid_mask grid) (np.full2 (aa.shape0 grid) 0))
  end.

(** *** Integrated quantities *)

Definition luminosity_within_circle_in_units (self : t) (radius : Q)
  (unit_luminosity : string) (exposure_time : Value) (cosmology : Cosmology)
  (kwargs : dict) : result Value :=
  if has_light_profile self then
    luminosities <- mapM (fun obj =>
        redshift <- getattr self "redshift" ;;
        call_profile_method "luminosity_within_circle_in_units"
          (fun p => LightProfile_luminosity_within_circle_in_units
                      p radius unit_luminosity redshift exposure_time cosmology kwargs)
          obj) (light_profiles self) ;;
    Ok (VFloat (sum_numbers luminosities))
  else Ok VNone.

Definition luminosity_within_ellipse_in_units (self : t) (major_axis : Q)
  (unit_luminosity : string) (exposure_time : Value) (cosmology : Cosmology)
  (kwargs : dict) : result Value :=
  if has_light_profile self then
    luminosities <- mapM (fun obj =>
        redshift <- getattr self "redshift" ;;
        call_profile_method "luminosity_within_ellipse_in_units"
          (fun p => LightProfile_luminosity_within_ellipse_in_units
                      p major_axis unit_luminosity redshift exposure_time cosmology kwargs)
          obj) (light_profiles self) ;;
    Ok (VFloat (sum_numbers luminosities))
  else Ok VNone.

Definition mass_within_circle_in_units (self : t) (radius : Q)
  (redshift_source : Value) (unit_mass : string) (cosmology : Cosmology)
  (kwargs : dict) : result Value :=
  if has_mass_profile self then
    masses <- mapM (fun obj =>
        redshift <- getattr self "redshift" ;;
        call_profile_method "mass_within_circle_in_units"
          (fun p => MassProfile_mass_within_circle_in_units
                      p radius redshift redshift_source unit_mass cosmology kwargs)
          obj) (mass_profiles self) ;;
    Ok (VFloat (sum_numbers masses))
  else Ok VNone.

Definition mass_within_ellipse_in_units (self : t) (major_axis : Q)
  (redshift_source : Value) (unit_mass : string) (cosmology : Cosmology)
  (kwargs : dict) : result Value :=
  if has_mass_profile self then
    masses <- mapM (fun obj =>
        redshift <- getattr self "redshift" ;;
        call_profile_method "mass_within_ellipse_in_units"
          (fun p => MassProfile_mass_within_ellipse_in_units
                      p major_axis redshift redshift_source unit_mass cosmology kwargs)
          obj) (mass_profiles self) ;;
    Ok (VFloat (sum_numbers masses))
  else Ok VNone.

Definition einstein_radius_in_units (self : t) (unit_length : string)
  (cosmology : Cosmology) (kwargs : dict) : result Value :=
  if has_mass_profile self then
    radii <- mapM (fun obj =>
        redshift <- getattr self "redshift" ;;
        call_profile_method "einstein_radius_in_units"
          (fun p => MassProfile_einstein_radius_in_units p unit_length redshift cosmology)
          obj) (mass_profiles self) ;;
    Ok (VFloat (sum_numbers radii))
  else Ok VNone.

Definition einstein_mass_in_units (self : t) (unit_mass : string)
  (redshift_source : Value) (cosmology : Cosmology) (kwargs : dict) : result Value :=
  if has_mass_profile self then
    masses <- mapM (fun obj =>
        redshift <- getattr self "redshift" ;;
        call_profile_method "einstein_mass_in_units"
          (fun p => MassProfile_einstein_mass_in_units
                      p unit_mass redshift redshift_source cosmology kwargs)
          obj) (mass_profiles self) ;;
    Ok (VFloat (sum_numbers masses))
  else Ok VNone.

(** *** The lensing Jacobian *)

(** [in_2d[:, :, 1]] and [in_2d[:, :, 0]] of a grid of (y, x) pairs. *)
Definition component_x (g2 : list (list (Q * Q))) : list (list Q) := map (map snd) g2.

Definition component_y (g2 : list (list (Q * Q))) : list (list Q) := map (map fst) g2.

(** [grid.in_2d[0, :, 1]]: the x coordinates along the first row. *)
Definition x_of_first_row (g2 : list (list (Q * Q))) : result (list Q) :=
  match g2 with
  | [] => Raise IndexError
  | row :: _ => Ok (map snd row)
  end.

(** [grid.in_2d[:, 0, 0]]: the y coordinates along the first column. *)
Definition y_of_first_column (g2 : list (list (Q * Q))) : result (list Q) :=
  mapM (fun row => match row with
                   | [] => Raise IndexError
                   | c :: _ => Ok (fst c)
                   end) g2.

Definition jacobian_a11_from_grid (self : t) (grid : aa.Grid) : result aa.Array :=
  deflections <- deflections_from_grid self grid ;;
  d2 <- aa.grid_in_2d deflections ;;
  g2 <- aa.grid_in_2d grid ;;
  x <- x_of_first_row g2 ;;
  gradient <- np.gradient_axis1 (component_x d2) x ;;
  Ok (aa.array_from_sub_array_2d (aa.grid_mask grid)
        (np.map2d (fun v => 1 - v) gradient)).

Definition jacobian_a12_from_grid (self : t) (grid : aa.Grid) : result aa.Array :=
  deflections <- deflections_from_grid self grid ;;
  d2 <- aa.grid_in_2d deflections ;;
  g2 <- aa.grid_in_2d grid ;;
  y <- y_of_first_column g2 ;;
  gradient <- np.gradient_axis0 (component_x d2) y ;;
  Ok (aa.array_from_sub_array_2d (aa.grid_mask grid)
        (np.map2d (fun v => (-1) * v) gradient)).

Definition jacobian_a21_from_grid (self : t) (grid : aa.Grid) : result aa.Array :=
  deflections <- deflections_from_grid self grid ;;
  d2 <- aa.grid_in_2d deflections ;;
  g2 <- aa.grid_in_2d grid ;;
  x <- x_of_first_row g2 ;;
  gradient <- np.gradient_axis1 (component_y d2) x ;;
  Ok (aa.array_from_sub_array_2d (aa.grid_mask grid)
        (np.map2d (fun v => (-1) * v) gradient)).

Definition jacobian_a22_from_grid (self : t) (grid : aa.Grid) : result aa.Array :=
  deflections <- deflections_from_grid self grid ;;
  d2 <- aa.grid_in_2d deflections ;;
  g2 <- aa.grid_in_2d grid ;;
  y <- y_of_first_column g2 ;;
  gradient <- np.gradient_axis0 (component_y d2) y ;;
  Ok (aa.array_from_sub_array_2d (aa.grid_mask grid)
        (np.map2d (fun v => 1 - v) gradient)).

(** [[[a11, a12], [a21, a22]]] *)
Definition Jacobian : Type := (aa.Array * aa.Array) * (aa.Array * aa.Array).

Definition jacobian_from_grid (self : t) (grid : aa.Grid) : result Jacobian :=
  a11 <- jacobian_a11_from_grid self grid ;;
  a12 <- jacobian_a12_from_grid self grid ;;
  a21 <- jacobian_a21_from_grid self grid ;;
  a22 <- jacobian_a22_from_grid self grid ;;
  Ok ((a11, a12), (a21, a22)).

Definition convergence_via_jacobian_from_grid (self : t) (grid : aa.Grid)
  : result aa.Array :=
  jacobian <- jacobian_from_grid self grid ;;
  s <- aa.zip_array Qplus (fst (fst jacobian)) (snd (snd jacobian)) ;;
  let convergence := aa.map_array (fun v => 1 - (1 # 2) * v) s in
  Ok (aa.array_from_sub_array_1d (aa.grid_mask grid) (aa.sub_array_1d convergence)).

Definition shear_via_jacobian_from_grid (self : t) (grid : aa.Grid)
  : result aa.Array :=
  jacobian <- jacobian_from_grid self grid ;;
  d <- aa.zip_array Qminus (snd (snd jacobian)) (fst (fst jacobian)) ;;
  let gamma_1 := aa.map_array (fun v => (1 # 2) * v) d in
  s <- aa.zip_array Qplus (snd (fst jacobian)) (fst (snd jacobian)) ;;
  let gamma_2 := aa.map_array (fun v => (- (1 # 2)) * v) s in
  q <- aa.zip_array Qplus (aa.map_array (fun v => v ^ 2) gamma_1)
                          (aa.map_array (fun v => v ^ 2) gamma_2) ;;
  Ok (aa.array_from_sub_array_1d (aa.grid_mask grid)
        (aa.sub_array_1d (aa.map_array sqrt q))).

Definition tangential_eigen_value_from_grid (self : t) (grid : aa.Grid)
  : result aa.Array :=
  convergence <- convergence_via_jacobian_from_grid self grid ;;
  shear <- shear_via_jacobian_from_grid self grid ;;
  e <- aa.zip_array Qminus (aa.map_array (fun v => 1 - v) convergence) shear ;;
  Ok (aa.array_from_sub_array_1d (aa.grid_mask grid) (aa.sub_array_1d e)).

Definition radial_eigen_value_from_grid (self : t) (grid : aa.Grid)
  : result aa.Array :=
  convergence <- convergence_via_jacobian_from_grid self grid ;;
  shear <- shear_via_jacobian_from_grid self grid ;;
  aa.zip_array Qplus (aa.map_array (fun v => 1 - v) convergence) shear.

(** [1 / det_jacobian]: where the determinant is zero numpy returns [inf]
    and still returns the array; the rationals have no such value and [/]
    gives 0 there, so statements about the magnification are made where
    the determinant is not zero. *)
Definition magnification_from_grid (self : t) (grid : aa.Grid) : result aa.Array :=
  jacobian <- jacobian_from_grid self grid ;;
  m1 <- aa.zip_array Qmult (fst (fst jacobian)) (snd (snd jacobian)) ;;
  m2 <- aa.zip_array Qmult (snd (fst jacobian)) (fst (snd jacobian)) ;;
  det_jacobian <- aa.zip_array Qminus m1 m2 ;;
  Ok (aa.array_from_sub_array_1d (aa.grid_mask grid)
        (aa.sub_array_1d (aa.map_array (fun v => 1 / v) det_jacobian))).

(** *** Critical curves and caustics *)

(** What the curve methods return: the empty Python list [[]], or the grid
    of physical coordinates of a contour. *)
Inductive Curve : Type :=
| EmptyList
| CurveGrid (curve : aa.Grid).

Definition len (c : Curve) : nat :=
  match c with
  | EmptyList => O
  | CurveGrid curve => aa.shape0 curve
  end.

(** Using a curve as the grid of a method: a Python list has no [mapping]. *)
Definition as_grid (c : Curve) : result aa.Grid :=
  match c with
  | EmptyList => Raise (AttributeError "mapping")
  | CurveGrid curve => Ok curve
  end.

Definition tangential_critical_curve_from_grid (self : t) (grid : aa.Grid)
  : result Curve :=
  tangential_eigen_values <- tangential_eigen_value_from_grid self grid ;;
  e2 <- aa.array_in_2d tangential_eigen_values ;;
  let tangential_critical_curve_indices := find_contours e2 0 in
  if (length tangential_critical_curve_indices =? 0)%nat then Ok EmptyList
  else
    Ok (CurveGrid (grid_arcsec_from_grid_pixels_1d_for_marching_squares
                     (aa.grid_mask grid)
                     (nth 0 tangential_critical_curve_indices [])
                     (aa.sub_shape_2d (aa.array_mask tangential_eigen_values)))).

Definition radial_critical_curve_from_grid (self : t) (grid : aa.Grid)
  : result Curve :=
  radial_eigen_values <- radial_eigen_value_from_grid self grid ;;
  e2 <- aa.array_in_2d radial_eigen_values ;;
  let radial_critical_curve_indices := find_contours e2 0 in
  if (length radial_critical_curve_indices =? 0)%nat then Ok EmptyList
  else
    Ok (CurveGrid (grid_arcsec_from_grid_pixels_1d_for_marching_squares
                     (aa.grid_mask grid)
                     (nth 0 radial_critical_curve_indices [])
                     (aa.sub_shape_2d (aa.array_mask radial_eigen_values)))).

Definition tangential_caustic_from_grid (self : t) (grid : aa.Grid) : result Curve :=
  tangential_critical_curve <- tangential_critical_curve_from_grid self grid ;;
  if (len tangential_critical_curve =? 0)%nat then Ok EmptyList
  else
    curve <- as_grid tangential_critical_curve ;;
    deflections_critical_curve <- deflections_from_grid self curve ;;
    caustic <- aa.subtract_grid curve deflections_critical_curve ;;
    Ok (CurveGrid caustic).

Definition radial_caustic_from_grid (self : t) (grid : aa.Grid) : result Curve :=
  radial_critical_curve <- radial_critical_curve_from_grid self grid ;;
  if (len radial_critical_curve =? 0)%nat then Ok EmptyList
  else
    curve <- as_grid radial_critical_curve ;;
    deflections_1d <- deflections_from_grid self curve ;;
    caustic <- aa.subtract_grid curve deflections_1d ;;
    Ok (CurveGrid caustic).

Definition critical_curves_from_grid (self : t) (grid : aa.Grid)
  : result (Curve * Curve) :=
  tangential <- tangential_critical_curve_from_grid self grid ;;
  radial <- radial_critical_curve_from_grid self grid ;;
  Ok (tangential, radial).

Definition caustics_from_grid (self : t) (grid : aa.Grid) : result (Curve * Curve) :=
  tangential <- tangential_caustic_from_grid self grid ;;
  radial <- radial_caustic_from_grid self grid ;;
  Ok (tangential, radial).

(** [Galaxy.deflections_via_potential_from_grid]: the gradient of the
    potential along the rows against the y coordinates of the first column,
    and along the columns against the x coordinates of the first row. *)
Definition deflections_via_potential_from_grid (self : t) (grid : aa.Grid)
  : result aa.Grid :=
  potential <- potential_from_grid self grid ;;
  p2 <- aa.array_in_2d potential ;;
  g2 <- aa.grid_in_2d grid ;;
  y <- y_of_first_column g2 ;;
  deflections_y_2d <- np.gradient_axis0 p2 y ;;
  p2' <- aa.array_in_2d potential ;;
  g2' <- aa.grid_in_2d grid ;;
  x <- x_of_first_row g2' ;;
  deflections_x_2d <- np.gradient_axis1 p2' x ;;
  stacked <- np.stack2 deflections_y_2d deflections_x_2d ;;
  Ok (aa.grid_from_sub_grid_2d (aa.grid_mask grid) stacked).

End Methods.

End Galaxy.

(** ** Including critical curves and caustics in a plot *)

(** [class Include] of [autoastro/plot/lensing_plotters.py], the methods
    that read critical curves and caustics off an object.  The include
    switches are the booleans that [load_include] yields; [Curves] is
    whatever an object returns as its critical curves or caustics. *)
Module Include.

Section WithCurves.

Variable Curves : Type.

Record t : Type := mk {
  critical_curves : bool;
  caustics : bool;
  preloaded_critical_curves : option Curves;
  preloaded_caustics : option Curves
}.

(** The object handed to the methods: whether it is a
    [lensing.LensingObject], its [has_mass_profile], and what evaluating its
    properties [critical_curves] and [caustics] gives. *)
Record Obj : Type := mkObj {
  isinstance_LensingObject : bool;
  has_mass_profile : bool;
  obj_critical_curves : result Curves;
  obj_caustics : result Curves
}.

(** [try: return value except ValueError: print(...); return None] *)
Definition try_except_ValueError (value : result Curves) : result (option Curves) :=
  match value with
  | Ok c => Ok (Some c)
  | Raise ValueError => Ok None
  | Raise e => Raise e
  end.

Definition critical_curves_from_obj (self : t) (obj : Obj) : result (option Curves) :=
  if negb (critical_curves self) then Ok None
  else
    match preloaded_caustics self with
    | Some _ => Ok (preloaded_critical_curves self)
    | None =>
        if isinstance_LensingObject obj && has_mass_profile obj then
          try_except_ValueError (obj_critical_curves obj)
        else Ok None
    end.

Definition caustics_from_obj (self : t) (obj : Obj) : result (option Curves) :=
  if negb (caustics self) then Ok None
  else
    match preloaded_caustics self with
    | Some _ => Ok (preloaded_caustics self)
    | None =>
        if isinstance_LensingObject obj && has_mass_profile obj then
          try_except_ValueError (obj_caustics obj)
        else Ok None
    end.

(** [copy.deepcopy(self)] with the two preloaded attributes assigned; the
    arguments may be [None]. *)
Definition new_include_with_preloaded_critical_curves_and_caustics (self : t)
  (preloaded_critical_curves preloaded_caustics : option Curves) : t :=
  mk (critical_curves self) (caustics self) preloaded_critical_curves
     preloaded_caustics.

End WithCurves.

Arguments mk {Curves}.
Arguments critical_curves {Curves}.
Arguments caustics {Curves}.
Arguments preloaded_critical_curves {Curves}.
Arguments preloaded_caustics {Curves}.
Arguments mkObj {Curves}.
Arguments isinstance_LensingObject {Curves}.
Arguments has_mass_profile {Curves}.
Arguments obj_critical_curves {Curves}.
Arguments obj_caustics {Curves}.
Arguments try_except_ValueError {Curves}.
Arguments critical_curves_from_obj {Curves}.
Arguments caustics_from_obj {Curves}.
Arguments new_include_with_preloaded_critical_curves_and_caustics {Curves}.

End Include.

(** ** Sums, point by point *)

(** The sum of the entries at index [i] of a sequence of fields. *)
(** The total of a list of numbers. *)
Fixpoint total (values : list Q) : Q :=
  match values with
  | [] => 0
  | v :: values' => v + total values'
  end.

(** What it is for [outcome] to sum the quantity [quantity] over
    [profiles]: [None] when there is no profile; the float total of the
    quantities when every profile returns one; and the error of the first
    profile that raises, the profiles before it having returned. *)
Definition sums_the_profiles (quantity : Profile -> result Q)
  (profiles : list Profile) (outcome : result Value) : Prop :=
  (profiles = [] -> outcome = Ok VNone)
  /\ (forall values,
        profiles <> [] ->
        Forall2 (fun p q => quantity p = Ok q) profiles values ->
        exists v, outcome = Ok (VFloat v) /\ v == total values)
  /\ (forall before p after values e,
        profiles = before ++ p :: after ->
        Forall2 (fun p q => quantity p = Ok q) before values ->
        quantity p = Raise e ->
        outcome = Raise e).

Definition sum_at (fields : list (list Q)) (i : nat) : Q :=
  sum_numbers (map (fun field => nth i field 0) fields).

Definition sum2_at (fields : list (list (Q * Q))) (i : nat) : Q * Q :=
  (sum_numbers (map (fun field => fst (nth i field (0, 0))) fields),
   sum_numbers (map (fun field => snd (nth i field (0, 0))) fields)).

(** The profiles among attribute values. *)
Fixpoint profiles_of (values : list Value) : list Profile :=
  match values with
  | [] => []
  | VProfile p :: values' => p :: profiles_of values'
  | _ :: values' => profiles_of values'
  end.

(** The attribute names that [Galaxy.__init__] assigns itself. *)
Definition constructor_attributes : list string :=
  [ "id"; "redshift"; "hyper_model_image_1d"; "hyper_galaxy_image_1d";
    "binned_hyper_galaxy_image_1d"; "pixelization"; "regularization";
    "hyper_galaxy" ].

(** A value that is neither a light nor a mass profile. *)
Definition not_a_profile (v : Value) : Prop :=
  is_light_profile v = false /\ is_mass_profile v = false.

(** Keyword arguments of a call: distinct names that [setattr] accepts on
    a galaxy (no read-only property of the class, and none of [__dict__],
    [__class__] and [__weakref__]) and that are none of the attributes the
    constructor assigns itself. *)
Definition keywords_ok (kwargs : list (string * Value)) : Prop :=
  NoDup (map fst kwargs)
  /\ Galaxy.kwargs_valid kwargs = true
  /\ forall name, In name (map fst kwargs) -> ~ In name constructor_attributes.

(** ** Finite differences against coordinates *)

(** The derivative of samples [f] taken at the coordinates [x], as the
    specification words it: a central difference over the actual
    coordinate spacing in the interior, with [hs] the spacing to the left
    neighbour and [hd] the spacing to the right one, and a one-sided
    difference at the two ends. *)
Definition central_difference (x f : list Q) (i : nat) : Q :=
  let n := length f in
  if (i =? 0)%nat then
    (nth 1 f 0 - nth 0 f 0) / (nth 1 x 0 - nth 0 x 0)
  else if (i =? n - 1)%nat then
    (nth (n - 1) f 0 - nth (n - 2) f 0) / (nth (n - 1) x 0 - nth (n - 2) x 0)
  else
    let hs := nth i x 0 - nth (i - 1) x 0 in
    let hd := nth (i + 1) x 0 - nth i x 0 in
    (hs * hs * nth (i + 1) f 0 - hd * hd * nth (i - 1) f 0
     + (hd * hd - hs * hs) * nth i f 0)
    / (hs * hd * (hd + hs)).

(** The coordinates around an interior sample are distinct and do not fold
    back: none of the spacings, nor their sum, is zero. *)
Definition regular_at (x : list Q) (i : nat) : Prop :=
  let hs := nth i x 0 - nth (i - 1) x 0 in
  let hd := nth (i + 1) x 0 - nth i x 0 in
  ~ hs == 0 /\ ~ hd == 0 /\ ~ hd + hs == 0.

Definition regular_spacing (x : list Q) : Prop :=
  forall i, (0 < i)%nat -> (i + 1 < length x)%nat -> regular_at x i.

(** Entry [(i, j)] of a two-dimensional array. *)
Definition entry (a : list (list Q)) (i j : nat) : Q := nth j (nth i a []) 0.

(** The physical coordinates of a grid of [ny] rows and [nx] columns, read
    off its flat row-major sequence of (y, x) pairs and not through the
    two-dimensional readers of the code: the x coordinates along the first
    row and the y coordinates down the first column. *)
Definition coordinates_along_x (grid : aa.Grid) (nx : nat) : list Q :=
  map (fun j => snd (nth j (aa.sub_grid_1d grid) (0, 0))) (seq 0 nx).

Definition coordinates_along_y (grid : aa.Grid) (ny nx : nat) : list Q :=
  map (fun i => fst (nth (i * nx) (aa.sub_grid_1d grid) (0, 0))) (seq 0 ny).

(** The samples of a field along row [i] and down column [j] of such a
    layout, [field k] being its value at the flat index [k]. *)
Definition samples_along_row (field : nat -> Q) (nx i : nat) : list Q :=
  map (fun j => field (i * nx + j)%nat) (seq 0 nx).

Definition samples_down_column (field : nat -> Q) (ny nx j : nat) : list Q :=
  map (fun i => field (i * nx + j)%nat) (seq 0 ny).

(** The coordinates [x] around sample [i] are such that numpy divides by
    no zero there: the neighbouring coordinate differs at an end, and the
    spacing is regular at an interior sample.  Elsewhere [np.gradient] gives
    [nan] or [inf], which the rationals do not represent. *)
Definition spaced_at (x : list Q) (i : nat) : Prop :=
  (i = 0%nat -> ~ nth 1 x 0 - nth 0 x 0 == 0)
  /\ ((i + 1)%nat = length x -> ~ nth i x 0 - nth (i - 1) x 0 == 0)
  /\ ((0 < i)%nat -> (i + 1 < length x)%nat -> regular_at x i).

(** Every sample of the two coordinate axes of the grid is so. *)
Definition well_spaced (grid : aa.Grid) (ny nx : nat) : Prop :=
  (forall j, (j < nx)%nat -> spaced_at (coordinates_along_x grid nx) j)
  /\ (forall i, (i < ny)%nat -> spaced_at (coordinates_along_y grid ny nx) i).

(** Two-dimensional arrays of exact zeros, and of values equal to zero. *)
Definition zero_rows (f : list (list Q)) : Prop :=
  Forall (Forall (fun v => v = 0)) f.

Definition nearly_zero_rows (f : list (list Q)) : Prop :=
  Forall (Forall (fun v => v == 0)) f.

(** An array in the structure [mask], of [n] values all equal to [c]. *)
Definition constant_array (mask : aa.Mask) (c : Q) (n : nat) (a : aa.Array) : Prop :=
  aa.array_mask a = mask
  /\ length (aa.sub_array_1d a) = n
  /\ Forall (fun v => v == c) (aa.sub_array_1d a).

(** An array in the structure [mask] with [n] values, and its value at a
    flat index. *)
Definition laid_out (mask : aa.Mask) (n : nat) (a : aa.Array) : Prop :=
  aa.array_mask a = mask /\ length (aa.sub_array_1d a) = n.

Definition value_at (a : aa.Array) (i : nat) : Q := nth i (aa.sub_array_1d a) 0.

(** ** A concrete setting *)

(** Simple collaborators on which the definitions can be run: a light
    profile of constant [intensity], the mass sheet of convergence [kappa]
    (deflection [kappa * (y, x)]), the square root of the integer parts, a
    tracer that reports the pixels at or below the level as one contour, and
    a pixel to physical transform centred on the origin of the mask. *)
Module Examples.

Definition param (p : Profile) (name : string) : Q :=
  match find (fun kv => String.eqb (fst kv) name) (profile_params p) with
  | Some kv => snd kv
  | None => 0
  end.

Definition constant_image (p : Profile) (grid : aa.Grid) : list Q :=
  map (fun _ => param p "intensity") (aa.sub_grid_1d grid).

Definition sheet_convergence (p : Profile) (grid : aa.Grid) : list Q :=
  map (fun _ => param p "kappa") (aa.sub_grid_1d grid).

Definition sheet_potential (p : Profile) (grid : aa.Grid) : list Q :=
  map (fun yx => (1 # 2) * param p "kappa" * (fst yx * fst yx + snd yx * snd yx))
      (aa.sub_grid_1d grid).

Definition sheet_deflections (p : Profile) (grid : aa.Grid) : list (Q * Q) :=
  map (fun yx => (param p "kappa" * fst yx, param p "kappa" * snd yx))
      (aa.sub_grid_1d grid).

(** A mass needs the redshift of the source for its units. *)
Definition in_mass_units (redshift_source : Value) (mass : Q) : result Q :=
  if is_None redshift_source then Raise ValueError else Ok mass.

Definition integer_sqrt (q : Q) : Q := Z.sqrt (Qnum q) # Pos.sqrt (Qden q).

Definition pixels_at_or_below (field : list (list Q)) (level : Q) : list (Q * Q) :=
  concat
    (map (fun i =>
            concat
              (map (fun j =>
                      if Qle_bool (nth j (nth i field []) 0) level
                      then [(inject_Z (Z.of_nat i), inject_Z (Z.of_nat j))]
                      else [])
                   (seq 0 (np.ncols field))))
         (seq 0 (length field))).

Definition one_contour (field : list (list Q)) (level : Q) : list (list (Q * Q)) :=
  match pixels_at_or_below field level with
  | [] => []
  | pixels => [pixels]
  end.

Definition pixels_to_arcsec (mask : aa.Mask) (pixels : list (Q * Q))
  (shape : nat * nat) : aa.Grid :=
  aa.mkGrid
    (map (fun p =>
            (fst (aa.origin mask) - fst p * fst (aa.pixel_scales mask),
             snd (aa.origin mask) + snd p * snd (aa.pixel_scales mask)))
         pixels)
    mask.

#[global] Instance collaborators : Collaborators := {|
  LightProfile_profile_image_from_grid := constant_image;
  LightProfile_luminosity_within_circle_in_units :=
    fun p radius _ _ _ _ _ => Ok (param p "intensity" * radius * radius);
  LightProfile_luminosity_within_ellipse_in_units :=
    fun p major_axis _ _ _ _ _ => Ok (param p "intensity" * major_axis * major_axis);
  MassProfile_convergence_from_grid := sheet_convergence;
  MassProfile_potential_from_grid := sheet_potential;
  MassProfile_deflections_from_grid := sheet_deflections;
  MassProfile_mass_within_circle_in_units :=
    fun p radius _ redshift_source _ _ _ => in_mass_units redshift_source
                                              (param p "kappa" * radius * radius);
  MassProfile_mass_within_ellipse_in_units :=
    fun p major_axis _ redshift_source _ _ _ =>
      in_mass_units redshift_source (param p "kappa" * major_axis * major_axis);
  MassProfile_einstein_radius_in_units := fun p _ _ _ => Ok (param p "kappa");
  MassProfile_einstein_mass_in_units :=
    fun p _ _ redshift_source _ _ => in_mass_units redshift_source (param p "kappa");
  sqrt := integer_sqrt;
  find_contours := one_contour;
  grid_arcsec_from_grid_pixels_1d_for_marching_squares := pixels_to_arcsec
|}.

Definition sersic : Profile :=
  mkProfile "SphericalSersic" true false [("intensity", 1)].

Definition mass_sheet (kappa : Q) : Profile :=
  mkProfile "MassSheet" false true [("kappa", kappa)].

Definition rectangular : Pixelization :=
  mkPixelization "Rectangular" [("shape_0", 3); ("shape_1", 3)].

Definition constant (coefficient : Q) : Regularization :=
  mkRegularization "Constant" [("coefficient", coefficient)].

(** A 3 x 3 grid of pixel scale 1 centred on the origin; y decreases down
    the rows and x increases along the columns. *)
Definition mask_3x3 : aa.Mask := aa.mkMask (3, 3)%nat 1 (1, 1) (0, 0).

Definition grid_3x3 : aa.Grid :=
  aa.mkGrid
    [ (1, -1); (1, 0); (1, 1);
      (0, -1); (0, 0); (0, 1);
      (-1, -1); (-1, 0); (-1, 1) ]
    mask_3x3.

(** The same with pixel scale 2: the coordinates are not the indices. *)
Definition mask_wide : aa.Mask := aa.mkMask (3, 3)%nat 1 (2, 2) (0, 0).

Definition grid_wide : aa.Grid :=
  aa.mkGrid
    [ (2, -2); (2, 0); (2, 2);
      (0, -2); (0, 0); (0, 2);
      (-2, -2); (-2, 0); (-2, 2) ]
    mask_wide.

(** [Galaxy(redshift=0.5)] *)
Definition galaxy_without_profiles : Galaxy.t :=
  Galaxy.mk
    [ ("id", VInt 0); ("redshift", VFloat (1 # 2));
      ("hyper_model_image_1d", VNone); ("hyper_galaxy_image_1d", VNone);
      ("binned_hyper_galaxy_image_1d", VNone); ("pixelization", VNone);
      ("regularization", VNone); ("hyper_galaxy", VNone) ].

(** [Galaxy(redshift=0.5, mass=mp.MassSheet(kappa=0.5))] *)
Definition lens_galaxy : Galaxy.t :=
  Galaxy.mk
    [ ("id", VInt 1); ("redshift", VFloat (1 # 2));
      ("hyper_model_image_1d", VNone); ("hyper_galaxy_image_1d", VNone);
      ("binned_hyper_galaxy_image_1d", VNone);
      ("mass", VProfile (mass_sheet (1 # 2)));
      ("pixelization", VNone); ("regularization", VNone); ("hyper_galaxy", VNone) ].

(** [Galaxy(redshift=0.5, mass=mp.MassSheet(kappa=1.0))]: the tangential
    eigenvalue vanishes everywhere. *)
Definition critical_galaxy : Galaxy.t :=
  Galaxy.mk
    [ ("id", VInt 2); ("redshift", VFloat (1 # 2));
      ("hyper_model_image_1d", VNone); ("hyper_galaxy_image_1d", VNone);
      ("binned_hyper_galaxy_image_1d", VNone);
      ("mass", VProfile (mass_sheet 1));
      ("pixelization", VNone); ("regularization", VNone); ("hyper_galaxy", VNone) ].

(** [Galaxy(redshift=0.5, mass=mp.MassSheet(kappa=2.0))]: both eigenvalues
    are negative everywhere. *)
Definition dense_galaxy : Galaxy.t :=
  Galaxy.mk
    [ ("id", VInt 4); ("redshift", VFloat (1 # 2));
      ("hyper_model_image_1d", VNone); ("hyper_galaxy_image_1d", VNone);
      ("binned_hyper_galaxy_image_1d", VNone);
      ("mass", VProfile (mass_sheet 2));
      ("pixelization", VNone); ("regularization", VNone); ("hyper_galaxy", VNone) ].

(** [Galaxy(redshift=0.5, bulge=SphericalSersic, disk=SphericalSersic,
    mass=mp.MassSheet(kappa=0.5))] *)
Definition bright_galaxy : Galaxy.t :=
  Galaxy.mk
    [ ("id", VInt 3); ("redshift", VFloat (1 # 2));
      ("hyper_model_image_1d", VNone); ("hyper_galaxy_image_1d", VNone);
      ("binned_hyper_galaxy_image_1d", VNone);
      ("bulge", VProfile sersic); ("disk", VProfile sersic);
      ("mass", VProfile (mass_sheet (1 # 2)));
      ("pixelization", VNone); ("regularization", VNone); ("hyper_galaxy", VNone) ].

(** [HyperGalaxy(contribution_factor=1.0)] *)
Definition unit_factor : HyperGalaxyT := mkHyperGalaxy 1 0 1 0.

(** [HyperGalaxy(contribution_factor=-10.0)] *)
Definition negative_factor : HyperGalaxyT := mkHyperGalaxy (-10) 0 1 0.

End Examples.

(** * Properties *)

(** ** The model on known values *)

(** The two examples of the documentation of [numpy.gradient]:
    [np.gradient(f, x)] for [f = [1, 2, 4, 7, 11, 16]] with evenly spaced
    [x = [0, 1, 2, 3, 4, 5]] and with [x = [0, 1, 1.5, 3.5, 4, 6]]. *)
Example gradient_evenly_spaced :
  exists out,
    np.gradient_1d [1; 2; 4; 7; 11; 16] [0; 1; 2; 3; 4; 5] = Ok out
    /\ map Qred out = [1; 3 # 2; 5 # 2; 7 # 2; 9 # 2; 5].
Proof.
  eexists. split; reflexivity.
Qed.

Example gradient_unevenly_spaced :
  exists out,
    np.gradient_1d [1; 2; 4; 7; 11; 16] [0; 1; 3 # 2; 7 # 2; 4; 6] = Ok out
    /\ map Qred out = [1; 3; 7 # 2; 67 # 10; 69 # 10; 5 # 2].
Proof.
  eexists. split; reflexivity.
Qed.

(** The galaxies of the concrete setting are what the constructor returns. *)
Example galaxy_without_profiles_constructed :
  Galaxy.__init__ 0 (VFloat (1 # 2)) VNone VNone VNone []
  = Ok Examples.galaxy_without_profiles.
Proof. reflexivity. Qed.

Example lens_galaxy_constructed :
  Galaxy.__init__ 1 (VFloat (1 # 2)) VNone VNone VNone
    [("mass", VProfile (Examples.mass_sheet (1 # 2)))]
  = Ok Examples.lens_galaxy.
Proof. reflexivity. Qed.

Example critical_galaxy_constructed :
  Galaxy.__init__ 2 (VFloat (1 # 2)) VNone VNone VNone
    [("mass", VProfile (Examples.mass_sheet 1))]
  = Ok Examples.critical_galaxy.
Proof. reflexivity. Qed.

(** A keyword argument named as a property of the class cannot be set. *)
Example keyword_named_as_property :
  Galaxy.__init__ 0 (VFloat (1 # 2)) VNone VNone VNone
    [("light_profiles", VList [VProfile Examples.sersic])]
  = Raise (AttributeError "light_profiles").
Proof. reflexivity. Qed.

(** ** Construction *)

Lemma setattr_not_property (self : Galaxy.t) (name : string) (val : Value) :
  Galaxy.refused name = None ->
  Galaxy.setattr self name val
  = Ok (Galaxy.mk (dict_set (Galaxy.__dict__ self) name val)).
Proof.
  intros Hname. unfold Galaxy.setattr. rewrite Hname. reflexivity.
Qed.

Lemma kwargs_valid_cons (name : string) (val : Value)
  (kwargs : list (string * Value)) :
  Galaxy.kwargs_valid ((name, val) :: kwargs) = true ->
  Galaxy.refused name = None /\ Galaxy.kwargs_valid kwargs = true.
Proof.
  cbn. intros Hvalid. apply andb_true_iff in Hvalid as [Hname Hrest].
  split; [| exact Hrest]. destruct (Galaxy.refused name); [discriminate | reflexivity].
Qed.

Lemma refused_property (name : string) :
  Galaxy.refused name = None -> Galaxy.is_property name = false.
Proof.
  unfold Galaxy.refused. destruct (Galaxy.is_property name); [discriminate | reflexivity].
Qed.

Lemma setattr_items_valid (kwargs : list (string * Value)) :
  Galaxy.kwargs_valid kwargs = true ->
  forall self, exists self', Galaxy.setattr_items self kwargs = Ok self'.
Proof.
  induction kwargs as [| [name val] kwargs IH]; intros Hvalid self.
  - exists self. reflexivity.
  - apply kwargs_valid_cons in Hvalid as [Hname Hrest].
    simpl. rewrite (setattr_not_property self name val Hname). simpl.
    apply IH. exact Hrest.
Qed.

Lemma setattr_items_raises (kwargs : list (string * Value)) (self : Galaxy.t)
  (e : exn) :
  Galaxy.setattr_items self kwargs = Raise e ->
  exists name, e = AttributeError name \/ e = TypeError name.
Proof.
  revert self. induction kwargs as [| [name val] kwargs IH]; intros self; cbn.
  - discriminate.
  - unfold Galaxy.setattr at 1.
    destruct (Galaxy.refused name) as [e' |] eqn:Hname; cbn [bind].
    + intros Heq. injection Heq as <-. exists name.
      unfold Galaxy.refused in Hname.
      destruct (Galaxy.is_property name); [injection Hname as <-; auto |].
      destruct (String.eqb name "__weakref__"); [injection Hname as <-; auto |].
      destruct (String.eqb name "__dict__"); [injection Hname as <-; auto |].
      destruct (String.eqb name "__class__"); [injection Hname as <-; auto |].
      discriminate.
    + apply IH.
Qed.

(** A keyword argument that [setattr] refuses stops the constructor with
    the error of [setattr], whatever comes after the keyword arguments. *)
Lemma setattr_items_invalid (kwargs : list (string * Value)) :
  Galaxy.kwargs_valid kwargs = false ->
  forall self,
  exists name e,
    In name (map fst kwargs)
    /\ Galaxy.refused name = Some e
    /\ Galaxy.setattr_items self kwargs = Raise e.
Proof.
  induction kwargs as [| [name val] kwargs IH]; intros Hinvalid self.
  - discriminate.
  - cbn in Hinvalid. cbn [Galaxy.setattr_items]. unfold Galaxy.setattr at 1.
    destruct (Galaxy.refused name) as [e |] eqn:Hname; cbn [bind].
    + exists name, e. split; [left; reflexivity |]. split; [exact Hname | reflexivity].
    + cbn in Hinvalid.
      destruct (IH Hinvalid (Galaxy.mk (dict_set (Galaxy.__dict__ self) name val)))
        as [name' [e [Hin [Hrefused Hraise]]]].
      exists name', e. split; [right; exact Hin |]. split; assumption.
Qed.

(** C6, as amended. Constructing a galaxy with a pixelization and no
    regularization, or with a regularization and no pixelization, never
    returns a galaxy.  With keyword arguments that [setattr] accepts the
    exception is [GalaxyException], and with both present or both absent the
    construction returns a galaxy.  With a keyword argument that [setattr]
    refuses the construction fails with the error of [setattr], before the
    pixelization and the regularization are looked at. *)
Theorem Galaxy_init_pixelization_needs_regularization :
  forall (fresh_id : Z) (redshift pixelization regularization hyper_galaxy : Value)
         (kwargs : list (string * Value)),
    (is_None pixelization <> is_None regularization ->
     exists e,
       Galaxy.__init__ fresh_id redshift pixelization regularization hyper_galaxy kwargs
       = Raise e)
    /\ (Galaxy.kwargs_valid kwargs = false ->
        exists name e,
          In name (map fst kwargs)
          /\ Galaxy.refused name = Some e
          /\ Galaxy.__init__ fresh_id redshift pixelization regularization
               hyper_galaxy kwargs = Raise e)
    /\ (Galaxy.kwargs_valid kwargs = true ->
        (is_None pixelization = false -> is_None regularization = true ->
         exists msg,
           Galaxy.__init__ fresh_id redshift pixelization regularization hyper_galaxy
             kwargs = Raise (GalaxyException msg))
        /\ (is_None pixelization = true -> is_None regularization = false ->
            exists msg,
              Galaxy.__init__ fresh_id redshift pixelization regularization hyper_galaxy
                kwargs = Raise (GalaxyException msg))
        /\ (is_None pixelization = is_None regularization ->
            exists self,
              Galaxy.__init__ fresh_id redshift pixelization regularization hyper_galaxy
                kwargs = Ok self)).
Proof.
  intros fresh_id redshift pixelization regularization hyper_galaxy kwargs.
  unfold Galaxy.__init__.
  rewrite setattr_not_property by reflexivity. cbn [bind].
  rewrite setattr_not_property by reflexivity. cbn [bind].
  rewrite setattr_not_property by reflexivity. cbn [bind].
  rewrite setattr_not_property by reflexivity. cbn [bind].
  match goal with
  | |- context [Galaxy.setattr_items ?s kwargs] => set (self0 := s)
  end.
  split.
  - intros Hmismatch.
    destruct (Galaxy.setattr_items self0 kwargs) as [self' | e]; cbn [bind]; [| eauto].
    rewrite setattr_not_property by reflexivity. cbn [bind].
    rewrite setattr_not_property by reflexivity. cbn [bind].
    destruct (is_None pixelization), (is_None regularization);
      cbn [negb andb]; try congruence; eauto.
  - split.
    { intros Hinvalid.
      destruct (setattr_items_invalid kwargs Hinvalid self0)
        as [name [e [Hin [Hrefused Hraise]]]].
      exists name, e. rewrite Hraise. cbn [bind]. auto. }
    intros Hvalid.
    destruct (setattr_items_valid kwargs Hvalid self0) as [self' Hitems].
    rewrite Hitems. cbn [bind].
    rewrite setattr_not_property by reflexivity. cbn [bind].
    rewrite setattr_not_property by reflexivity. cbn [bind].
    repeat split.
    + intros Hp Hr. rewrite Hp, Hr. cbn. eauto.
    + intros Hp Hr. rewrite Hp, Hr. cbn. eauto.
    + intros Hpr. rewrite Hpr.
      destruct (is_None regularization); cbn [negb andb];
        rewrite setattr_not_property by reflexivity; eauto.
Qed.

(** The failure is not always a [GalaxyException]: with a pixelization, no
    regularization and a keyword argument named as a property of the class,
    the constructor raises the [AttributeError] of [setattr]. *)
Lemma Galaxy_init_mismatch_raises_AttributeError :
  Galaxy.__init__ 0 (VFloat (1 # 2)) (VPixelization Examples.rectangular) VNone VNone
    [("light_profiles", VList [])]
  = Raise (AttributeError "light_profiles")
  /\ forall msg, AttributeError "light_profiles" <> GalaxyException msg.
Proof.
  split; [reflexivity | discriminate].
Qed.

(** The names that instance assignment refuses apart from the properties. *)
Example keyword_named_as_descriptor :
  Galaxy.__init__ 0 (VFloat (1 # 2)) VNone VNone VNone [("__dict__", VInt 3)]
  = Raise (TypeError "__dict__")
  /\ Galaxy.__init__ 0 (VFloat (1 # 2)) VNone VNone VNone [("__class__", VInt 3)]
     = Raise (TypeError "__class__")
  /\ Galaxy.__init__ 0 (VFloat (1 # 2)) VNone VNone VNone [("__weakref__", VNone)]
     = Raise (AttributeError "__weakref__").
Proof. repeat split; reflexivity. Qed.

(** ** Equality *)

Lemma attribute_raises (self : Galaxy.t) (name : string) (e : exn) :
  Galaxy.attribute self name = Raise e -> e = AttributeError name.
Proof.
  unfold Galaxy.attribute. destruct (dict_get _ _); congruence.
Qed.

(** Reading an attribute of a galaxy raises nothing but [AttributeError]. *)
Lemma getattr_raises (self : Galaxy.t) (name : string) (e : exn) :
  Galaxy.getattr self name = Raise e -> exists n, e = AttributeError n.
Proof.
  unfold Galaxy.getattr, Galaxy.has_redshift, Galaxy.has_pixelization,
    Galaxy.has_regularization, Galaxy.has_hyper_galaxy,
    Galaxy.uses_cluster_inversion.
  repeat match goal with
         | |- context [if String.eqb name ?s then _ else _] =>
             destruct (String.eqb name s)
         end;
    try discriminate;
    try (intros Hraise; eexists; eapply attribute_raises; eassumption);
    intros Hraise;
    match type of Hraise with
    | bind (bind (Galaxy.attribute _ ?n) _) _ = _ =>
        destruct (Galaxy.attribute self n) as [v | e'] eqn:Hattr;
        cbn [bind] in Hraise;
        [ discriminate
        | injection Hraise as <-; eexists; eapply attribute_raises; eassumption ]
    end.
Qed.

Lemma param_get_raises (params : list (string * Q)) (name : string) (e : exn) :
  Galaxy.param_get params name = Raise e -> e = AttributeError name.
Proof.
  unfold Galaxy.param_get. destruct (find _ _); congruence.
Qed.

Lemma getattr_object_raises (other : Galaxy.Object) (name : string) (e : exn) :
  Galaxy.getattr_object other name = Raise e -> exists n, e = AttributeError n.
Proof.
  destruct other as [g | cls d | v]; cbn [Galaxy.getattr_object].
  - apply getattr_raises.
  - destruct (dict_get d name); intros Heq; [discriminate |].
    injection Heq as <-. eauto.
  - destruct v; cbn [Galaxy.getattr_value]; intros Heq;
      try (injection Heq as <-; eauto; fail);
      try (eexists; eapply param_get_raises; eassumption).
    repeat match type of Heq with
           | (if ?c then _ else _) = _ => destruct c
           end; try discriminate.
    injection Heq as <-. eauto.
Qed.

Ltac eq_step :=
  match goal with
  | |- exists n, bind (Galaxy.getattr ?s ?a) _ = _ =>
      let H := fresh "Hself" in
      let e := fresh "e" in
      destruct (Galaxy.getattr s a) as [? | e] eqn:H; cbn [bind];
      [ | destruct (getattr_raises _ _ _ H) as [? ->]; eauto ]
  | |- exists n, bind (Galaxy.getattr_object ?o ?a) _ = _ =>
      let H := fresh "Hother" in
      let e := fresh "e" in
      destruct (Galaxy.getattr_object o a) as [? | e] eqn:H; cbn [bind];
      [ | destruct (getattr_object_raises _ _ _ H) as [? ->]; eauto ]
  end.

(** C9. When the right operand is not a galaxy and lacks one of the
    attributes that [__eq__] reads on it, [g == x] raises [AttributeError]
    instead of returning [False]: the members of the tuple are all evaluated
    before [all] is applied. *)
Theorem Galaxy_eq_raises_on_operand_without_attributes :
  forall (self : Galaxy.t) (other : Galaxy.Object),
    Galaxy.isinstance_Galaxy other = false ->
    (exists name,
        In name Galaxy.compared_attributes
        /\ Galaxy.getattr_object other name = Raise (AttributeError name)) ->
    exists name, Galaxy.__eq__ self other = Raise (AttributeError name).
Proof.
  intros self other Hnot [name [Hin Hlacks]].
  unfold Galaxy.__eq__. cbv zeta.
  do 10 eq_step.
  exfalso.
  unfold Galaxy.compared_attributes in Hin. cbn [In] in Hin.
  repeat match type of Hin with
         | _ \/ _ => destruct Hin as [<- | Hin]
         | False => contradiction
         end; congruence.
Qed.

(** What [__eq__] computes on two galaxies whose compared attributes are
    set: the conjunction of five comparisons, none of them about the
    regularization. *)
Lemma Galaxy_eq_of_galaxies (self other : Galaxy.t) (p1 p2 z1 z2 h1 h2 : Value) :
  Galaxy.attribute self "pixelization" = Ok p1 ->
  Galaxy.attribute other "pixelization" = Ok p2 ->
  Galaxy.attribute self "redshift" = Ok z1 ->
  Galaxy.attribute other "redshift" = Ok z2 ->
  Galaxy.attribute self "hyper_galaxy" = Ok h1 ->
  Galaxy.attribute other "hyper_galaxy" = Ok h2 ->
  Galaxy.__eq__ self (Galaxy.OGalaxy other)
  = Ok (value_eqb p1 p2 && value_eqb z1 z2 && value_eqb h1 h2
        && value_eqb (VList (Galaxy.light_profiles self))
                     (VList (Galaxy.light_profiles other))
        && value_eqb (VList (Galaxy.mass_profiles self))
                     (VList (Galaxy.mass_profiles other))).
Proof.
  intros Hp1 Hp2 Hz1 Hz2 Hh1 Hh2.
  unfold Galaxy.__eq__. cbn [Galaxy.getattr_object].
  change (Galaxy.getattr self "pixelization") with (Galaxy.attribute self "pixelization").
  change (Galaxy.getattr other "pixelization") with (Galaxy.attribute other "pixelization").
  change (Galaxy.getattr self "redshift") with (Galaxy.attribute self "redshift").
  change (Galaxy.getattr other "redshift") with (Galaxy.attribute other "redshift").
  change (Galaxy.getattr self "hyper_galaxy") with (Galaxy.attribute self "hyper_galaxy").
  change (Galaxy.getattr other "hyper_galaxy") with (Galaxy.attribute other "hyper_galaxy").
  rewrite Hp1, Hp2, Hz1, Hz2, Hh1, Hh2. cbn [bind].
  change (Galaxy.getattr self "light_profiles")
    with (@Ok Value (VList (Galaxy.light_profiles self))).
  change (Galaxy.getattr other "light_profiles")
    with (@Ok Value (VList (Galaxy.light_profiles other))).
  change (Galaxy.getattr self "mass_profiles")
    with (@Ok Value (VList (Galaxy.mass_profiles self))).
  change (Galaxy.getattr other "mass_profiles")
    with (@Ok Value (VList (Galaxy.mass_profiles other))).
  cbn [bind Galaxy.isinstance_Galaxy all forallb].
  rewrite andb_true_r. cbn [andb].
  rewrite !andb_assoc. reflexivity.
Qed.

Lemma dict_get_set_same (d : dict) (k : string) (v : Value) :
  dict_get (dict_set d k v) k = Some v.
Proof.
  induction d as [| [k' v'] d IH]; cbn.
  - rewrite String.eqb_refl. reflexivity.
  - destruct (String.eqb k' k) eqn:Hk; cbn; rewrite Hk; [reflexivity | exact IH].
Qed.

Lemma dict_get_set_other (d : dict) (k k' : string) (v : Value) :
  k <> k' -> dict_get (dict_set d k v) k' = dict_get d k'.
Proof.
  intros Hneq. induction d as [| [k0 v0] d IH]; cbn.
  - destruct (String.eqb_spec k k'); [contradiction | reflexivity].
  - destruct (String.eqb_spec k0 k) as [-> | Hk0]; cbn.
    + destruct (String.eqb_spec k k'); [contradiction | reflexivity].
    + destruct (String.eqb k0 k'); [reflexivity | exact IH].
Qed.

Lemma setattr_items_keeps (kwargs : list (string * Value)) (name : string) :
  ~ In name (map fst kwargs) ->
  forall self self',
    Galaxy.setattr_items self kwargs = Ok self' ->
    Galaxy.attribute self' name = Galaxy.attribute self name.
Proof.
  induction kwargs as [| [k v] kwargs IH]; intros Hnot self self' Hitems.
  - cbn in Hitems. injection Hitems as <-. reflexivity.
  - cbn in Hitems, Hnot. unfold Galaxy.setattr in Hitems at 1.
    destruct (Galaxy.refused k); [discriminate |]. cbn [bind] in Hitems.
    rewrite (IH ltac:(tauto) _ _ Hitems).
    unfold Galaxy.attribute. cbn [Galaxy.__dict__].
    rewrite dict_get_set_other by tauto. reflexivity.
Qed.

(** A constructed galaxy holds the arguments of the constructor (the
    keyword arguments of a call cannot name the parameter [redshift]). *)
Lemma Galaxy_init_attributes (fresh_id : Z)
  (redshift pixelization regularization hyper_galaxy : Value)
  (kwargs : list (string * Value)) (self : Galaxy.t) :
  ~ In "redshift" (map fst kwargs) ->
  Galaxy.__init__ fresh_id redshift pixelization regularization hyper_galaxy kwargs
  = Ok self ->
  Galaxy.attribute self "redshift" = Ok redshift
  /\ Galaxy.attribute self "pixelization" = Ok pixelization
  /\ Galaxy.attribute self "regularization" = Ok regularization
  /\ Galaxy.attribute self "hyper_galaxy" = Ok hyper_galaxy.
Proof.
  intros Hnot. unfold Galaxy.__init__.
  rewrite setattr_not_property by reflexivity. cbn [bind].
  rewrite setattr_not_property by reflexivity. cbn [bind].
  rewrite setattr_not_property by reflexivity. cbn [bind].
  rewrite setattr_not_property by reflexivity. cbn [bind].
  match goal with
  | |- context [Galaxy.setattr_items ?s kwargs] => set (self0 := s)
  end.
  destruct (Galaxy.setattr_items self0 kwargs) as [self1 | e] eqn:Hitems;
    cbn [bind]; [| discriminate].
  rewrite setattr_not_property by reflexivity. cbn [bind].
  rewrite setattr_not_property by reflexivity. cbn [bind].
  destruct (negb (is_None pixelization) && is_None regularization); [discriminate |].
  destruct (is_None pixelization && negb (is_None regularization)); [discriminate |].
  rewrite setattr_not_property by reflexivity.
  intros Hself. injection Hself as <-.
  pose proof (setattr_items_keeps kwargs "redshift" Hnot self0 self1 Hitems) as Hkeep.
  unfold Galaxy.attribute in *. cbn [Galaxy.__dict__] in *.
  repeat split.
  - rewrite !dict_get_set_other by discriminate. rewrite Hkeep. reflexivity.
  - rewrite !dict_get_set_other by discriminate.
    rewrite dict_get_set_same. reflexivity.
  - rewrite dict_get_set_other by discriminate.
    rewrite dict_get_set_same. reflexivity.
  - rewrite dict_get_set_same. reflexivity.
Qed.

(** Two constructed galaxies are equal for [__eq__] exactly when their
    pixelizations, redshifts, hyper-galaxies and lists of light and of mass
    profiles are equal; their regularizations take no part. *)
Lemma Galaxy_eq_of_constructed (id1 id2 : Z)
  (z1 p1 r1 h1 z2 p2 r2 h2 : Value) (kw1 kw2 : list (string * Value))
  (g1 g2 : Galaxy.t) :
  ~ In "redshift" (map fst kw1) ->
  ~ In "redshift" (map fst kw2) ->
  Galaxy.__init__ id1 z1 p1 r1 h1 kw1 = Ok g1 ->
  Galaxy.__init__ id2 z2 p2 r2 h2 kw2 = Ok g2 ->
  Galaxy.__eq__ g1 (Galaxy.OGalaxy g2)
  = Ok (value_eqb p1 p2 && value_eqb z1 z2 && value_eqb h1 h2
        && value_eqb (VList (Galaxy.light_profiles g1))
                     (VList (Galaxy.light_profiles g2))
        && value_eqb (VList (Galaxy.mass_profiles g1))
                     (VList (Galaxy.mass_profiles g2))).
Proof.
  intros Hkw1 Hkw2 Hg1 Hg2.
  destruct (Galaxy_init_attributes _ _ _ _ _ _ _ Hkw1 Hg1) as [Hz1 [Hp1 [_ Hh1]]].
  destruct (Galaxy_init_attributes _ _ _ _ _ _ _ Hkw2 Hg2) as [Hz2 [Hp2 [_ Hh2]]].
  apply Galaxy_eq_of_galaxies; assumption.
Qed.

(** C1. [Galaxy(redshift=0.5, pixelization=Rectangular, regularization=
    Constant(coefficient=1.0))] and the same galaxy with
    [Constant(coefficient=2.0)] have different regularizations, and [__eq__]
    answers [True]: the regularization is not among the compared
    attributes, so equality of galaxies does not imply equality of their
    regularizations. *)
Theorem Galaxy_eq_ignores_regularization :
  exists g1 g2 : Galaxy.t,
    Galaxy.__init__ 0 (VFloat (1 # 2)) (VPixelization Examples.rectangular)
      (VRegularization (Examples.constant 1)) VNone [] = Ok g1
    /\ Galaxy.__init__ 1 (VFloat (1 # 2)) (VPixelization Examples.rectangular)
         (VRegularization (Examples.constant 2)) VNone [] = Ok g2
    /\ Galaxy.getattr g1 "regularization" = Ok (VRegularization (Examples.constant 1))
    /\ Galaxy.getattr g2 "regularization" = Ok (VRegularization (Examples.constant 2))
    /\ value_eqb (VRegularization (Examples.constant 1))
                 (VRegularization (Examples.constant 2)) = false
    /\ Galaxy.__eq__ g1 (Galaxy.OGalaxy g2) = Ok true.
Proof.
  eexists. eexists.
  split; [reflexivity |].
  split; [reflexivity |].
  repeat split; vm_compute; reflexivity.
Qed.

(** ** Galaxies without profiles *)

Section NoProfiles.

Context `{Collaborators}.

Lemma no_light_profile (self : Galaxy.t) :
  Galaxy.has_light_profile self = false <-> Galaxy.light_profiles self = [].
Proof.
  unfold Galaxy.has_light_profile.
  destruct (Galaxy.light_profiles self); cbn; split; congruence.
Qed.

Lemma no_mass_profile (self : Galaxy.t) :
  Galaxy.has_mass_profile self = false <-> Galaxy.mass_profiles self = [].
Proof.
  unfold Galaxy.has_mass_profile.
  destruct (Galaxy.mass_profiles self); cbn; split; congruence.
Qed.

Lemma zeros_are_zero (n : nat) :
  length (np.zeros n) = n /\ Forall (fun v => v = 0) (np.zeros n).
Proof.
  unfold np.zeros. split.
  - apply repeat_length.
  - apply Forall_forall. intros v Hin. eapply repeat_spec. exact Hin.
Qed.

Lemma full2_is_zero (n : nat) :
  length (np.full2 n 0) = n /\ Forall (fun v => v = (0, 0)) (np.full2 n 0).
Proof.
  unfold np.full2. split.
  - apply repeat_length.
  - apply Forall_forall. intros v Hin. eapply repeat_spec. exact Hin.
Qed.

(** C3. Without light profiles the profile image is returned, and is a
    field of exact zeros as long as the grid; without mass profiles the
    convergence and the potential are such fields of zeros and the
    deflections are as many pairs (0, 0). *)
Theorem zero_profiles_give_fields_of_zeros :
  forall (self : Galaxy.t) (grid : aa.Grid),
    (Galaxy.has_light_profile self = false ->
     exists image,
       Galaxy.profile_image_from_grid self grid = Ok image
       /\ length (aa.sub_array_1d image) = aa.shape0 grid
       /\ Forall (fun v => v = 0) (aa.sub_array_1d image))
    /\ (Galaxy.has_mass_profile self = false ->
        (exists convergence,
            Galaxy.convergence_from_grid self grid = Ok convergence
            /\ length (aa.sub_array_1d convergence) = aa.shape0 grid
            /\ Forall (fun v => v = 0) (aa.sub_array_1d convergence))
        /\ (exists potential,
               Galaxy.potential_from_grid self grid = Ok potential
               /\ length (aa.sub_array_1d potential) = aa.shape0 grid
               /\ Forall (fun v => v = 0) (aa.sub_array_1d potential))
        /\ (exists deflections,
               Galaxy.deflections_from_grid self grid = Ok deflections
               /\ length (aa.sub_grid_1d deflections) = aa.shape0 grid
               /\ Forall (fun v => v = (0, 0)) (aa.sub_grid_1d deflections))).
Proof.
  intros self grid. split.
  - intros Hnone. apply no_light_profile in Hnone.
    unfold Galaxy.profile_image_from_grid. rewrite Hnone. cbn.
    eexists. split; [reflexivity |]. cbn. apply zeros_are_zero.
  - intros Hnone. apply no_mass_profile in Hnone.
    unfold Galaxy.convergence_from_grid, Galaxy.potential_from_grid,
      Galaxy.deflections_from_grid.
    rewrite Hnone. cbn.
    repeat split.
    + eexists. split; [reflexivity |]. cbn. apply zeros_are_zero.
    + eexists. split; [reflexivity |]. cbn. apply zeros_are_zero.
    + eexists. split; [reflexivity |]. cbn. apply full2_is_zero.
Qed.

(** C7. Without mass profiles the four mass quantities return [None], and
    without light profiles the two luminosities return [None]; [None] is
    not the number zero; and [Galaxy(redshift=0.5)] asked for
    [mass_within_circle_in_units(radius=1.0)] returns [None]. *)
Theorem undefined_quantities_return_None :
  (forall self : Galaxy.t,
      Galaxy.has_mass_profile self = false ->
      forall (length_ : Q) (redshift_source : Value) (unit_ : string)
             (cosmology : Cosmology) (kwargs : dict),
        Galaxy.mass_within_circle_in_units self length_ redshift_source unit_
          cosmology kwargs = Ok VNone
        /\ Galaxy.mass_within_ellipse_in_units self length_ redshift_source unit_
             cosmology kwargs = Ok VNone
        /\ Galaxy.einstein_radius_in_units self unit_ cosmology kwargs = Ok VNone
        /\ Galaxy.einstein_mass_in_units self unit_ redshift_source cosmology kwargs
           = Ok VNone)
  /\ (forall self : Galaxy.t,
         Galaxy.has_light_profile self = false ->
         forall (length_ : Q) (unit_ : string) (exposure_time : Value)
                (cosmology : Cosmology) (kwargs : dict),
           Galaxy.luminosity_within_circle_in_units self length_ unit_ exposure_time
             cosmology kwargs = Ok VNone
           /\ Galaxy.luminosity_within_ellipse_in_units self length_ unit_
                exposure_time cosmology kwargs = Ok VNone)
  /\ (forall x : Q, VNone <> VFloat x /\ value_eqb VNone (VFloat x) = false)
  /\ (forall fresh_id : Z,
         exists self,
           Galaxy.__init__ fresh_id (VFloat (1 # 2)) VNone VNone VNone [] = Ok self
           /\ Galaxy.mass_within_circle_in_units self 1 VNone "solMass" Planck15 []
              = Ok VNone).
Proof.
  split; [| split; [| split]].
  - intros self Hnone length_ redshift_source unit_ cosmology kwargs.
    unfold Galaxy.mass_within_circle_in_units, Galaxy.mass_within_ellipse_in_units,
      Galaxy.einstein_radius_in_units, Galaxy.einstein_mass_in_units.
    rewrite Hnone. repeat split.
  - intros self Hnone length_ unit_ exposure_time cosmology kwargs.
    unfold Galaxy.luminosity_within_circle_in_units,
      Galaxy.luminosity_within_ellipse_in_units.
    rewrite Hnone. split; reflexivity.
  - intros x. split; [discriminate | reflexivity].
  - intros fresh_id. eexists. split; reflexivity.
Qed.

End NoProfiles.

(** ** The contribution map *)

Section ContributionMap.

Lemma Qmax_either (x y : Q) : Qmax x y = x \/ Qmax x y = y.
Proof.
  unfold Qmax, GenericMinMax.gmax. destruct (x ?= y); auto.
Qed.

Lemma fold_Qmax_ge_init (l : list Q) (x : Q) : x <= fold_left Qmax l x.
Proof.
  revert x. induction l as [| y l IH]; intros x; cbn.
  - apply Qle_refl.
  - eapply Qle_trans; [apply (Q.le_max_l x y) | apply IH].
Qed.

Lemma fold_Qmax_ge (l : list Q) (x y : Q) : In y l -> y <= fold_left Qmax l x.
Proof.
  revert x. induction l as [| z l IH]; intros x Hin; cbn.
  - contradiction.
  - destruct Hin as [-> | Hin].
    + eapply Qle_trans; [apply (Q.le_max_r x y) | apply fold_Qmax_ge_init].
    + apply IH. exact Hin.
Qed.

Lemma fold_Qmax_in (l : list Q) (x : Q) : In (fold_left Qmax l x) (x :: l).
Proof.
  revert x. induction l as [| y l IH]; intros x; cbn [fold_left].
  - left. reflexivity.
  - destruct (Qmax_either x y) as [Hm | Hm]; rewrite Hm.
    + destruct (IH x) as [Heq | Hin]; [left; exact Heq | right; right; exact Hin].
    + right. apply IH.
Qed.

(** The maximum of a non-empty array is one of its entries and bounds all
    of them. *)
Lemma np_max_spec (a : list Q) :
  a <> [] ->
  exists m, np.max a = Ok m /\ In m a /\ Forall (fun x => x <= m) a.
Proof.
  destruct a as [| x a]; [congruence | intros _].
  exists (fold_left Qmax a x). split; [reflexivity |]. split.
  - apply fold_Qmax_in.
  - apply Forall_forall. intros y [<- | Hin].
    + apply fold_Qmax_ge_init.
    + apply fold_Qmax_ge. exact Hin.
Qed.

Lemma ratios_positive (cf : Q) (g m : list Q) :
  Forall (fun x => 0 < x) g ->
  Forall (fun x => 0 < x + cf) m ->
  Forall (fun c => 0 < c) (np.zip_with Qdiv g (np.add_scalar m cf)).
Proof.
  intros Hg. revert m. induction Hg as [| x g Hx Hg IH]; intros m Hm.
  - constructor.
  - destruct Hm as [| y m Hy Hm]; [constructor |].
    cbn. constructor.
    + apply Qlt_shift_div_l; [exact Hy | lra].
    + apply IH. exact Hm.
Qed.

Lemma ratios_length (cf : Q) (g m : list Q) :
  length m = length g ->
  length (np.zip_with Qdiv g (np.add_scalar m cf)) = length g.
Proof.
  intros Hlen. unfold np.zip_with, np.add_scalar.
  rewrite length_map, length_combine, length_map, Hlen. apply Nat.min_id.
Qed.

(** C8, amended. When every entry of [hyper_galaxy_image] is positive and
    every entry of [hyper_model_image + contribution_factor] is positive
    (arrays of one non-zero length), the contribution map is returned; it is
    [hyper_galaxy_image / (hyper_model_image + contribution_factor)] divided
    by its maximum, every entry lies in [0, 1] and the maximum is 1. *)
Theorem contribution_map_is_normalised :
  forall (self : HyperGalaxyT) (hyper_model_image hyper_galaxy_image : list Q),
    length hyper_model_image = length hyper_galaxy_image ->
    hyper_galaxy_image <> [] ->
    Forall (fun x => 0 < x) hyper_model_image ->
    Forall (fun x => 0 < x) hyper_galaxy_image ->
    Forall (fun x => 0 < x + contribution_factor self) hyper_model_image ->
    exists (contribution_map ratios : list Q) (m top : Q),
      HyperGalaxy.contribution_map_from_hyper_images self hyper_model_image
        hyper_galaxy_image = Ok contribution_map
      /\ ratios = np.zip_with Qdiv hyper_galaxy_image
                    (np.add_scalar hyper_model_image (contribution_factor self))
      /\ np.max ratios = Ok m
      /\ contribution_map = map (fun c => c / m) ratios
      /\ length contribution_map = length hyper_galaxy_image
      /\ Forall (fun x => 0 <= x /\ x <= 1) contribution_map
      /\ np.max contribution_map = Ok top
      /\ top == 1.
Proof.
  intros self model galaxy Hlen Hne _ Hgalaxy Hdenominators.
  set (ratios := np.zip_with Qdiv galaxy (np.add_scalar model (contribution_factor self))).
  assert (Hpos : Forall (fun c => 0 < c) ratios)
    by (apply ratios_positive; assumption).
  assert (Hrlen : length ratios = length galaxy)
    by (apply ratios_length; assumption).
  assert (Hrne : ratios <> []).
  { intros Heq. rewrite Heq in Hrlen. destruct galaxy; [congruence | discriminate]. }
  destruct (np_max_spec ratios Hrne) as [m [Hmax [Hin Hbound]]].
  assert (Hm : 0 < m) by (rewrite Forall_forall in Hpos; apply Hpos; exact Hin).
  assert (Hunit : Forall (fun x => 0 <= x /\ x <= 1) (map (fun c => c / m) ratios)).
  { apply Forall_forall. intros x Hx. apply in_map_iff in Hx as [c [<- Hc]].
    rewrite Forall_forall in Hpos, Hbound. split.
    - apply Qle_shift_div_l; [exact Hm |]. specialize (Hpos c Hc). lra.
    - apply Qle_shift_div_r; [exact Hm |]. specialize (Hbound c Hc). lra. }
  assert (Hmne : map (fun c => c / m) ratios <> []).
  { destruct ratios; [congruence | discriminate]. }
  destruct (np_max_spec _ Hmne) as [top [Htop [Htin Htbound]]].
  exists (map (fun c => c / m) ratios), ratios, m, top.
  repeat split.
  - unfold HyperGalaxy.contribution_map_from_hyper_images, np.divide, np.elementwise.
    unfold np.add_scalar at 1. rewrite length_map, Hlen, Nat.eqb_refl. cbn [bind].
    fold ratios. rewrite Hmax. reflexivity.
  - exact Hmax.
  - rewrite length_map. exact Hrlen.
  - exact Hunit.
  - exact Htop.
  - apply Qle_antisym.
    + rewrite Forall_forall in Hunit. apply (Hunit top Htin).
    + rewrite Forall_forall in Htbound.
      assert (Hone : m / m <= top)
        by (apply Htbound; apply in_map_iff; exists m; split; [reflexivity | exact Hin]).
      assert (Hmm : m / m == 1) by (field; lra).
      rewrite Hmm in Hone. exact Hone.
Qed.

End ContributionMap.

(** The claim as first stated, for every hyper-galaxy, fails when the
    contribution factor is negative: with [contribution_factor = -10], model
    image [1, 2] and galaxy image [1, 3] the ratios are [-1/9, -3/8], their
    maximum is [-1/9], and the map is [1, 27/8]. *)
Lemma contribution_map_exceeds_one_for_negative_factor :
  Forall (fun x => 0 < x) [1; 2]
  /\ Forall (fun x => 0 < x) [1; 3]
  /\ HyperGalaxy.contribution_map_from_hyper_images Examples.negative_factor
       [1; 2] [1; 3] = Ok [9 # 9; 27 # 8]
  /\ ~ Forall (fun x => 0 <= x /\ x <= 1) [9 # 9; 27 # 8]
  /\ np.max [9 # 9; 27 # 8] = Ok (27 # 8)
  /\ ~ (27 # 8 == 1).
Proof.
  split; [repeat constructor |].
  split; [repeat constructor |].
  split; [reflexivity |].
  split.
  - intros Hall. inversion Hall as [| x l _ Htail]; subst.
    inversion Htail as [| x l [_ Hle] _]; subst.
    revert Hle. unfold Qle. cbn. lia.
  - split; [reflexivity |]. unfold Qeq. cbn. lia.
Qed.

(** ** Eigenvalues, critical curves and caustics *)

Section Curves.

Context `{Collaborators}.

(** C4. Each critical curve is computed from the first contour that the
    tracer returns for the eigenvalue field, whatever the other contours
    are; when the tracer returns no contour the method returns the empty
    list. *)
Theorem critical_curves_use_first_contour :
  forall (self : Galaxy.t) (grid : aa.Grid),
    (forall (eigen_values : aa.Array) (e2 : list (list Q)),
        Galaxy.tangential_eigen_value_from_grid self grid = Ok eigen_values ->
        aa.array_in_2d eigen_values = Ok e2 ->
        (find_contours e2 0 = [] ->
         Galaxy.tangential_critical_curve_from_grid self grid = Ok Galaxy.EmptyList)
        /\ (forall (first : list (Q * Q)) (others : list (list (Q * Q))),
               find_contours e2 0 = first :: others ->
               Galaxy.tangential_critical_curve_from_grid self grid
               = Ok (Galaxy.CurveGrid
                       (grid_arcsec_from_grid_pixels_1d_for_marching_squares
                          (aa.grid_mask grid) first
                          (aa.sub_shape_2d (aa.array_mask eigen_values))))))
    /\ (forall (eigen_values : aa.Array) (e2 : list (list Q)),
           Galaxy.radial_eigen_value_from_grid self grid = Ok eigen_values ->
           aa.array_in_2d eigen_values = Ok e2 ->
           (find_contours e2 0 = [] ->
            Galaxy.radial_critical_curve_from_grid self grid = Ok Galaxy.EmptyList)
           /\ (forall (first : list (Q * Q)) (others : list (list (Q * Q))),
                  find_contours e2 0 = first :: others ->
                  Galaxy.radial_critical_curve_from_grid self grid
                  = Ok (Galaxy.CurveGrid
                          (grid_arcsec_from_grid_pixels_1d_for_marching_squares
                             (aa.grid_mask grid) first
                             (aa.sub_shape_2d (aa.array_mask eigen_values)))))).
Proof.
  intros self grid. split; intros eigen_values e2 Heigen H2d.
  - unfold Galaxy.tangential_critical_curve_from_grid.
    rewrite Heigen. cbn [bind]. rewrite H2d. cbn [bind]. split.
    + intros Hnone. rewrite Hnone. reflexivity.
    + intros first others Hsome. rewrite Hsome. reflexivity.
  - unfold Galaxy.radial_critical_curve_from_grid.
    rewrite Heigen. cbn [bind]. rewrite H2d. cbn [bind]. split.
    + intros Hnone. rewrite Hnone. reflexivity.
    + intros first others Hsome. rewrite Hsome. reflexivity.
Qed.

Lemma nth_zip_with {A : Type} (f : A -> A -> A) (d : A) (a b : list A) (i : nat) :
  length a = length b ->
  (i < length a)%nat ->
  nth i (np.zip_with f a b) d = f (nth i a d) (nth i b d).
Proof.
  revert b i. induction a as [| x a IH]; intros b i Hlen Hi.
  - cbn in Hi. lia.
  - destruct b as [| y b]; [discriminate |].
    destruct i as [| i]; [reflexivity |].
    cbn in Hlen, Hi. apply (IH b i); lia.
Qed.

Lemma length_zip_with {A : Type} (f : A -> A -> A) (a b : list A) :
  length a = length b -> length (np.zip_with f a b) = length a.
Proof.
  intros Hlen. unfold np.zip_with.
  rewrite length_map, length_combine, <- Hlen. apply Nat.min_id.
Qed.

Lemma elementwise_same_length {A : Type} (f : A -> A -> A) (a b : list A) :
  length a = length b -> np.elementwise f a b = Ok (np.zip_with f a b).
Proof.
  intros Hlen. unfold np.elementwise. rewrite Hlen, Nat.eqb_refl. reflexivity.
Qed.

Lemma caustic_of_curve (curve deflections : aa.Grid) :
  length (aa.sub_grid_1d deflections) = aa.shape0 curve ->
  exists caustic,
    aa.subtract_grid curve deflections = Ok caustic
    /\ aa.shape0 caustic = aa.shape0 curve
    /\ forall i, (i < aa.shape0 curve)%nat ->
                 nth i (aa.sub_grid_1d caustic) (0, 0)
                 = np.pair_sub (nth i (aa.sub_grid_1d curve) (0, 0))
                               (nth i (aa.sub_grid_1d deflections) (0, 0)).
Proof.
  unfold aa.shape0. intros Hlen. symmetry in Hlen.
  unfold aa.subtract_grid, np.subtract2.
  rewrite (elementwise_same_length _ _ _ Hlen). cbn [bind].
  eexists. split; [reflexivity |]. cbn [aa.sub_grid_1d]. split.
  - apply length_zip_with. exact Hlen.
  - intros i Hi.
    change (0, 0) with (np.pair_sub (0, 0) (0, 0)) at 1.
    rewrite (nth_indep _ _ (0, 0)) by (rewrite length_zip_with; assumption).
    apply nth_zip_with; assumption.
Qed.

(** C5. Each caustic is the critical curve minus the deflections of the
    galaxy on that curve: at every point of the curve the y coordinate of
    the caustic is the y coordinate of the point minus the y component of
    the deflection there, and likewise for x; when the critical curve is
    empty the caustic is the empty list, returned and not raised. *)
Theorem caustics_are_deflected_critical_curves :
  forall (self : Galaxy.t) (grid : aa.Grid),
    (forall critical_curve : Galaxy.Curve,
        Galaxy.tangential_critical_curve_from_grid self grid = Ok critical_curve ->
        (Galaxy.len critical_curve = 0%nat ->
         Galaxy.tangential_caustic_from_grid self grid = Ok Galaxy.EmptyList)
        /\ (forall curve deflections : aa.Grid,
               critical_curve = Galaxy.CurveGrid curve ->
               aa.shape0 curve <> 0%nat ->
               Galaxy.deflections_from_grid self curve = Ok deflections ->
               length (aa.sub_grid_1d deflections) = aa.shape0 curve ->
               exists caustic,
                 Galaxy.tangential_caustic_from_grid self grid
                 = Ok (Galaxy.CurveGrid caustic)
                 /\ aa.shape0 caustic = aa.shape0 curve
                 /\ forall i, (i < aa.shape0 curve)%nat ->
                      let point := nth i (aa.sub_grid_1d curve) (0, 0) in
                      let deflection := nth i (aa.sub_grid_1d deflections) (0, 0) in
                      nth i (aa.sub_grid_1d caustic) (0, 0)
                      = (fst point - fst deflection, snd point - snd deflection)))
    /\ (forall critical_curve : Galaxy.Curve,
           Galaxy.radial_critical_curve_from_grid self grid = Ok critical_curve ->
           (Galaxy.len critical_curve = 0%nat ->
            Galaxy.radial_caustic_from_grid self grid = Ok Galaxy.EmptyList)
           /\ (forall curve deflections : aa.Grid,
                  critical_curve = Galaxy.CurveGrid curve ->
                  aa.shape0 curve <> 0%nat ->
                  Galaxy.deflections_from_grid self curve = Ok deflections ->
                  length (aa.sub_grid_1d deflections) = aa.shape0 curve ->
                  exists caustic,
                    Galaxy.radial_caustic_from_grid self grid
                    = Ok (Galaxy.CurveGrid caustic)
                    /\ aa.shape0 caustic = aa.shape0 curve
                    /\ forall i, (i < aa.shape0 curve)%nat ->
                         let point := nth i (aa.sub_grid_1d curve) (0, 0) in
                         let deflection := nth i (aa.sub_grid_1d deflections) (0, 0) in
                         nth i (aa.sub_grid_1d caustic) (0, 0)
                         = (fst point - fst deflection, snd point - snd deflection))).
Proof.
  intros self grid. split; intros critical_curve Hcurve.
  - unfold Galaxy.tangential_caustic_from_grid. rewrite Hcurve. cbn [bind]. split.
    + intros Hempty. rewrite Hempty. reflexivity.
    + intros curve deflections -> Hnonempty Hdeflections Hlen.
      cbn [Galaxy.len Galaxy.as_grid bind].
      apply Nat.eqb_neq in Hnonempty. rewrite Hnonempty, Hdeflections. cbn [bind].
      destruct (caustic_of_curve curve deflections Hlen)
        as [caustic [Hsub [Hshape Hpoints]]].
      exists caustic. rewrite Hsub. cbn [bind]. auto.
  - unfold Galaxy.radial_caustic_from_grid. rewrite Hcurve. cbn [bind]. split.
    + intros Hempty. rewrite Hempty. reflexivity.
    + intros curve deflections -> Hnonempty Hdeflections Hlen.
      cbn [Galaxy.len Galaxy.as_grid bind].
      apply Nat.eqb_neq in Hnonempty. rewrite Hnonempty, Hdeflections. cbn [bind].
      destruct (caustic_of_curve curve deflections Hlen)
        as [caustic [Hsub [Hshape Hpoints]]].
      exists caustic. rewrite Hsub. cbn [bind]. auto.
Qed.

End Curves.

(** ** The gradient of numpy *)

Section Gradient.

Lemma nth_map_seq {A : Type} (g : nat -> A) (d : A) (len start k : nat) :
  (k < len)%nat -> nth k (map g (seq start len)) d = g (start + k)%nat.
Proof.
  revert start k. induction len as [| len IH]; intros start k Hk; [lia |].
  destruct k as [| k]; cbn.
  - f_equal. lia.
  - rewrite IH by lia. f_equal. lia.
Qed.

Lemma nth_diff (x : list Q) (k : nat) :
  (k + 1 < length x)%nat -> nth k (np.diff x) 0 = nth (S k) x 0 - nth k x 0.
Proof.
  intros Hk. unfold np.diff. rewrite nth_map_seq by lia. reflexivity.
Qed.

Lemma length_diff (x : list Q) : length (np.diff x) = (length x - 1)%nat.
Proof.
  unfold np.diff. rewrite length_map, length_seq. reflexivity.
Qed.

Lemma uniform_spacing_spec (d : list Q) (k : nat) :
  forallb (fun dk => Qeq_bool dk (nth 0 d 0)) d = true ->
  (k < length d)%nat ->
  nth k d 0 == nth 0 d 0.
Proof.
  intros Hall Hk. rewrite forallb_forall in Hall.
  apply Qeq_bool_iff. apply Hall. apply nth_In. exact Hk.
Qed.

Lemma uniform_interior (h hs hd f0 f1 f2 : Q) :
  hs == h -> hd == h -> ~ h == 0 ->
  (f2 - f0) / (2 * h)
  == (hs * hs * f2 - hd * hd * f0 + (hd * hd - hs * hs) * f1) / (hs * hd * (hd + hs)).
Proof.
  intros Hs Hd Hh. rewrite Hs, Hd. field.
  repeat split; try assumption. intros Hsum. apply Hh. lra.
Qed.

Lemma weighted_interior (dx1 dx2 f0 f1 f2 : Q) :
  ~ dx1 == 0 -> ~ dx2 == 0 -> ~ dx2 + dx1 == 0 ->
  (- dx2) / (dx1 * (dx1 + dx2)) * f0 + (dx2 - dx1) / (dx1 * dx2) * f1
  + dx1 / (dx2 * (dx1 + dx2)) * f2
  == (dx1 * dx1 * f2 - dx2 * dx2 * f0 + (dx2 * dx2 - dx1 * dx1) * f1)
     / (dx1 * dx2 * (dx2 + dx1)).
Proof.
  intros H1 H2 H12. field. repeat split; assumption.
Qed.

Lemma gradient_1d_returns (f x : list Q) :
  length x = length f -> (2 <= length f)%nat ->
  exists out, np.gradient_1d f x = Ok out.
Proof.
  intros Hlen Hn. unfold np.gradient_1d.
  rewrite Hlen, Nat.eqb_refl. cbn [negb].
  destruct (Nat.ltb_spec (length f) 2) as [Hlt | _]; [lia |].
  eexists. reflexivity.
Qed.

Lemma nth_ends_and_interior (e0 en : Q) (g : nat -> Q) (n i : nat) :
  (2 <= n)%nat -> (i < n)%nat ->
  nth i (e0 :: map g (seq 1 (n - 2)) ++ [en]) 0
  = if (i =? 0)%nat then e0 else if (i =? n - 1)%nat then en else g i.
Proof.
  intros Hn Hi.
  destruct (Nat.eqb_spec i 0) as [-> | Hfirst]; [reflexivity |].
  destruct i as [| i]; [congruence |]. cbn [nth].
  destruct (Nat.eqb_spec (S i) (n - 1)) as [Hlast | Hinner].
  - rewrite app_nth2 by (rewrite length_map, length_seq; lia).
    rewrite length_map, length_seq.
    replace (i - (n - 2))%nat with O by lia. reflexivity.
  - rewrite app_nth1 by (rewrite length_map, length_seq; lia).
    rewrite nth_map_seq by lia. reflexivity.
Qed.

(** The array that [np.gradient] returns holds, sample by sample, the
    difference quotients of the specification. *)
Lemma gradient_1d_spec (f x out : list Q) :
  np.gradient_1d f x = Ok out ->
  length x = length f
  /\ (2 <= length f)%nat
  /\ length out = length f
  /\ forall i, (i < length f)%nat ->
               ((0 < i)%nat -> (i + 1 < length f)%nat -> regular_at x i) ->
               nth i out 0 == central_difference x f i.
Proof.
  unfold np.gradient_1d.
  destruct (Nat.eqb_spec (length x) (length f)) as [Hlen | Hlen];
    cbn [negb]; [| discriminate].
  destruct (Nat.ltb_spec (length f) 2) as [Hlt | Hn]; [discriminate |].
  set (n := length f) in *.
  set (d := np.diff x).
  set (uniform_spacing := forallb (fun dk => Qeq_bool dk (nth 0 d 0)) d).
  intros Hout. injection Hout as Hout.
  assert (Hd : length d = (n - 1)%nat) by (unfold d; rewrite length_diff; lia).
  split; [exact Hlen |]. split; [exact Hn |]. split.
  { rewrite <- Hout. cbn [app length].
    rewrite length_app, length_map, length_seq. cbn [length]. lia. }
  intros i Hi Hregular.
  rewrite <- Hout. cbn [app]. rewrite nth_ends_and_interior by assumption.
  unfold central_difference. fold n.
  destruct (Nat.eqb_spec i 0) as [Hfirst | Hfirst].
  - (* the first sample *)
    unfold d. rewrite nth_diff by lia. reflexivity.
  - destruct (Nat.eqb_spec i (n - 1)) as [Hlast | Hinner].
    + (* the last sample *)
      assert (Hdn : nth (n - 2) d 0 = nth (n - 1) x 0 - nth (n - 2) x 0).
      { unfold d. rewrite nth_diff by lia.
        replace (S (n - 2)) with (n - 1)%nat by lia. reflexivity. }
      destruct uniform_spacing eqn:Huniform.
      * rewrite <- Hdn.
        rewrite <- (uniform_spacing_spec d (n - 2) Huniform) by lia. reflexivity.
      * rewrite Hdn. reflexivity.
    + (* an interior sample *)
      assert (Hs : nth (i - 1) d 0 = nth i x 0 - nth (i - 1) x 0).
      { unfold d. rewrite nth_diff by lia.
        replace (S (i - 1)) with i by lia. reflexivity. }
      assert (Hr : nth i d 0 = nth (i + 1) x 0 - nth i x 0).
      { unfold d. rewrite nth_diff by lia.
        replace (i + 1)%nat with (S i) by lia. reflexivity. }
      destruct (Hregular ltac:(lia) ltac:(lia)) as [Hhs [Hhd Hsum]].
      rewrite <- Hs in Hhs, Hsum. rewrite <- Hr in Hhd, Hsum.
      rewrite <- Hs, <- Hr.
      destruct uniform_spacing eqn:Huniform.
      * assert (E1 : nth (i - 1) d 0 == nth 0 d 0)
          by (apply uniform_spacing_spec; [exact Huniform | lia]).
        assert (E2 : nth i d 0 == nth 0 d 0)
          by (apply uniform_spacing_spec; [exact Huniform | lia]).
        apply uniform_interior; [exact E1 | exact E2 |].
        rewrite <- E1. exact Hhs.
      * apply weighted_interior; assumption.
Qed.

End Gradient.

(** ** Sequences of results and the two-dimensional layout *)

Section Layout.

Lemma mapM_spec {A B : Type} (f : A -> result B) (l : list A) (l' : list B) :
  mapM f l = Ok l' ->
  length l' = length l
  /\ forall i d d', (i < length l)%nat -> f (nth i l d) = Ok (nth i l' d').
Proof.
  revert l'. induction l as [| a l IH]; intros l' Hmap; cbn in Hmap.
  - injection Hmap as <-. split; [reflexivity |]. cbn. intros; lia.
  - destruct (f a) as [b | e] eqn:Hfa; [| discriminate].
    destruct (mapM f l) as [bs | e]; [| discriminate].
    injection Hmap as <-. destruct (IH bs eq_refl) as [Hlen Hnth].
    split; [cbn; congruence |].
    intros [| i] d d' Hi; cbn; [exact Hfa |].
    apply Hnth. cbn in Hi. lia.
Qed.

Lemma mapM_returns {A B : Type} (f : A -> result B) (l : list A) :
  (forall a, In a l -> exists b, f a = Ok b) ->
  exists l', mapM f l = Ok l'.
Proof.
  induction l as [| a l IH]; intros Hall; cbn.
  - eauto.
  - destruct (Hall a (or_introl eq_refl)) as [b ->].
    destruct IH as [bs ->]; [intros; apply Hall; right; assumption |].
    eauto.
Qed.

Lemma nth_map_in {A B : Type} (g : A -> B) (l : list A) (i : nat) (d : A) (d' : B) :
  (i < length l)%nat -> nth i (map g l) d' = g (nth i l d).
Proof.
  revert i. induction l as [| a l IH]; intros i Hi; cbn in Hi; [lia |].
  destruct i as [| i]; cbn; [reflexivity |]. apply IH. lia.
Qed.

Lemma length_reshape {A : Type} (ny nx : nat) (flat : list A) :
  length (aa.reshape (ny, nx) flat) = ny.
Proof.
  unfold aa.reshape. rewrite length_map, length_seq. reflexivity.
Qed.

Lemma nth_reshape {A : Type} (ny nx : nat) (flat : list A) (i : nat) :
  (i < ny)%nat ->
  nth i (aa.reshape (ny, nx) flat) [] = firstn nx (skipn (i * nx) flat).
Proof.
  intros Hi. unfold aa.reshape. cbn [fst snd]. rewrite nth_map_seq by exact Hi.
  reflexivity.
Qed.

Lemma length_row_reshape {A : Type} (ny nx : nat) (flat : list A) (i : nat) :
  length flat = (ny * nx)%nat -> (i < ny)%nat ->
  length (nth i (aa.reshape (ny, nx) flat) []) = nx.
Proof.
  intros Hlen Hi. rewrite nth_reshape by exact Hi.
  rewrite length_firstn, length_skipn, Hlen. nia.
Qed.

Lemma reshape_concat (nx : nat) (rows : list (list Q)) :
  Forall (fun row => length row = nx) rows ->
  aa.reshape (length rows, nx) (concat rows) = rows.
Proof.
  intros Hrows. induction Hrows as [| row rows Hrow Hrows IH].
  - reflexivity.
  - unfold aa.reshape in *. cbn [fst snd length seq map concat] in *.
    f_equal.
    + cbn [Nat.mul skipn]. rewrite firstn_app, Hrow, Nat.sub_diag.
      cbn [firstn]. rewrite app_nil_r. rewrite <- Hrow. apply firstn_all.
    + rewrite <- seq_shift, map_map. rewrite <- IH at 2.
      apply map_ext. intros i. f_equal.
      replace (S i * nx)%nat with (i * nx + nx)%nat by lia.
      rewrite <- skipn_skipn, skipn_app, Hrow, Nat.sub_diag.
      rewrite (skipn_all2 (n := nx) row) by lia. reflexivity.
Qed.

Lemma length_concat_rows (nx : nat) (rows : list (list Q)) :
  Forall (fun row => length row = nx) rows ->
  length (concat rows) = (length rows * nx)%nat.
Proof.
  intros Hrows. induction Hrows as [| row rows Hrow Hrows IH]; [reflexivity |].
  cbn [concat length]. rewrite length_app, IH, Hrow. lia.
Qed.

Lemma in_2d_of_rows (mask : aa.Mask) (rows : list (list Q)) (nx : nat) :
  aa.sub_shape_2d mask = (length rows, nx) ->
  Forall (fun row => length row = nx) rows ->
  aa.array_in_2d (aa.array_from_sub_array_2d mask rows) = Ok rows.
Proof.
  intros Hshape Hrows.
  unfold aa.array_in_2d, aa.array_from_sub_array_2d, aa.in_2d.
  cbn [aa.sub_array_1d aa.array_mask]. rewrite Hshape. cbn [fst snd].
  rewrite (length_concat_rows nx rows Hrows), Nat.eqb_refl.
  rewrite reshape_concat by exact Hrows. reflexivity.
Qed.

Lemma entry_map2d (g : Q -> Q) (a : list (list Q)) (i j : nat) :
  (i < length a)%nat -> (j < length (nth i a []))%nat ->
  entry (np.map2d g a) i j = g (entry a i j).
Proof.
  intros Hi Hj. unfold entry, np.map2d.
  rewrite (nth_map_in (map g) a i [] []) by exact Hi.
  apply nth_map_in. exact Hj.
Qed.

Lemma rows_of_map2d (g : Q -> Q) (a : list (list Q)) (nx : nat) :
  Forall (fun row => length row = nx) a ->
  Forall (fun row => length row = nx) (np.map2d g a).
Proof.
  intros Hrows. unfold np.map2d. apply Forall_map.
  eapply Forall_impl; [| exact Hrows]. cbn. intros row Hrow.
  rewrite length_map. exact Hrow.
Qed.

Lemma Forall_rows_nth {A : Type} (P : list A -> Prop) (rows : list (list A)) :
  (forall i, (i < length rows)%nat -> P (nth i rows [])) -> Forall P rows.
Proof.
  intros Hall. apply Forall_forall. intros row Hin.
  destruct (In_nth _ _ [] Hin) as [i [Hi <-]]. apply Hall. exact Hi.
Qed.

(** [np.gradient(f, x, axis=1)] returns when every row has as many entries
    as there are coordinates, at least two. *)
Lemma gradient_axis1_returns (f : list (list Q)) (x : list Q) :
  Forall (fun row => length row = length x) f ->
  (2 <= length x)%nat ->
  exists g, np.gradient_axis1 f x = Ok g.
Proof.
  intros Hrows Hn. apply mapM_returns. intros row Hin.
  rewrite Forall_forall in Hrows. specialize (Hrows row Hin).
  apply gradient_1d_returns; lia.
Qed.

Lemma gradient_axis1_spec (f : list (list Q)) (x : list Q) (g : list (list Q)) :
  np.gradient_axis1 f x = Ok g ->
  length g = length f
  /\ Forall (fun row => length row = length x) g
  /\ forall i j,
      (i < length f)%nat -> (j < length x)%nat ->
      ((0 < j)%nat -> (j + 1 < length x)%nat -> regular_at x j) ->
      entry g i j == central_difference x (nth i f []) j.
Proof.
  intros Hg. destruct (mapM_spec _ _ _ Hg) as [Hlen Hrow].
  split; [exact Hlen |]. split.
  - apply Forall_rows_nth. intros i Hi. rewrite Hlen in Hi.
    destruct (gradient_1d_spec _ _ _ (Hrow i [] [] Hi)) as [Hx [_ [Hout _]]].
    congruence.
  - intros i j Hi Hj Hregular.
    destruct (gradient_1d_spec _ _ _ (Hrow i [] [] Hi)) as [Hx [_ [_ Hpoint]]].
    unfold entry. apply Hpoint; rewrite <- Hx; assumption.
Qed.

Lemma length_column (f : list (list Q)) (j : nat) :
  length (np.column f j) = length f.
Proof.
  unfold np.column. apply length_map.
Qed.

(** [np.gradient(f, y, axis=0)] returns when there are as many rows as
    coordinates, at least two. *)
Lemma gradient_axis0_returns (f : list (list Q)) (y : list Q) :
  length y = length f ->
  (2 <= length f)%nat ->
  exists g, np.gradient_axis0 f y = Ok g.
Proof.
  intros Hlen Hn. unfold np.gradient_axis0.
  destruct (mapM_returns (fun j => np.gradient_1d (np.column f j) y)
              (seq 0 (np.ncols f))) as [cols ->].
  - intros j _. apply gradient_1d_returns; rewrite length_column; assumption.
  - cbn [bind]. eauto.
Qed.

Lemma gradient_axis0_spec (f : list (list Q)) (y : list Q) (g : list (list Q)) :
  np.gradient_axis0 f y = Ok g ->
  length g = length f
  /\ Forall (fun row => length row = np.ncols f) g
  /\ forall i j,
      (i < length f)%nat -> (j < np.ncols f)%nat ->
      ((0 < i)%nat -> (i + 1 < length y)%nat -> regular_at y i) ->
      entry g i j == central_difference y (np.column f j) i.
Proof.
  unfold np.gradient_axis0.
  destruct (mapM _ (seq 0 (np.ncols f))) as [cols | e] eqn:Hcols; [| discriminate].
  cbn [bind]. intros Hg. injection Hg as <-.
  destruct (mapM_spec _ _ _ Hcols) as [Hlen Hcol].
  rewrite length_seq in Hlen, Hcol.
  assert (Hrow : forall i, (i < length f)%nat ->
                           nth i (np.transpose (length f) cols) []
                           = map (fun col => nth i col 0) cols).
  { intros i Hi. unfold np.transpose. rewrite nth_map_seq by exact Hi. reflexivity. }
  split; [unfold np.transpose; rewrite length_map, length_seq; reflexivity |].
  split.
  - apply Forall_rows_nth. intros i Hi.
    unfold np.transpose in Hi. rewrite length_map, length_seq in Hi.
    rewrite Hrow by exact Hi. rewrite length_map. exact Hlen.
  - intros i j Hi Hj Hregular.
    unfold entry. rewrite Hrow by exact Hi.
    rewrite (nth_map_in _ cols j [] 0) by lia.
    specialize (Hcol j O [] Hj). rewrite seq_nth in Hcol by exact Hj.
    cbn [Nat.add] in Hcol.
    destruct (gradient_1d_spec _ _ _ Hcol) as [Hy [_ [_ Hpoint]]].
    rewrite length_column in Hy, Hpoint.
    apply Hpoint; [exact Hi |]. rewrite <- Hy. exact Hregular.
Qed.

End Layout.

(** ** The Jacobian *)

Section JacobianEntries.

Context `{Collaborators}.

Lemma mass_profiles_are_profiles (self : Galaxy.t) (v : Value) :
  In v (Galaxy.mass_profiles self) -> exists p, v = VProfile p.
Proof.
  unfold Galaxy.mass_profiles. intros Hin. apply filter_In in Hin as [_ Hmass].
  destruct v; try discriminate. eauto.
Qed.

Lemma sum_from_add2_returns (n : nat) (rest : list (list (Q * Q))) :
  Forall (fun a => length a = n) rest ->
  forall acc, length acc = n ->
  exists total, sum_from np.add2 acc rest = Ok total /\ length total = n.
Proof.
  intros Hrest. induction Hrest as [| a rest Ha Hrest IH]; intros acc Hacc; cbn.
  - eauto.
  - unfold np.add2 at 1. rewrite elementwise_same_length by congruence. cbn [bind].
    apply IH. rewrite length_zip_with by congruence. exact Hacc.
Qed.

(** The deflections are returned, one pair for each coordinate of the grid
    and in the structure of the grid, when every mass profile returns one
    pair for each coordinate. *)
Lemma deflections_from_grid_returns (self : Galaxy.t) (grid : aa.Grid) :
  (forall p, In (VProfile p) (Galaxy.mass_profiles self) ->
             length (MassProfile_deflections_from_grid p grid) = aa.shape0 grid) ->
  exists deflections,
    Galaxy.deflections_from_grid self grid = Ok deflections
    /\ length (aa.sub_grid_1d deflections) = aa.shape0 grid
    /\ aa.grid_mask deflections = aa.grid_mask grid.
Proof.
  intros Hprofiles. unfold Galaxy.deflections_from_grid.
  set (call := call_profile "deflections_from_grid"
                 (fun p => MassProfile_deflections_from_grid p grid)).
  destruct (mapM_returns call (Galaxy.mass_profiles self)) as [fields Hfields].
  { intros v Hin. destruct (mass_profiles_are_profiles self v Hin) as [p ->].
    cbn. eauto. }
  rewrite Hfields. cbn [bind].
  destruct (mapM_spec _ _ _ Hfields) as [Hlen Hnth].
  assert (Hall : Forall (fun a => length a = aa.shape0 grid) fields).
  { apply Forall_rows_nth. intros i Hi. rewrite Hlen in Hi.
    specialize (Hnth i VNone [] Hi).
    assert (Hin : In (nth i (Galaxy.mass_profiles self) VNone) (Galaxy.mass_profiles self))
      by (apply nth_In; exact Hi).
    destruct (mass_profiles_are_profiles self _ Hin) as [p Hp].
    rewrite Hp in Hnth, Hin. cbn in Hnth. injection Hnth as <-.
    apply Hprofiles. exact Hin. }
  destruct Hall as [| first rest Hfirst Hrest].
  - eexists. split; [reflexivity |]. cbn. split; [apply full2_is_zero | reflexivity].
  - unfold sum_arrays2.
    destruct (sum_from_add2_returns (aa.shape0 grid) rest Hrest
                (map (np.pair_add (0, 0)) first)) as [total [Htotal Hlength]].
    { rewrite length_map. exact Hfirst. }
    rewrite Htotal. cbn [bind]. eexists. split; [reflexivity |]. cbn. auto.
Qed.

Lemma rows_reshape {A : Type} (ny nx : nat) (flat : list A) :
  length flat = (ny * nx)%nat ->
  Forall (fun row => length row = nx) (aa.reshape (ny, nx) flat).
Proof.
  intros Hlen. apply Forall_forall. intros row Hin.
  destruct (In_nth _ _ [] Hin) as [i [Hi <-]].
  rewrite length_reshape in Hi. apply length_row_reshape; assumption.
Qed.

Lemma ncols_of_rows (f : list (list Q)) (nx : nat) :
  (0 < length f)%nat -> Forall (fun row => length row = nx) f -> np.ncols f = nx.
Proof.
  intros Hf Hrows. destruct Hrows as [| row f Hrow _]; [cbn in Hf; lia |].
  exact Hrow.
Qed.

Lemma rows_of_component (sel : Q * Q -> Q) (g2 : list (list (Q * Q))) (nx : nat) :
  Forall (fun row => length row = nx) g2 ->
  Forall (fun row => length row = nx) (map (map sel) g2).
Proof.
  intros Hrows. apply Forall_map. eapply Forall_impl; [| exact Hrows].
  cbn. intros row Hrow. rewrite length_map. exact Hrow.
Qed.

Lemma x_of_first_row_returns (g2 : list (list (Q * Q))) (nx : nat) :
  (0 < length g2)%nat ->
  Forall (fun row => length row = nx) g2 ->
  exists xs, Galaxy.x_of_first_row g2 = Ok xs /\ length xs = nx.
Proof.
  intros Hg2 Hrows. destruct Hrows as [| row g2 Hrow _]; [cbn in Hg2; lia |].
  eexists. split; [reflexivity |]. rewrite length_map. exact Hrow.
Qed.

Lemma y_of_first_column_returns (g2 : list (list (Q * Q))) (nx : nat) :
  (0 < nx)%nat ->
  Forall (fun row => length row = nx) g2 ->
  exists ys, Galaxy.y_of_first_column g2 = Ok ys /\ length ys = length g2.
Proof.
  intros Hnx Hrows. unfold Galaxy.y_of_first_column.
  match goal with
  | |- context [mapM ?f g2] => destruct (mapM_returns f g2) as [ys Hys]
  end.
  - intros row Hin. rewrite Forall_forall in Hrows. specialize (Hrows row Hin).
    destruct row; [cbn in Hrows; lia | eauto].
  - exists ys. split; [exact Hys |]. apply (mapM_spec _ _ _ Hys).
Qed.

(** The derivative along the rows, wrapped as the Jacobian entries are. *)
Lemma axis1_entries (mask : aa.Mask) (f : list (list Q)) (x : list Q)
  (post : Q -> Q) (ny nx : nat) :
  aa.sub_shape_2d mask = (ny, nx) ->
  length f = ny ->
  Forall (fun row => length row = nx) f ->
  length x = nx ->
  (2 <= nx)%nat ->
  exists g,
    np.gradient_axis1 f x = Ok g
    /\ aa.array_in_2d (aa.array_from_sub_array_2d mask (np.map2d post g))
       = Ok (np.map2d post g)
    /\ forall i j,
        (i < ny)%nat -> (j < nx)%nat ->
        ((0 < j)%nat -> (j + 1 < nx)%nat -> regular_at x j) ->
        entry (np.map2d post g) i j = post (entry g i j)
        /\ entry g i j == central_difference x (nth i f []) j.
Proof.
  intros Hshape Hf Hrows Hx Hnx.
  destruct (gradient_axis1_returns f x) as [g Hg];
    [rewrite Hx; exact Hrows | lia |].
  destruct (gradient_axis1_spec f x g Hg) as [Hlen [Hgrows Hpoint]].
  rewrite Hx in Hgrows.
  exists g. split; [exact Hg |]. split.
  - apply (in_2d_of_rows mask _ nx).
    + unfold np.map2d. rewrite length_map. congruence.
    + apply rows_of_map2d. exact Hgrows.
  - intros i j Hi Hj Hregular. split.
    + apply entry_map2d; [lia |].
      rewrite Forall_forall in Hgrows. rewrite Hgrows; [exact Hj |].
      apply nth_In. lia.
    + apply Hpoint; [lia | lia |]. rewrite Hx. exact Hregular.
Qed.

(** The derivative along the columns, wrapped as the Jacobian entries are. *)
Lemma axis0_entries (mask : aa.Mask) (f : list (list Q)) (y : list Q)
  (post : Q -> Q) (ny nx : nat) :
  aa.sub_shape_2d mask = (ny, nx) ->
  length f = ny ->
  Forall (fun row => length row = nx) f ->
  length y = ny ->
  (2 <= ny)%nat ->
  exists g,
    np.gradient_axis0 f y = Ok g
    /\ aa.array_in_2d (aa.array_from_sub_array_2d mask (np.map2d post g))
       = Ok (np.map2d post g)
    /\ forall i j,
        (i < ny)%nat -> (j < nx)%nat ->
        ((0 < i)%nat -> (i + 1 < ny)%nat -> regular_at y i) ->
        entry (np.map2d post g) i j = post (entry g i j)
        /\ entry g i j == central_difference y (np.column f j) i.
Proof.
  intros Hshape Hf Hrows Hy Hny.
  assert (Hcols : np.ncols f = nx) by (apply ncols_of_rows; [lia | exact Hrows]).
  destruct (gradient_axis0_returns f y) as [g Hg]; [congruence | lia |].
  destruct (gradient_axis0_spec f y g Hg) as [Hlen [Hgrows Hpoint]].
  rewrite Hcols in Hgrows.
  exists g. split; [exact Hg |]. split.
  - apply (in_2d_of_rows mask _ nx).
    + unfold np.map2d. rewrite length_map. congruence.
    + apply rows_of_map2d. exact Hgrows.
  - intros i j Hi Hj Hregular. split.
    + apply entry_map2d; [lia |].
      rewrite Forall_forall in Hgrows. rewrite Hgrows; [exact Hj |].
      apply nth_In. lia.
    + apply Hpoint; [lia | lia |]. rewrite Hy. exact Hregular.
Qed.

Lemma laid_out_of_rows (mask : aa.Mask) (ny nx : nat) (rows : list (list Q)) :
  aa.sub_shape_2d mask = (ny, nx) ->
  aa.array_in_2d (aa.array_from_sub_array_2d mask rows) = Ok rows ->
  laid_out mask (ny * nx) (aa.array_from_sub_array_2d mask rows).
Proof.
  intros Hshape H2d. split; [reflexivity |].
  unfold aa.array_in_2d, aa.in_2d, aa.array_from_sub_array_2d in H2d.
  cbn [aa.array_mask aa.sub_array_1d] in H2d. rewrite Hshape in H2d.
  cbn [fst snd] in H2d. cbn [aa.array_from_sub_array_2d aa.sub_array_1d].
  destruct (Nat.eqb_spec (length (concat rows)) (ny * nx)) as [Hlen | Hlen];
    [exact Hlen | discriminate].
Qed.

(** *** Two-dimensional layouts on the flat sequence *)

Lemma in_2d_is_reshape {A : Type} (mask : aa.Mask) (flat : list A)
  (rows : list (list A)) (ny nx : nat) :
  aa.sub_shape_2d mask = (ny, nx) ->
  aa.in_2d mask flat = Ok rows ->
  rows = aa.reshape (ny, nx) flat /\ length flat = (ny * nx)%nat.
Proof.
  intros Hshape. unfold aa.in_2d. rewrite Hshape. cbn [fst snd].
  destruct (Nat.eqb_spec (length flat) (ny * nx)) as [Hlen | Hlen]; [| discriminate].
  intros Hrows. injection Hrows as <-. split; [reflexivity | exact Hlen].
Qed.

Lemma firstn_as_map {A : Type} (d : A) (l : list A) :
  forall n, (n <= length l)%nat -> firstn n l = map (fun j => nth j l d) (seq 0 n).
Proof.
  induction l as [| a l IH]; intros n Hn.
  - cbn in Hn. replace n with 0%nat by lia. reflexivity.
  - destruct n as [| n]; [reflexivity |].
    cbn [firstn seq map nth]. f_equal.
    rewrite <- seq_shift, map_map. apply IH. cbn in Hn. lia.
Qed.

Lemma row_of_reshape {A : Type} (d : A) (ny nx : nat) (flat : list A) (i : nat) :
  length flat = (ny * nx)%nat ->
  (i < ny)%nat ->
  nth i (aa.reshape (ny, nx) flat) []
  = map (fun j => nth (i * nx + j) flat d) (seq 0 nx).
Proof.
  intros Hlen Hi. rewrite nth_reshape by exact Hi.
  rewrite (firstn_as_map d) by (rewrite length_skipn, Hlen; nia).
  apply map_ext. intros j. apply nth_skipn.
Qed.

Lemma entry_of_reshape {A : Type} (d : A) (ny nx : nat) (flat : list A) (i j : nat) :
  length flat = (ny * nx)%nat ->
  (i < ny)%nat -> (j < nx)%nat ->
  nth j (nth i (aa.reshape (ny, nx) flat) []) d = nth (i * nx + j) flat d.
Proof.
  intros Hlen Hi Hj. rewrite (row_of_reshape d) by assumption.
  rewrite (nth_map_seq (fun j => nth (i * nx + j) flat d) d nx 0 j Hj).
  reflexivity.
Qed.

Lemma component_row (sel : Q * Q -> Q) (ny nx : nat) (flat : list (Q * Q)) (i : nat) :
  length flat = (ny * nx)%nat ->
  (i < ny)%nat ->
  nth i (map (map sel) (aa.reshape (ny, nx) flat)) []
  = samples_along_row (fun k => sel (nth k flat (0, 0))) nx i.
Proof.
  intros Hlen Hi.
  rewrite (nth_map_in (map sel) _ i [] []) by (rewrite length_reshape; exact Hi).
  rewrite (row_of_reshape (0, 0)) by assumption.
  unfold samples_along_row. rewrite map_map. reflexivity.
Qed.

Lemma component_column (sel : Q * Q -> Q) (ny nx : nat) (flat : list (Q * Q))
  (j : nat) :
  length flat = (ny * nx)%nat ->
  (j < nx)%nat ->
  np.column (map (map sel) (aa.reshape (ny, nx) flat)) j
  = samples_down_column (fun k => sel (nth k flat (0, 0))) ny nx j.
Proof.
  intros Hlen Hj. unfold np.column, samples_down_column, aa.reshape.
  cbn [fst snd]. rewrite !map_map. apply map_ext_in. intros i Hi.
  apply in_seq in Hi.
  assert (Hrow : length (firstn nx (skipn (i * nx) flat)) = nx)
    by (rewrite length_firstn, length_skipn, Hlen; nia).
  rewrite (nth_map_in sel _ j (0, 0) 0) by (rewrite Hrow; exact Hj).
  rewrite nth_firstn. apply Nat.ltb_lt in Hj. rewrite Hj.
  rewrite nth_skipn. reflexivity.
Qed.

Lemma x_of_first_row_is (grid : aa.Grid) (ny nx : nat) (xs : list Q) :
  length (aa.sub_grid_1d grid) = (ny * nx)%nat ->
  (0 < ny)%nat ->
  Galaxy.x_of_first_row (aa.reshape (ny, nx) (aa.sub_grid_1d grid)) = Ok xs ->
  xs = coordinates_along_x grid nx.
Proof.
  intros Hlen Hny Hxs.
  pose proof (row_of_reshape (0, 0) ny nx (aa.sub_grid_1d grid) 0 Hlen Hny) as Hrow.
  destruct (aa.reshape (ny, nx) (aa.sub_grid_1d grid)) as [| row rows] eqn:Hrows.
  - apply (f_equal (@length _)) in Hrows. rewrite length_reshape in Hrows.
    cbn in Hrows. lia.
  - cbn in Hxs, Hrow. injection Hxs as <-. rewrite Hrow.
    unfold coordinates_along_x. rewrite map_map. reflexivity.
Qed.

Lemma y_of_first_column_is (grid : aa.Grid) (ny nx : nat) (ys : list Q) :
  length (aa.sub_grid_1d grid) = (ny * nx)%nat ->
  (0 < nx)%nat ->
  Galaxy.y_of_first_column (aa.reshape (ny, nx) (aa.sub_grid_1d grid)) = Ok ys ->
  ys = coordinates_along_y grid ny nx.
Proof.
  intros Hlen Hnx Hys. unfold Galaxy.y_of_first_column in Hys.
  destruct (mapM_spec _ _ _ Hys) as [Hylen Hpoint].
  rewrite length_reshape in Hylen, Hpoint.
  apply (nth_ext _ _ 0 0).
  - unfold coordinates_along_y. rewrite length_map, length_seq. exact Hylen.
  - intros i Hi. rewrite Hylen in Hi.
    specialize (Hpoint i [] 0 Hi).
    rewrite (row_of_reshape (0, 0)) in Hpoint by assumption.
    destruct nx as [| nx]; [lia |]. cbn [seq map] in Hpoint.
    injection Hpoint as <-.
    unfold coordinates_along_y.
    rewrite (nth_map_seq _ 0 ny 0 i Hi). cbn [Nat.add].
    rewrite Nat.add_0_r. reflexivity.
Qed.

(** The entries of the Jacobian on the two-dimensional layouts that the
    code reads: the deflections, the grid and the four arrays in two
    dimensions, the x coordinates of the first row and the y coordinates of
    the first column. *)
Lemma jacobian_entries_in_2d :
  forall (self : Galaxy.t) (grid : aa.Grid) (ny nx : nat),
    aa.sub_shape_2d (aa.grid_mask grid) = (ny, nx) ->
    aa.shape0 grid = (ny * nx)%nat ->
    (2 <= ny)%nat ->
    (2 <= nx)%nat ->
    (forall p, In (VProfile p) (Galaxy.mass_profiles self) ->
               length (MassProfile_deflections_from_grid p grid) = aa.shape0 grid) ->
    exists (deflections : aa.Grid) (alpha g2 : list (list (Q * Q))) (xs ys : list Q)
           (a11 a12 a21 a22 : aa.Array) (A11 A12 A21 A22 : list (list Q)),
      Galaxy.deflections_from_grid self grid = Ok deflections
      /\ aa.grid_mask deflections = aa.grid_mask grid
      /\ aa.grid_in_2d deflections = Ok alpha
      /\ aa.grid_in_2d grid = Ok g2
      /\ Galaxy.x_of_first_row g2 = Ok xs
      /\ Galaxy.y_of_first_column g2 = Ok ys
      /\ Galaxy.jacobian_from_grid self grid = Ok ((a11, a12), (a21, a22))
      /\ laid_out (aa.grid_mask grid) (ny * nx) a11
      /\ laid_out (aa.grid_mask grid) (ny * nx) a12
      /\ laid_out (aa.grid_mask grid) (ny * nx) a21
      /\ laid_out (aa.grid_mask grid) (ny * nx) a22
      /\ aa.array_in_2d a11 = Ok A11
      /\ aa.array_in_2d a12 = Ok A12
      /\ aa.array_in_2d a21 = Ok A21
      /\ aa.array_in_2d a22 = Ok A22
      /\ forall i j,
          (i < ny)%nat -> (j < nx)%nat ->
          ((0 < j)%nat -> (j + 1 < nx)%nat -> regular_at xs j) ->
          ((0 < i)%nat -> (i + 1 < ny)%nat -> regular_at ys i) ->
          entry A11 i j
          == 1 - central_difference xs (nth i (Galaxy.component_x alpha) []) j
          /\ entry A12 i j
             == - central_difference ys (np.column (Galaxy.component_x alpha) j) i
          /\ entry A21 i j
             == - central_difference xs (nth i (Galaxy.component_y alpha) []) j
          /\ entry A22 i j
             == 1 - central_difference ys (np.column (Galaxy.component_y alpha) j) i.
Proof.
  intros self grid ny nx Hshape Hshape0 Hny Hnx Hprofiles.
  destruct (deflections_from_grid_returns self grid Hprofiles)
    as [deflections [Hdeflections [Hdlen Hdmask]]].
  set (alpha := aa.reshape (ny, nx) (aa.sub_grid_1d deflections)).
  set (g2 := aa.reshape (ny, nx) (aa.sub_grid_1d grid)).
  assert (Halpha : aa.grid_in_2d deflections = Ok alpha).
  { unfold aa.grid_in_2d, aa.in_2d. rewrite Hdmask, Hshape. cbn [fst snd].
    rewrite Hdlen, Hshape0, Nat.eqb_refl. reflexivity. }
  assert (Hg2 : aa.grid_in_2d grid = Ok g2).
  { unfold aa.grid_in_2d, aa.in_2d. rewrite Hshape. cbn [fst snd].
    unfold aa.shape0 in Hshape0. rewrite Hshape0, Nat.eqb_refl. reflexivity. }
  assert (Harows : Forall (fun row => length row = nx) alpha)
    by (apply rows_reshape; congruence).
  assert (Hgrows : Forall (fun row => length row = nx) g2)
    by (apply rows_reshape; exact Hshape0).
  assert (Halen : length alpha = ny) by apply length_reshape.
  assert (Hglen : length g2 = ny) by apply length_reshape.
  destruct (x_of_first_row_returns g2 nx) as [xs [Hxs Hxlen]]; [lia | exact Hgrows |].
  destruct (y_of_first_column_returns g2 nx) as [ys [Hys Hylen]];
    [lia | exact Hgrows |].
  rewrite Hglen in Hylen.
  assert (Hxrows : Forall (fun row => length row = nx) (Galaxy.component_x alpha))
    by (apply rows_of_component; exact Harows).
  assert (Hyrows : Forall (fun row => length row = nx) (Galaxy.component_y alpha))
    by (apply rows_of_component; exact Harows).
  assert (Hxlength : length (Galaxy.component_x alpha) = ny)
    by (unfold Galaxy.component_x; rewrite length_map; exact Halen).
  assert (Hylength : length (Galaxy.component_y alpha) = ny)
    by (unfold Galaxy.component_y; rewrite length_map; exact Halen).
  destruct (axis1_entries (aa.grid_mask grid) (Galaxy.component_x alpha) xs
              (fun v => 1 - v) ny nx Hshape Hxlength Hxrows Hxlen Hnx)
    as [g11 [Hg11 [H11 Hp11]]].
  destruct (axis0_entries (aa.grid_mask grid) (Galaxy.component_x alpha) ys
              (fun v => (-1) * v) ny nx Hshape Hxlength Hxrows Hylen Hny)
    as [g12 [Hg12 [H12 Hp12]]].
  destruct (axis1_entries (aa.grid_mask grid) (Galaxy.component_y alpha) xs
              (fun v => (-1) * v) ny nx Hshape Hylength Hyrows Hxlen Hnx)
    as [g21 [Hg21 [H21 Hp21]]].
  destruct (axis0_entries (aa.grid_mask grid) (Galaxy.component_y alpha) ys
              (fun v => 1 - v) ny nx Hshape Hylength Hyrows Hylen Hny)
    as [g22 [Hg22 [H22 Hp22]]].
  exists deflections, alpha, g2, xs, ys.
  do 4 eexists. do 4 eexists.
  split; [exact Hdeflections |]. split; [exact Hdmask |].
  split; [exact Halpha |]. split; [exact Hg2 |].
  split; [exact Hxs |]. split; [exact Hys |].
  split.
  { unfold Galaxy.jacobian_from_grid, Galaxy.jacobian_a11_from_grid,
      Galaxy.jacobian_a12_from_grid, Galaxy.jacobian_a21_from_grid,
      Galaxy.jacobian_a22_from_grid.
    rewrite Hdeflections. cbn [bind]. rewrite Halpha, Hg2. cbn [bind].
    rewrite Hxs, Hys. cbn [bind]. rewrite Hg11, Hg12, Hg21, Hg22. cbn [bind].
    reflexivity. }
  split; [exact (laid_out_of_rows _ ny nx _ Hshape H11) |].
  split; [exact (laid_out_of_rows _ ny nx _ Hshape H12) |].
  split; [exact (laid_out_of_rows _ ny nx _ Hshape H21) |].
  split; [exact (laid_out_of_rows _ ny nx _ Hshape H22) |].
  split; [exact H11 |]. split; [exact H12 |]. split; [exact H21 |].
  split; [exact H22 |].
  intros i j Hi Hj Hregular_x Hregular_y.
  destruct (Hp11 i j Hi Hj Hregular_x) as [E11 V11].
  destruct (Hp12 i j Hi Hj Hregular_y) as [E12 V12].
  destruct (Hp21 i j Hi Hj Hregular_x) as [E21 V21].
  destruct (Hp22 i j Hi Hj Hregular_y) as [E22 V22].
  rewrite E11, E12, E21, E22, V11, V12, V21, V22.
  repeat split; ring.
Qed.

(** C2. On a grid laid out in [ny] rows and [nx] columns, at least two of
    each, with mass profiles that return one deflection for each coordinate,
    [jacobian_from_grid] returns four arrays of [ny * nx] values whose
    values at pixel [(i, j)] are [1 - d(alpha_x)/dx], [- d(alpha_x)/dy],
    [- d(alpha_y)/dx] and [1 - d(alpha_y)/dy]: each derivative is the
    difference quotient of the deflections of the galaxy along row [i] or
    down column [j] against the physical x coordinates of the grid along
    its first row, or its y coordinates down its first column, at every
    sample where these coordinates are spaced so that nothing is divided by
    zero. *)
Theorem jacobian_entries_are_coordinate_gradients :
  forall (self : Galaxy.t) (grid : aa.Grid) (ny nx : nat),
    aa.sub_shape_2d (aa.grid_mask grid) = (ny, nx) ->
    aa.shape0 grid = (ny * nx)%nat ->
    (2 <= ny)%nat ->
    (2 <= nx)%nat ->
    (forall p, In (VProfile p) (Galaxy.mass_profiles self) ->
               length (MassProfile_deflections_from_grid p grid) = aa.shape0 grid) ->
    exists (deflections : aa.Grid) (a11 a12 a21 a22 : aa.Array),
      Galaxy.deflections_from_grid self grid = Ok deflections
      /\ Galaxy.jacobian_from_grid self grid = Ok ((a11, a12), (a21, a22))
      /\ laid_out (aa.grid_mask grid) (ny * nx) a11
      /\ laid_out (aa.grid_mask grid) (ny * nx) a12
      /\ laid_out (aa.grid_mask grid) (ny * nx) a21
      /\ laid_out (aa.grid_mask grid) (ny * nx) a22
      /\ forall i j,
          (i < ny)%nat -> (j < nx)%nat ->
          let xs := coordinates_along_x grid nx in
          let ys := coordinates_along_y grid ny nx in
          let alpha_y k := fst (nth k (aa.sub_grid_1d deflections) (0, 0)) in
          let alpha_x k := snd (nth k (aa.sub_grid_1d deflections) (0, 0)) in
          spaced_at xs j ->
          spaced_at ys i ->
          value_at a11 (i * nx + j)
          == 1 - central_difference xs (samples_along_row alpha_x nx i) j
          /\ value_at a12 (i * nx + j)
             == - central_difference ys (samples_down_column alpha_x ny nx j) i
          /\ value_at a21 (i * nx + j)
             == - central_difference xs (samples_along_row alpha_y nx i) j
          /\ value_at a22 (i * nx + j)
             == 1 - central_difference ys (samples_down_column alpha_y ny nx j) i.
Proof.
  intros self grid ny nx Hshape Hshape0 Hny Hnx Hprofiles.
  destruct (jacobian_entries_in_2d self grid ny nx Hshape Hshape0 Hny Hnx Hprofiles)
    as [deflections [alpha [g2 [xs [ys [a11 [a12 [a21 [a22 [A11 [A12 [A21 [A22
          [Hdeflections [Hdmask [Halpha [Hg2 [Hxs [Hys [Hjacobian
             [L11 [L12 [L21 [L22 [H11 [H12 [H21 [H22 Hentries]]]]]]]]]]]]]]]]]]]]]]]]]]]].
  unfold aa.grid_in_2d in Halpha, Hg2. rewrite Hdmask in Halpha.
  destruct (in_2d_is_reshape _ _ _ ny nx Hshape Halpha) as [-> Hdlen].
  destruct (in_2d_is_reshape _ _ _ ny nx Hshape Hg2) as [-> Hglen].
  apply (x_of_first_row_is grid ny nx xs Hglen ltac:(lia)) in Hxs. subst xs.
  apply (y_of_first_column_is grid ny nx ys Hglen ltac:(lia)) in Hys. subst ys.
  assert (Hlayout :
            forall (a : aa.Array) (A : list (list Q)),
              laid_out (aa.grid_mask grid) (ny * nx) a ->
              aa.array_in_2d a = Ok A ->
              forall i j, (i < ny)%nat -> (j < nx)%nat ->
                          entry A i j = value_at a (i * nx + j)).
  { intros a A [Hmask Hlen] HA i j Hi Hj. unfold aa.array_in_2d in HA.
    rewrite Hmask in HA.
    destruct (in_2d_is_reshape _ _ _ ny nx Hshape HA) as [-> _].
    unfold entry, value_at. apply entry_of_reshape; assumption. }
  exists deflections, a11, a12, a21, a22.
  split; [exact Hdeflections |]. split; [exact Hjacobian |].
  split; [exact L11 |]. split; [exact L12 |]. split; [exact L21 |].
  split; [exact L22 |].
  intros i j Hi Hj xs ys alpha_y alpha_x [_ [_ Hx]] [_ [_ Hy]].
  assert (Hxlen : length xs = nx)
    by (unfold xs, coordinates_along_x; rewrite length_map, length_seq; reflexivity).
  assert (Hylen : length ys = ny)
    by (unfold ys, coordinates_along_y; rewrite length_map, length_seq; reflexivity).
  rewrite Hxlen in Hx. rewrite Hylen in Hy.
  destruct (Hentries i j Hi Hj Hx Hy) as [E11 [E12 [E21 E22]]].
  rewrite <- (Hlayout a11 A11 L11 H11 i j Hi Hj).
  rewrite <- (Hlayout a12 A12 L12 H12 i j Hi Hj).
  rewrite <- (Hlayout a21 A21 L21 H21 i j Hi Hj).
  rewrite <- (Hlayout a22 A22 L22 H22 i j Hi Hj).
  unfold Galaxy.component_x, Galaxy.component_y in E11, E12, E21, E22.
  rewrite (component_row snd ny nx _ i Hdlen Hi) in E11.
  rewrite (component_column snd ny nx _ j Hdlen Hj) in E12.
  rewrite (component_row fst ny nx _ i Hdlen Hi) in E21.
  rewrite (component_column fst ny nx _ j Hdlen Hj) in E22.
  repeat split; assumption.
Qed.

End JacobianEntries.

(** ** A galaxy without mass: no critical curve *)

Section NoMass.

Context `{Collaborators}.

Lemma nth_of_zeros (f : list Q) (k : nat) :
  Forall (fun v => v = 0) f -> nth k f 0 = 0.
Proof.
  intros Hzero. destruct (Nat.lt_ge_cases k (length f)) as [Hk | Hk].
  - rewrite Forall_forall in Hzero. apply Hzero. apply nth_In. exact Hk.
  - apply nth_overflow. exact Hk.
Qed.

Lemma nth_of_nearly_zeros (f : list Q) (k : nat) :
  Forall (fun v => v == 0) f -> nth k f 0 == 0.
Proof.
  intros Hzero. destruct (Nat.lt_ge_cases k (length f)) as [Hk | Hk].
  - rewrite Forall_forall in Hzero. apply Hzero. apply nth_In. exact Hk.
  - rewrite nth_overflow by exact Hk. reflexivity.
Qed.

(** The gradient of a field of zeros vanishes. *)
Lemma gradient_1d_of_zeros (f x out : list Q) :
  np.gradient_1d f x = Ok out ->
  Forall (fun v => v = 0) f ->
  Forall (fun v => v == 0) out.
Proof.
  unfold np.gradient_1d.
  destruct (negb (length x =? length f)%nat); [discriminate |].
  destruct (length f <? 2)%nat; [discriminate |].
  intros Hout Hzero. injection Hout as <-.
  cbn [app]. constructor; [| apply Forall_app; split].
  - rewrite !(nth_of_zeros f) by exact Hzero. unfold Qdiv. ring.
  - apply Forall_forall. intros v Hv. apply in_map_iff in Hv as [i [<- _]].
    rewrite !(nth_of_zeros f) by exact Hzero.
    destruct (forallb _ _); unfold Qdiv; ring.
  - constructor; [| constructor].
    rewrite !(nth_of_zeros f) by exact Hzero. unfold Qdiv. ring.
Qed.

Lemma gradient_axis1_of_zeros (f : list (list Q)) (x : list Q) (g : list (list Q)) :
  np.gradient_axis1 f x = Ok g -> zero_rows f -> nearly_zero_rows g.
Proof.
  intros Hg Hzero. destruct (mapM_spec _ _ _ Hg) as [Hlen Hrow].
  apply Forall_rows_nth. intros i Hi. rewrite Hlen in Hi.
  apply (gradient_1d_of_zeros _ _ _ (Hrow i [] [] Hi)).
  unfold zero_rows in Hzero. rewrite Forall_forall in Hzero.
  apply Hzero. apply nth_In. exact Hi.
Qed.

Lemma column_of_zeros (f : list (list Q)) (j : nat) :
  zero_rows f -> Forall (fun v => v = 0) (np.column f j).
Proof.
  intros Hzero. unfold np.column. apply Forall_map.
  eapply Forall_impl; [| exact Hzero]. cbn. intros row Hrow.
  apply nth_of_zeros. exact Hrow.
Qed.

Lemma gradient_axis0_of_zeros (f : list (list Q)) (y : list Q) (g : list (list Q)) :
  np.gradient_axis0 f y = Ok g -> zero_rows f -> nearly_zero_rows g.
Proof.
  unfold np.gradient_axis0.
  destruct (mapM _ (seq 0 (np.ncols f))) as [cols | e] eqn:Hcols; [| discriminate].
  cbn [bind]. intros Hg Hzero. injection Hg as <-.
  destruct (mapM_spec _ _ _ Hcols) as [Hlen Hcol].
  rewrite length_seq in Hlen, Hcol.
  assert (Hall : Forall (Forall (fun v => v == 0)) cols).
  { apply Forall_rows_nth. intros j Hj. rewrite Hlen in Hj.
    specialize (Hcol j O [] Hj).
    apply (gradient_1d_of_zeros _ _ _ Hcol). apply column_of_zeros. exact Hzero. }
  unfold nearly_zero_rows, np.transpose.
  apply Forall_map. apply Forall_forall. intros i _.
  apply Forall_map. eapply Forall_impl; [| exact Hall]. cbn.
  intros col Hcol0. apply nth_of_nearly_zeros. exact Hcol0.
Qed.

Lemma in_firstn {A : Type} (n : nat) (l : list A) (x : A) :
  In x (firstn n l) -> In x l.
Proof.
  intros Hin. rewrite <- (firstn_skipn n l). apply in_or_app. left. exact Hin.
Qed.

Lemma in_skipn {A : Type} (n : nat) (l : list A) (x : A) :
  In x (skipn n l) -> In x l.
Proof.
  intros Hin. rewrite <- (firstn_skipn n l). apply in_or_app. right. exact Hin.
Qed.

Lemma rows_within {A : Type} (P : A -> Prop) (shape : nat * nat) (flat : list A) :
  Forall P flat -> Forall (Forall P) (aa.reshape shape flat).
Proof.
  intros Hflat. unfold aa.reshape. apply Forall_map. apply Forall_forall.
  intros i _. apply Forall_forall. intros v Hv.
  rewrite Forall_forall in Hflat. apply Hflat.
  eapply in_skipn. eapply in_firstn. exact Hv.
Qed.

Lemma constant_map (mask : aa.Mask) (g : Q -> Q) (c c' : Q) (n : nat) (a : aa.Array) :
  constant_array mask c n a ->
  (forall v, v == c -> g v == c') ->
  constant_array mask c' n (aa.map_array g a).
Proof.
  intros [Hmask [Hlen Hall]] Hg. unfold aa.map_array. repeat split; cbn.
  - exact Hmask.
  - rewrite length_map. exact Hlen.
  - apply Forall_map. eapply Forall_impl; [| exact Hall]. exact Hg.
Qed.

Lemma constant_zip (mask : aa.Mask) (f : Q -> Q -> Q) (c1 c2 c' : Q) (n : nat)
  (a b : aa.Array) :
  constant_array mask c1 n a ->
  constant_array mask c2 n b ->
  (forall u v, u == c1 -> v == c2 -> f u v == c') ->
  exists r, aa.zip_array f a b = Ok r /\ constant_array mask c' n r.
Proof.
  intros [Hmask [Hlen Hall]] [_ [Hlen' Hall']] Hf. unfold aa.zip_array.
  rewrite elementwise_same_length by congruence. cbn [bind].
  eexists. split; [reflexivity |]. repeat split; cbn.
  - exact Hmask.
  - rewrite length_zip_with by congruence. exact Hlen.
  - unfold np.zip_with. apply Forall_map. apply Forall_forall. intros [u v] Hin.
    rewrite Forall_forall in Hall, Hall'. cbn. apply Hf.
    + apply Hall. eapply in_combine_l. exact Hin.
    + apply Hall'. eapply in_combine_r. exact Hin.
Qed.

Lemma constant_remapped (mask : aa.Mask) (c : Q) (n : nat) (a : aa.Array) :
  constant_array mask c n a ->
  constant_array mask c n (aa.array_from_sub_array_1d mask (aa.sub_array_1d a)).
Proof.
  intros [_ [Hlen Hall]]. repeat split; assumption.
Qed.

Lemma constant_of_rows (mask : aa.Mask) (post : Q -> Q) (c : Q) (ny nx : nat)
  (g : list (list Q)) :
  aa.array_in_2d (aa.array_from_sub_array_2d mask (np.map2d post g))
  = Ok (np.map2d post g) ->
  aa.sub_shape_2d mask = (ny, nx) ->
  nearly_zero_rows g ->
  (forall v, v == 0 -> post v == c) ->
  constant_array mask c (ny * nx) (aa.array_from_sub_array_2d mask (np.map2d post g)).
Proof.
  intros H2d Hshape Hzero Hpost. repeat split.
  - unfold aa.array_in_2d, aa.in_2d, aa.array_from_sub_array_2d in H2d.
    cbn [aa.array_mask aa.sub_array_1d] in H2d. rewrite Hshape in H2d.
    cbn [fst snd] in H2d. cbn.
    destruct (Nat.eqb_spec (length (concat (np.map2d post g))) (ny * nx))
      as [Hlen | Hlen]; [exact Hlen | discriminate].
  - cbn. apply Forall_concat. unfold np.map2d. apply Forall_map.
    eapply Forall_impl; [| exact Hzero]. cbn. intros row Hrow.
    apply Forall_map. eapply Forall_impl; [| exact Hrow]. exact Hpost.
Qed.

Lemma zero_deflections (grid : aa.Grid) (ny nx : nat) :
  zero_rows (Galaxy.component_x
               (aa.reshape (ny, nx) (np.full2 (aa.shape0 grid) 0)))
  /\ zero_rows (Galaxy.component_y
                  (aa.reshape (ny, nx) (np.full2 (aa.shape0 grid) 0))).
Proof.
  assert (Hrows : Forall (Forall (fun p : Q * Q => p = (0, 0)))
                    (aa.reshape (ny, nx) (np.full2 (aa.shape0 grid) 0)))
    by (apply rows_within; apply full2_is_zero).
  split; unfold zero_rows, Galaxy.component_x, Galaxy.component_y;
    apply Forall_map; (eapply Forall_impl; [| exact Hrows]); cbn; intros row Hrow;
    apply Forall_map; (eapply Forall_impl; [| exact Hrow]); cbn; intros p ->;
    reflexivity.
Qed.

(** Without mass profiles the Jacobian is the identity at every pixel. *)
Lemma jacobian_without_mass (self : Galaxy.t) (grid : aa.Grid) (ny nx : nat) :
  aa.sub_shape_2d (aa.grid_mask grid) = (ny, nx) ->
  aa.shape0 grid = (ny * nx)%nat ->
  (2 <= ny)%nat ->
  (2 <= nx)%nat ->
  Galaxy.has_mass_profile self = false ->
  exists a11 a12 a21 a22,
    Galaxy.jacobian_from_grid self grid = Ok ((a11, a12), (a21, a22))
    /\ constant_array (aa.grid_mask grid) 1 (ny * nx) a11
    /\ constant_array (aa.grid_mask grid) 0 (ny * nx) a12
    /\ constant_array (aa.grid_mask grid) 0 (ny * nx) a21
    /\ constant_array (aa.grid_mask grid) 1 (ny * nx) a22.
Proof.
  intros Hshape Hshape0 Hny Hnx Hnone. apply no_mass_profile in Hnone.
  assert (Hdeflections :
            Galaxy.deflections_from_grid self grid
            = Ok (aa.grid_from_sub_grid_1d (aa.grid_mask grid)
                    (np.full2 (aa.shape0 grid) 0))).
  { unfold Galaxy.deflections_from_grid. rewrite Hnone. reflexivity. }
  set (alpha := aa.reshape (ny, nx) (np.full2 (aa.shape0 grid) 0)).
  set (g2 := aa.reshape (ny, nx) (aa.sub_grid_1d grid)).
  assert (Hflat : length (np.full2 (aa.shape0 grid) 0) = (ny * nx)%nat)
    by (rewrite <- Hshape0; apply full2_is_zero).
  assert (Halpha : aa.grid_in_2d (aa.grid_from_sub_grid_1d (aa.grid_mask grid)
                                    (np.full2 (aa.shape0 grid) 0)) = Ok alpha).
  { unfold aa.grid_in_2d, aa.in_2d, aa.grid_from_sub_grid_1d.
    cbn [aa.grid_mask aa.sub_grid_1d]. rewrite Hshape. cbn [fst snd].
    rewrite Hflat, Nat.eqb_refl. reflexivity. }
  assert (Hg2 : aa.grid_in_2d grid = Ok g2).
  { unfold aa.grid_in_2d, aa.in_2d. rewrite Hshape. cbn [fst snd].
    unfold aa.shape0 in Hshape0. rewrite Hshape0, Nat.eqb_refl. reflexivity. }
  assert (Harows : Forall (fun row => length row = nx) alpha)
    by (apply rows_reshape; exact Hflat).
  assert (Hgrows : Forall (fun row => length row = nx) g2)
    by (apply rows_reshape; exact Hshape0).
  assert (Halen : length alpha = ny) by apply length_reshape.
  assert (Hglen : length g2 = ny) by apply length_reshape.
  destruct (x_of_first_row_returns g2 nx) as [xs [Hxs Hxlen]]; [lia | exact Hgrows |].
  destruct (y_of_first_column_returns g2 nx) as [ys [Hys Hylen]];
    [lia | exact Hgrows |].
  rewrite Hglen in Hylen.
  assert (Hxrows : Forall (fun row => length row = nx) (Galaxy.component_x alpha))
    by (apply rows_of_component; exact Harows).
  assert (Hyrows : Forall (fun row => length row = nx) (Galaxy.component_y alpha))
    by (apply rows_of_component; exact Harows).
  assert (Hxlength : length (Galaxy.component_x alpha) = ny)
    by (unfold Galaxy.component_x; rewrite length_map; exact Halen).
  assert (Hylength : length (Galaxy.component_y alpha) = ny)
    by (unfold Galaxy.component_y; rewrite length_map; exact Halen).
  destruct (zero_deflections grid ny nx) as [Hzx Hzy]. fold alpha in Hzx, Hzy.
  destruct (axis1_entries (aa.grid_mask grid) (Galaxy.component_x alpha) xs
              (fun v => 1 - v) ny nx Hshape Hxlength Hxrows Hxlen Hnx)
    as [g11 [Hg11 [H11 _]]].
  destruct (axis0_entries (aa.grid_mask grid) (Galaxy.component_x alpha) ys
              (fun v => (-1) * v) ny nx Hshape Hxlength Hxrows Hylen Hny)
    as [g12 [Hg12 [H12 _]]].
  destruct (axis1_entries (aa.grid_mask grid) (Galaxy.component_y alpha) xs
              (fun v => (-1) * v) ny nx Hshape Hylength Hyrows Hxlen Hnx)
    as [g21 [Hg21 [H21 _]]].
  destruct (axis0_entries (aa.grid_mask grid) (Galaxy.component_y alpha) ys
              (fun v => 1 - v) ny nx Hshape Hylength Hyrows Hylen Hny)
    as [g22 [Hg22 [H22 _]]].
  do 4 eexists. split.
  { unfold Galaxy.jacobian_from_grid, Galaxy.jacobian_a11_from_grid,
      Galaxy.jacobian_a12_from_grid, Galaxy.jacobian_a21_from_grid,
      Galaxy.jacobian_a22_from_grid.
    rewrite Hdeflections. cbn [bind]. rewrite Halpha, Hg2. cbn [bind].
    rewrite Hxs, Hys. cbn [bind]. rewrite Hg11, Hg12, Hg21, Hg22. cbn [bind].
    reflexivity. }
  split; [| split; [| split]].
  - apply constant_of_rows; [exact H11 | exact Hshape | | intros v ->; ring].
    eapply gradient_axis1_of_zeros; eassumption.
  - apply constant_of_rows; [exact H12 | exact Hshape | | intros v ->; ring].
    eapply gradient_axis0_of_zeros; eassumption.
  - apply constant_of_rows; [exact H21 | exact Hshape | | intros v ->; ring].
    eapply gradient_axis1_of_zeros; eassumption.
  - apply constant_of_rows; [exact H22 | exact Hshape | | intros v ->; ring].
    eapply gradient_axis0_of_zeros; eassumption.
Qed.

(** Without mass profiles both eigenvalues are 1 at every pixel, provided
    the square root of zero is zero. *)
Lemma eigen_values_without_mass (self : Galaxy.t) (grid : aa.Grid) (ny nx : nat) :
  aa.sub_shape_2d (aa.grid_mask grid) = (ny, nx) ->
  aa.shape0 grid = (ny * nx)%nat ->
  (2 <= ny)%nat ->
  (2 <= nx)%nat ->
  Galaxy.has_mass_profile self = false ->
  (forall v, v == 0 -> sqrt v == 0) ->
  exists tangential radial,
    Galaxy.tangential_eigen_value_from_grid self grid = Ok tangential
    /\ constant_array (aa.grid_mask grid) 1 (ny * nx) tangential
    /\ Galaxy.radial_eigen_value_from_grid self grid = Ok radial
    /\ constant_array (aa.grid_mask grid) 1 (ny * nx) radial.
Proof.
  intros Hshape Hshape0 Hny Hnx Hnone Hsqrt.
  destruct (jacobian_without_mass self grid ny nx Hshape Hshape0 Hny Hnx Hnone)
    as [a11 [a12 [a21 [a22 [Hjacobian [C11 [C12 [C21 C22]]]]]]]].
  set (mask := aa.grid_mask grid) in *. set (n := (ny * nx)%nat) in *.
  assert (Hconvergence :
            exists convergence,
              Galaxy.convergence_via_jacobian_from_grid self grid = Ok convergence
              /\ constant_array mask 0 n convergence).
  { unfold Galaxy.convergence_via_jacobian_from_grid.
    rewrite Hjacobian. cbn [bind fst snd].
    destruct (constant_zip mask Qplus 1 1 2 n a11 a22 C11 C22) as [s [Hs Cs]];
      [intros u v -> ->; reflexivity |].
    rewrite Hs. cbn [bind]. eexists. split; [reflexivity |].
    apply constant_remapped. apply (constant_map mask _ 2 0); [exact Cs |].
    intros v ->. reflexivity. }
  assert (Hshear :
            exists shear,
              Galaxy.shear_via_jacobian_from_grid self grid = Ok shear
              /\ constant_array mask 0 n shear).
  { unfold Galaxy.shear_via_jacobian_from_grid.
    rewrite Hjacobian. cbn [bind fst snd].
    destruct (constant_zip mask Qminus 1 1 0 n a22 a11 C22 C11) as [d [Hd Cd]];
      [intros u v -> ->; reflexivity |].
    rewrite Hd. cbn [bind].
    destruct (constant_zip mask Qplus 0 0 0 n a12 a21 C12 C21) as [s [Hs Cs]];
      [intros u v -> ->; reflexivity |].
    rewrite Hs. cbn [bind].
    assert (C1 : constant_array mask 0 n
                   (aa.map_array (fun v => v ^ 2)
                      (aa.map_array (fun v => (1 # 2) * v) d))).
    { apply (constant_map mask _ 0 0); [| intros v ->; reflexivity].
      apply (constant_map mask _ 0 0); [exact Cd | intros v ->; reflexivity]. }
    assert (C2 : constant_array mask 0 n
                   (aa.map_array (fun v => v ^ 2)
                      (aa.map_array (fun v => (- (1 # 2)) * v) s))).
    { apply (constant_map mask _ 0 0); [| intros v ->; reflexivity].
      apply (constant_map mask _ 0 0); [exact Cs | intros v ->; reflexivity]. }
    destruct (constant_zip mask Qplus 0 0 0 n _ _ C1 C2) as [q [Hq Cq]];
      [intros u v -> ->; reflexivity |].
    rewrite Hq. cbn [bind]. eexists. split; [reflexivity |].
    apply constant_remapped. apply (constant_map mask _ 0 0); [exact Cq | exact Hsqrt]. }
  destruct Hconvergence as [convergence [Hconvergence Cconvergence]].
  destruct Hshear as [shear [Hshear Cshear]].
  assert (Cone : constant_array mask 1 n (aa.map_array (fun v => 1 - v) convergence))
    by (apply (constant_map mask _ 0 1); [exact Cconvergence | intros v ->; reflexivity]).
  destruct (constant_zip mask Qminus 1 0 1 n _ shear Cone Cshear) as [t [Ht Ct]];
    [intros u v -> ->; reflexivity |].
  destruct (constant_zip mask Qplus 1 0 1 n _ shear Cone Cshear) as [r [Hr Cr]];
    [intros u v -> ->; reflexivity |].
  exists (aa.array_from_sub_array_1d mask (aa.sub_array_1d t)), r.
  unfold Galaxy.tangential_eigen_value_from_grid, Galaxy.radial_eigen_value_from_grid.
  rewrite Hconvergence, Hshear. cbn [bind]. rewrite Ht, Hr. cbn [bind].
  split; [reflexivity |]. split; [apply constant_remapped; exact Ct |].
  split; [reflexivity | exact Cr].
Qed.

Lemma positive_layout (mask : aa.Mask) (a : aa.Array) (ny nx : nat) :
  aa.sub_shape_2d mask = (ny, nx) ->
  constant_array mask 1 (ny * nx) a ->
  exists e2, aa.array_in_2d a = Ok e2 /\ Forall (Forall (fun v => 0 < v)) e2.
Proof.
  intros Hshape [Hmask [Hlen Hall]].
  unfold aa.array_in_2d, aa.in_2d. rewrite Hmask, Hshape. cbn [fst snd].
  rewrite Hlen, Nat.eqb_refl. eexists. split; [reflexivity |].
  apply rows_within. eapply Forall_impl; [| exact Hall].
  cbn. intros v ->. reflexivity.
Qed.

(** For a galaxy without mass profiles, on a grid of at least two rows and
    two columns, with a square root that sends zero to zero and a tracer
    that finds no contour at level 0 in a field of positive values, both
    critical curves and both caustics are the empty list. *)
Lemma critical_curves_without_mass (self : Galaxy.t) (grid : aa.Grid) (ny nx : nat) :
  aa.sub_shape_2d (aa.grid_mask grid) = (ny, nx) ->
  aa.shape0 grid = (ny * nx)%nat ->
  (2 <= ny)%nat ->
  (2 <= nx)%nat ->
  Galaxy.has_mass_profile self = false ->
  (forall v, v == 0 -> sqrt v == 0) ->
  (forall field, Forall (Forall (fun v => 0 < v)) field -> find_contours field 0 = []) ->
  Galaxy.tangential_critical_curve_from_grid self grid = Ok Galaxy.EmptyList
  /\ Galaxy.radial_critical_curve_from_grid self grid = Ok Galaxy.EmptyList
  /\ Galaxy.tangential_caustic_from_grid self grid = Ok Galaxy.EmptyList
  /\ Galaxy.radial_caustic_from_grid self grid = Ok Galaxy.EmptyList.
Proof.
  intros Hshape Hshape0 Hny Hnx Hnone Hsqrt Htracer.
  destruct (eigen_values_without_mass self grid ny nx Hshape Hshape0 Hny Hnx Hnone
              Hsqrt) as [tangential [radial [Ht [Ct [Hr Cr]]]]].
  destruct (positive_layout _ _ _ _ Hshape Ct) as [t2 [Ht2 Hpositive_t]].
  destruct (positive_layout _ _ _ _ Hshape Cr) as [r2 [Hr2 Hpositive_r]].
  assert (Htangential :
            Galaxy.tangential_critical_curve_from_grid self grid = Ok Galaxy.EmptyList).
  { unfold Galaxy.tangential_critical_curve_from_grid.
    rewrite Ht. cbn [bind]. rewrite Ht2. cbn [bind].
    rewrite (Htracer t2 Hpositive_t). reflexivity. }
  assert (Hradial :
            Galaxy.radial_critical_curve_from_grid self grid = Ok Galaxy.EmptyList).
  { unfold Galaxy.radial_critical_curve_from_grid.
    rewrite Hr. cbn [bind]. rewrite Hr2. cbn [bind].
    rewrite (Htracer r2 Hpositive_r). reflexivity. }
  split; [exact Htangential |]. split; [exact Hradial |].
  unfold Galaxy.tangential_caustic_from_grid, Galaxy.radial_caustic_from_grid.
  rewrite Htangential, Hradial. split; reflexivity.
Qed.

End NoMass.

(** ** The theorems at concrete inputs *)

Lemma Galaxy_init_pixelization_needs_regularization_witness :
  Galaxy.kwargs_valid [("light", VProfile Examples.sersic)] = true
  /\ exists msg,
      Galaxy.__init__ 0 (VFloat (1 # 2)) (VPixelization Examples.rectangular) VNone
        VNone [("light", VProfile Examples.sersic)]
      = Raise (GalaxyException msg).
Proof.
  split; [reflexivity |].
  destruct (Galaxy_init_pixelization_needs_regularization 0 (VFloat (1 # 2))
              (VPixelization Examples.rectangular) VNone VNone
              [("light", VProfile Examples.sersic)]) as [_ [_ Hvalid]].
  destruct (Hvalid eq_refl) as [Hraises _].
  apply Hraises; reflexivity.
Defined.

Lemma Galaxy_eq_raises_on_operand_without_attributes_witness :
  Galaxy.isinstance_Galaxy (Galaxy.OValue VNone) = false
  /\ In "pixelization" Galaxy.compared_attributes
  /\ Galaxy.getattr_object (Galaxy.OValue VNone) "pixelization"
     = Raise (AttributeError "pixelization")
  /\ exists name,
      Galaxy.__eq__ Examples.lens_galaxy (Galaxy.OValue VNone)
      = Raise (AttributeError name).
Proof.
  split; [reflexivity |].
  split; [left; reflexivity |].
  split; [reflexivity |].
  apply (Galaxy_eq_raises_on_operand_without_attributes Examples.lens_galaxy
           (Galaxy.OValue VNone) eq_refl).
  exists "pixelization". split; [left; reflexivity | reflexivity].
Defined.

Lemma zero_profiles_give_fields_of_zeros_witness :
  Galaxy.has_light_profile Examples.galaxy_without_profiles = false
  /\ Galaxy.has_mass_profile Examples.galaxy_without_profiles = false
  /\ (exists image,
         Galaxy.profile_image_from_grid Examples.galaxy_without_profiles
           Examples.grid_3x3 = Ok image
         /\ length (aa.sub_array_1d image) = aa.shape0 Examples.grid_3x3
         /\ Forall (fun v => v = 0) (aa.sub_array_1d image))
  /\ (exists deflections,
         Galaxy.deflections_from_grid Examples.galaxy_without_profiles
           Examples.grid_3x3 = Ok deflections
         /\ length (aa.sub_grid_1d deflections) = aa.shape0 Examples.grid_3x3
         /\ Forall (fun v => v = (0, 0)) (aa.sub_grid_1d deflections)).
Proof.
  split; [reflexivity |]. split; [reflexivity |].
  destruct (zero_profiles_give_fields_of_zeros Examples.galaxy_without_profiles
              Examples.grid_3x3) as [Hlight Hmass].
  split.
  - apply Hlight. reflexivity.
  - apply Hmass. reflexivity.
Defined.

Lemma undefined_quantities_return_None_witness :
  Galaxy.has_mass_profile Examples.galaxy_without_profiles = false
  /\ Galaxy.has_light_profile Examples.galaxy_without_profiles = false
  /\ Galaxy.mass_within_circle_in_units Examples.galaxy_without_profiles 1 VNone
       "solMass" Planck15 [] = Ok VNone
  /\ Galaxy.luminosity_within_circle_in_units Examples.galaxy_without_profiles 1
       "eps" VNone Planck15 [] = Ok VNone.
Proof.
  split; [reflexivity |]. split; [reflexivity |].
  destruct (@undefined_quantities_return_None Examples.collaborators)
    as [Hmass [Hlight _]].
  split.
  - apply (Hmass Examples.galaxy_without_profiles eq_refl 1 VNone "solMass" Planck15 []).
  - apply (Hlight Examples.galaxy_without_profiles eq_refl 1 "eps" VNone Planck15 []).
Defined.

Lemma contribution_map_is_normalised_witness :
  length [1; 3] = length [1; 2]
  /\ [1; 2] <> []
  /\ Forall (fun x => 0 < x) [1; 3]
  /\ Forall (fun x => 0 < x) [1; 2]
  /\ Forall (fun x => 0 < x + contribution_factor Examples.unit_factor) [1; 3]
  /\ exists (contribution_map ratios : list Q) (m top : Q),
      HyperGalaxy.contribution_map_from_hyper_images Examples.unit_factor [1; 3] [1; 2]
      = Ok contribution_map
      /\ ratios = np.zip_with Qdiv [1; 2]
                    (np.add_scalar [1; 3] (contribution_factor Examples.unit_factor))
      /\ np.max ratios = Ok m
      /\ contribution_map = map (fun c => c / m) ratios
      /\ length contribution_map = length [1; 2]
      /\ Forall (fun x => 0 <= x /\ x <= 1) contribution_map
      /\ np.max contribution_map = Ok top
      /\ top == 1.
Proof.
  assert (Hmodel : Forall (fun x => 0 < x) [1; 3])
    by (repeat constructor).
  assert (Hgalaxy : Forall (fun x => 0 < x) [1; 2])
    by (repeat constructor).
  assert (Hdenominators :
            Forall (fun x => 0 < x + contribution_factor Examples.unit_factor) [1; 3])
    by (repeat constructor).
  assert (Hnonempty : [1; 2] <> []) by discriminate.
  split; [reflexivity |].
  split; [exact Hnonempty |].
  split; [exact Hmodel |].
  split; [exact Hgalaxy |].
  split; [exact Hdenominators |].
  exact (contribution_map_is_normalised Examples.unit_factor [1; 3] [1; 2]
           eq_refl Hnonempty Hmodel Hgalaxy Hdenominators).
Defined.

Lemma critical_curves_use_first_contour_witness :
  exists (eigen_values : aa.Array) (e2 : list (list Q)),
    Galaxy.tangential_eigen_value_from_grid Examples.galaxy_without_profiles Examples.grid_3x3
    = Ok eigen_values
    /\ aa.array_in_2d eigen_values = Ok e2
    /\ find_contours e2 0 = []
    /\ Galaxy.tangential_critical_curve_from_grid Examples.galaxy_without_profiles
         Examples.grid_3x3 = Ok Galaxy.EmptyList.
Proof.
  destruct (Galaxy.tangential_eigen_value_from_grid Examples.galaxy_without_profiles
              Examples.grid_3x3) as [eigen_values | e] eqn:Heigen;
    [| vm_compute in Heigen; discriminate].
  destruct (aa.array_in_2d eigen_values) as [e2 | e] eqn:H2d;
    [| vm_compute in Heigen; injection Heigen as <-; vm_compute in H2d; discriminate].
  assert (Hnone : find_contours e2 0 = []).
  { vm_compute in Heigen. injection Heigen as <-.
    vm_compute in H2d. injection H2d as <-. reflexivity. }
  exists eigen_values, e2.
  split; [reflexivity |]. split; [exact H2d |]. split; [exact Hnone |].
  destruct (critical_curves_use_first_contour Examples.galaxy_without_profiles Examples.grid_3x3)
    as [Htangential _].
  destruct (Htangential eigen_values e2 Heigen H2d) as [Hempty _].
  exact (Hempty Hnone).
Defined.

Lemma caustics_are_deflected_critical_curves_witness :
  exists curve deflections caustic : aa.Grid,
    Galaxy.tangential_critical_curve_from_grid Examples.dense_galaxy
      Examples.grid_3x3 = Ok (Galaxy.CurveGrid curve)
    /\ aa.shape0 curve <> 0%nat
    /\ Galaxy.deflections_from_grid Examples.dense_galaxy curve = Ok deflections
    /\ length (aa.sub_grid_1d deflections) = aa.shape0 curve
    /\ Galaxy.tangential_caustic_from_grid Examples.dense_galaxy Examples.grid_3x3
       = Ok (Galaxy.CurveGrid caustic)
    /\ aa.shape0 caustic = aa.shape0 curve
    /\ nth 8 (aa.sub_grid_1d curve) (0, 0) = (-2, 2)
    /\ fst (nth 8 (aa.sub_grid_1d deflections) (0, 0)) == -4
    /\ snd (nth 8 (aa.sub_grid_1d deflections) (0, 0)) == 4
    /\ fst (nth 8 (aa.sub_grid_1d caustic) (0, 0)) == 2
    /\ snd (nth 8 (aa.sub_grid_1d caustic) (0, 0)) == -2.
Proof.
  destruct (Galaxy.tangential_critical_curve_from_grid Examples.dense_galaxy
              Examples.grid_3x3) as [[| curve] | e] eqn:Hcurve;
    [vm_compute in Hcurve; discriminate | | vm_compute in Hcurve; discriminate].
  assert (Hshape : aa.shape0 curve = 9%nat).
  { vm_compute in Hcurve. injection Hcurve as <-. reflexivity. }
  destruct (Galaxy.deflections_from_grid Examples.dense_galaxy curve)
    as [deflections | e] eqn:Hdeflections;
    [| vm_compute in Hcurve; injection Hcurve as <-;
       vm_compute in Hdeflections; discriminate].
  assert (Hlength : length (aa.sub_grid_1d deflections) = aa.shape0 curve).
  { vm_compute in Hcurve. injection Hcurve as <-.
    vm_compute in Hdeflections. injection Hdeflections as <-. reflexivity. }
  assert (Hnonempty : aa.shape0 curve <> 0%nat) by (rewrite Hshape; discriminate).
  destruct (caustics_are_deflected_critical_curves Examples.dense_galaxy
              Examples.grid_3x3) as [Htangential _].
  destruct (Htangential (Galaxy.CurveGrid curve) Hcurve) as [_ Hcaustic].
  destruct (Hcaustic curve deflections eq_refl Hnonempty Hdeflections Hlength)
    as [caustic [Hreturned [Hsize Hpoints]]].
  exists curve, deflections, caustic.
  split; [reflexivity |]. split; [exact Hnonempty |]. split; [exact Hdeflections |].
  split; [exact Hlength |]. split; [exact Hreturned |]. split; [exact Hsize |].
  specialize (Hpoints 8%nat ltac:(rewrite Hshape; lia)). cbn zeta in Hpoints.
  rewrite Hpoints.
  vm_compute in Hcurve. injection Hcurve as <-.
  vm_compute in Hdeflections. injection Hdeflections as <-.
  repeat split.
Defined.

Lemma spaced_at_centre_of_wide_grid :
  spaced_at (coordinates_along_x Examples.grid_wide 3) 1
  /\ spaced_at (coordinates_along_y Examples.grid_wide 3 3) 1.
Proof.
  split; (split; [discriminate |]); (split; [discriminate |]); intros _ _;
    unfold regular_at; cbn; repeat split; intros Hzero; discriminate Hzero.
Qed.

Lemma jacobian_entries_are_coordinate_gradients_witness :
  aa.sub_shape_2d (aa.grid_mask Examples.grid_wide) = (3, 3)%nat
  /\ aa.shape0 Examples.grid_wide = (3 * 3)%nat
  /\ (2 <= 3)%nat
  /\ (forall p, In (VProfile p) (Galaxy.mass_profiles Examples.lens_galaxy) ->
                length (MassProfile_deflections_from_grid p Examples.grid_wide)
                = aa.shape0 Examples.grid_wide)
  /\ spaced_at (coordinates_along_x Examples.grid_wide 3) 1
  /\ spaced_at (coordinates_along_y Examples.grid_wide 3 3) 1
  /\ coordinates_along_x Examples.grid_wide 3 = [-2; 0; 2]
  /\ coordinates_along_y Examples.grid_wide 3 3 = [2; 0; -2]
  /\ exists a11 a12 a21 a22 : aa.Array,
      Galaxy.jacobian_from_grid Examples.lens_galaxy Examples.grid_wide
      = Ok ((a11, a12), (a21, a22))
      /\ value_at a11 4 == 1 # 2
      /\ value_at a12 4 == 0
      /\ value_at a21 4 == 0
      /\ value_at a22 4 == 1 # 2.
Proof.
  assert (Hprofiles :
            forall p, In (VProfile p) (Galaxy.mass_profiles Examples.lens_galaxy) ->
                      length (MassProfile_deflections_from_grid p Examples.grid_wide)
                      = aa.shape0 Examples.grid_wide).
  { intros p [Hp | []]. injection Hp as <-. reflexivity. }
  assert (Htwo : (2 <= 3)%nat) by lia.
  destruct spaced_at_centre_of_wide_grid as [Hx Hy].
  split; [reflexivity |]. split; [reflexivity |]. split; [exact Htwo |].
  split; [exact Hprofiles |]. split; [exact Hx |]. split; [exact Hy |].
  split; [reflexivity |]. split; [reflexivity |].
  destruct (jacobian_entries_are_coordinate_gradients Examples.lens_galaxy
              Examples.grid_wide 3 3 eq_refl eq_refl Htwo Htwo Hprofiles)
    as [deflections [a11 [a12 [a21 [a22
          [Hdeflections [Hjacobian [_ [_ [_ [_ Hentries]]]]]]]]]]].
  exists a11, a12, a21, a22. split; [exact Hjacobian |].
  vm_compute in Hdeflections. injection Hdeflections as <-.
  destruct (Hentries 1%nat 1%nat ltac:(lia) ltac:(lia) Hx Hy)
    as [E11 [E12 [E21 E22]]].
  split; [rewrite E11; reflexivity |].
  split; [rewrite E12; reflexivity |].
  split; [rewrite E21; reflexivity | rewrite E22; reflexivity].
Defined.

(** * Further properties of the code *)

(** ** Attribute values compared with themselves *)

Section ValueEquality.

(** Induction on attribute values, lists included. *)
Lemma Value_induction (P : Value -> Prop) :
  (forall v, (forall l, v <> VList l) -> P v) ->
  (forall l, Forall P l -> P (VList l)) ->
  forall v, P v.
Proof.
  intros Hatom Hlist. fix IH 1. intros v.
  destruct v as [| b | n | x | s | p | p | r | h | l];
    try (apply Hatom; intros l'; discriminate).
  apply Hlist. induction l as [| x l IHl]; constructor; [apply IH | exact IHl].
Qed.

Lemma list_eqb_refl {A : Type} (eqb : A -> A -> bool) (l : list A) :
  (forall a, eqb a a = true) -> list_eqb eqb l l = true.
Proof.
  intros Hrefl. induction l as [| a l IH]; cbn; [reflexivity |].
  rewrite Hrefl, IH. reflexivity.
Qed.

Lemma Qeq_bool_refl (x : Q) : Qeq_bool x x = true.
Proof.
  apply Qeq_bool_iff. reflexivity.
Qed.

Lemma param_eqb_refl (a : string * Q) : param_eqb a a = true.
Proof.
  unfold param_eqb. rewrite String.eqb_refl, Qeq_bool_refl. reflexivity.
Qed.

(** With rationals for floats there is no NaN, and every value is equal to
    itself. *)
Lemma value_eqb_refl (v : Value) : value_eqb v v = true.
Proof.
  induction v as [v Hatom | l IH] using Value_induction.
  - destruct v as [| b | n | x | s | p | p | r | h | l]; cbn.
    + reflexivity.
    + destruct b; reflexivity.
    + apply Qeq_bool_refl.
    + apply Qeq_bool_refl.
    + apply String.eqb_refl.
    + unfold Profile_eqb.
      rewrite String.eqb_refl, !Bool.eqb_reflx, (list_eqb_refl _ _ param_eqb_refl).
      reflexivity.
    + unfold Pixelization_eqb.
      rewrite String.eqb_refl, (list_eqb_refl _ _ param_eqb_refl). reflexivity.
    + unfold Regularization_eqb.
      rewrite String.eqb_refl, (list_eqb_refl _ _ param_eqb_refl). reflexivity.
    + rewrite !Qeq_bool_refl. reflexivity.
    + exfalso. apply (Hatom l). reflexivity.
  - cbn. induction IH as [| x l Hx _ IHl]; [reflexivity |].
    rewrite Hx. exact IHl.
Qed.

End ValueEquality.

(** ** What the constructor leaves in the dictionary *)

Section Constructor.

Lemma dict_set_new (d : dict) (k : string) (v : Value) :
  ~ In k (map fst d) -> dict_set d k v = d ++ [(k, v)].
Proof.
  induction d as [| [k' v'] d IH]; intros Hnew; cbn.
  - reflexivity.
  - cbn in Hnew. destruct (String.eqb_spec k' k) as [-> | _]; [tauto |].
    rewrite IH by tauto. reflexivity.
Qed.

Lemma setattr_items_appends (kwargs : list (string * Value)) :
  NoDup (map fst kwargs) ->
  Galaxy.kwargs_valid kwargs = true ->
  forall d,
    (forall name, In name (map fst kwargs) -> ~ In name (map fst d)) ->
    Galaxy.setattr_items (Galaxy.mk d) kwargs = Ok (Galaxy.mk (d ++ kwargs)).
Proof.
  induction kwargs as [| [k v] kwargs IH]; intros Hnodup Hvalid d Hfresh.
  - cbn. rewrite app_nil_r. reflexivity.
  - cbn in Hnodup. inversion Hnodup as [| k0 ks Hk Hnodup']; subst.
    apply kwargs_valid_cons in Hvalid as [Hname Hvalid].
    cbn [Galaxy.setattr_items]. rewrite setattr_not_property by exact Hname.
    cbn [bind Galaxy.__dict__].
    rewrite dict_set_new by (apply Hfresh; left; reflexivity).
    rewrite IH; [rewrite <- app_assoc; reflexivity | exact Hnodup' | exact Hvalid |].
    intros name Hin. rewrite map_app, in_app_iff. cbn.
    intros [Hd | [<- | []]].
    + apply (Hfresh name); [right; exact Hin | exact Hd].
    + contradiction.
Qed.

(** The dictionary of a constructed galaxy, in insertion order. *)
Lemma Galaxy_init_dict (fresh_id : Z)
  (redshift pixelization regularization hyper_galaxy : Value)
  (kwargs : list (string * Value)) :
  keywords_ok kwargs ->
  is_None pixelization = is_None regularization ->
  Galaxy.__init__ fresh_id redshift pixelization regularization hyper_galaxy kwargs
  = Ok (Galaxy.mk
          ([ ("id", VInt fresh_id); ("redshift", redshift);
             ("hyper_model_image_1d", VNone); ("hyper_galaxy_image_1d", VNone);
             ("binned_hyper_galaxy_image_1d", VNone) ]
           ++ kwargs
           ++ [ ("pixelization", pixelization); ("regularization", regularization);
                ("hyper_galaxy", hyper_galaxy) ])).
Proof.
  intros [Hnodup [Hvalid Hreserved]] Hboth.
  assert (Hfresh : forall name, In name constructor_attributes ->
                                ~ In name (map fst kwargs))
    by (intros name Hin Hkw; exact (Hreserved name Hkw Hin)).
  unfold Galaxy.__init__, Galaxy.ModelObject___init__.
  rewrite setattr_not_property by reflexivity. cbn [bind].
  rewrite setattr_not_property by reflexivity. cbn [bind].
  rewrite setattr_not_property by reflexivity. cbn [bind].
  rewrite setattr_not_property by reflexivity. cbn [bind].
  cbn [Galaxy.__dict__ dict_set String.eqb Ascii.eqb Bool.eqb].
  rewrite setattr_items_appends; [| exact Hnodup | exact Hvalid |].
  2:{ intros name Hin Hd. apply (Hreserved name Hin).
      unfold constructor_attributes. cbn in Hd |- *. tauto. }
  cbn [bind].
  rewrite setattr_not_property by reflexivity. cbn [bind Galaxy.__dict__].
  rewrite dict_set_new.
  2:{ rewrite map_app, in_app_iff. cbn. intros [Hd | Hkw].
      - repeat (destruct Hd as [Hd | Hd]; [discriminate Hd |]). exact Hd.
      - apply (Hfresh "pixelization"); [cbn; tauto | exact Hkw]. }
  rewrite setattr_not_property by reflexivity. cbn [bind Galaxy.__dict__].
  rewrite dict_set_new.
  2:{ rewrite !map_app, !in_app_iff. cbn. intros [[Hd | Hkw] | Hp].
      - repeat (destruct Hd as [Hd | Hd]; [discriminate Hd |]). exact Hd.
      - apply (Hfresh "regularization"); [cbn; tauto | exact Hkw].
      - destruct Hp as [Hp | []]. discriminate Hp. }
  rewrite Hboth.
  destruct (is_None regularization); cbn [negb andb];
    rewrite setattr_not_property by reflexivity; cbn [Galaxy.__dict__];
    (rewrite dict_set_new;
     [ rewrite <- !app_assoc; reflexivity
     | rewrite !map_app, !in_app_iff; cbn; intros [[[Hd | Hkw] | Hp] | Hr];
       [ repeat (destruct Hd as [Hd | Hd]; [discriminate Hd |]); exact Hd
       | apply (Hfresh "hyper_galaxy"); [cbn; tauto | exact Hkw]
       | destruct Hp as [Hp | []]; discriminate Hp
       | destruct Hr as [Hr | []]; discriminate Hr ] ]).
Qed.

End Constructor.

(** ** Reading a constructed galaxy *)

Section ReadingBack.

Lemma dict_get_app (d1 d2 : dict) (k : string) :
  dict_get (d1 ++ d2) k
  = match dict_get d1 k with
    | Some v => Some v
    | None => dict_get d2 k
    end.
Proof.
  induction d1 as [| [k' v'] d1 IH]; cbn; [reflexivity |].
  destruct (String.eqb k' k); [reflexivity | exact IH].
Qed.

Lemma dict_get_absent (d : dict) (k : string) :
  ~ In k (map fst d) -> dict_get d k = None.
Proof.
  induction d as [| [k' v'] d IH]; cbn; intros Hnot; [reflexivity |].
  destruct (String.eqb_spec k' k) as [-> | _]; [tauto |]. apply IH. tauto.
Qed.

Lemma dict_get_present (d : dict) (k : string) (v : Value) :
  NoDup (map fst d) -> In (k, v) d -> dict_get d k = Some v.
Proof.
  induction d as [| [k' v'] d IH]; cbn; intros Hnodup Hin; [contradiction |].
  inversion Hnodup as [| k0 ks Hk Hnodup']; subst.
  destruct Hin as [Heq | Hin].
  - injection Heq as -> ->. rewrite String.eqb_refl. reflexivity.
  - destruct (String.eqb_spec k' k) as [-> | _].
    + exfalso. apply Hk. apply in_map_iff. exists (k, v). split; [reflexivity | exact Hin].
    + apply IH; assumption.
Qed.

Lemma getattr_not_property (self : Galaxy.t) (name : string) :
  Galaxy.is_property name = false ->
  Galaxy.getattr self name = Galaxy.attribute self name.
Proof.
  unfold Galaxy.is_property, Galaxy.properties. cbn [existsb].
  intros Hname. repeat (apply orb_false_iff in Hname as [?H Hname]).
  unfold Galaxy.getattr.
  repeat match goal with
         | H : String.eqb name ?s = false |- _ => rewrite H; clear H
         end.
  reflexivity.
Qed.

Lemma kwargs_valid_name (kwargs : list (string * Value)) (name : string) :
  Galaxy.kwargs_valid kwargs = true ->
  In name (map fst kwargs) ->
  Galaxy.is_property name = false.
Proof.
  unfold Galaxy.kwargs_valid. rewrite forallb_forall. intros Hvalid Hin.
  apply in_map_iff in Hin as [kv [<- Hkv]].
  apply refused_property. specialize (Hvalid kv Hkv).
  destruct (Galaxy.refused (fst kv)); [discriminate | reflexivity].
Qed.

(** The names that instance assignment refuses are no keyword arguments of
    a call that returns. *)
Example refused_names_are_no_keywords :
  ~ keywords_ok [("__dict__", VInt 3)]
  /\ ~ keywords_ok [("__class__", VInt 3)]
  /\ ~ keywords_ok [("__weakref__", VNone)]
  /\ ~ keywords_ok [("light_profiles", VList [])].
Proof.
  repeat split; intros [_ [Hvalid _]]; discriminate Hvalid.
Qed.

(** X1. Every argument of the constructor can be read back from the
    galaxy: the redshift, the pixelization, the regularization, the
    hyper-galaxy, and each keyword argument under its name. *)
Theorem constructor_arguments_read_back :
  forall (fresh_id : Z) (redshift pixelization regularization hyper_galaxy : Value)
         (kwargs : list (string * Value)),
    keywords_ok kwargs ->
    is_None pixelization = is_None regularization ->
    exists self,
      Galaxy.__init__ fresh_id redshift pixelization regularization hyper_galaxy kwargs
      = Ok self
      /\ Galaxy.getattr self "redshift" = Ok redshift
      /\ Galaxy.getattr self "pixelization" = Ok pixelization
      /\ Galaxy.getattr self "regularization" = Ok regularization
      /\ Galaxy.getattr self "hyper_galaxy" = Ok hyper_galaxy
      /\ forall name val, In (name, val) kwargs -> Galaxy.getattr self name = Ok val.
Proof.
  intros fresh_id redshift pixelization regularization hyper_galaxy kwargs
         Hok Hboth.
  rewrite (Galaxy_init_dict _ _ _ _ _ _ Hok Hboth).
  destruct Hok as [Hnodup [Hvalid Hreserved]].
  assert (Hfresh : forall name, In name constructor_attributes ->
                                dict_get kwargs name = None).
  { intros name Hin. apply dict_get_absent. intros Hkw.
    exact (Hreserved name Hkw Hin). }
  eexists. split; [reflexivity |].
  split; [reflexivity |].
  split.
  { rewrite getattr_not_property by reflexivity.
    unfold Galaxy.attribute. cbn [Galaxy.__dict__].
    rewrite dict_get_app. cbn [dict_get String.eqb Ascii.eqb Bool.eqb].
    rewrite dict_get_app, Hfresh by (cbn; tauto). reflexivity. }
  split.
  { rewrite getattr_not_property by reflexivity.
    unfold Galaxy.attribute. cbn [Galaxy.__dict__].
    rewrite dict_get_app. cbn [dict_get String.eqb Ascii.eqb Bool.eqb].
    rewrite dict_get_app, Hfresh by (cbn; tauto). reflexivity. }
  split.
  { rewrite getattr_not_property by reflexivity.
    unfold Galaxy.attribute. cbn [Galaxy.__dict__].
    rewrite dict_get_app. cbn [dict_get String.eqb Ascii.eqb Bool.eqb].
    rewrite dict_get_app, Hfresh by (cbn; tauto). reflexivity. }
  intros name val Hin.
  assert (Hname : In name (map fst kwargs))
    by (apply in_map_iff; exists (name, val); split; [reflexivity | exact Hin]).
  rewrite getattr_not_property by (eapply kwargs_valid_name; eassumption).
  unfold Galaxy.attribute. cbn [Galaxy.__dict__].
  rewrite dict_get_app.
  assert (Hhead : dict_get
                    [ ("id", VInt fresh_id); ("redshift", redshift);
                      ("hyper_model_image_1d", VNone); ("hyper_galaxy_image_1d", VNone);
                      ("binned_hyper_galaxy_image_1d", VNone) ] name = None).
  { apply dict_get_absent. intros Hd. apply (Hreserved name Hname).
    unfold constructor_attributes. cbn in Hd |- *. tauto. }
  rewrite Hhead, dict_get_app, (dict_get_present kwargs name val Hnodup Hin).
  reflexivity.
Qed.

Lemma keywords_ok_light_and_name :
  keywords_ok [("light", VProfile Examples.sersic); ("name", VStr "lens")].
Proof.
  split; [| split].
  - repeat constructor; cbn; intuition discriminate.
  - reflexivity.
  - intros name Hin. cbn in Hin. unfold constructor_attributes. cbn.
    intuition (subst; discriminate).
Defined.

Lemma constructor_arguments_read_back_witness :
  keywords_ok [("light", VProfile Examples.sersic); ("name", VStr "lens")]
  /\ is_None VNone = is_None VNone
  /\ exists self,
      Galaxy.__init__ 0 (VFloat (1 # 2)) VNone VNone VNone
        [("light", VProfile Examples.sersic); ("name", VStr "lens")] = Ok self
      /\ Galaxy.getattr self "redshift" = Ok (VFloat (1 # 2))
      /\ Galaxy.getattr self "light" = Ok (VProfile Examples.sersic)
      /\ Galaxy.getattr self "name" = Ok (VStr "lens").
Proof.
  split; [exact keywords_ok_light_and_name |]. split; [reflexivity |].
  destruct (constructor_arguments_read_back 0 (VFloat (1 # 2)) VNone VNone VNone
              [("light", VProfile Examples.sersic); ("name", VStr "lens")]
              keywords_ok_light_and_name eq_refl)
    as [self [Hinit [Hredshift [_ [_ [_ Hkwargs]]]]]].
  exists self. split; [exact Hinit |]. split; [exact Hredshift |]. split.
  - apply Hkwargs. left. reflexivity.
  - apply Hkwargs. right. left. reflexivity.
Defined.

End ReadingBack.

(** ** Profiles, switches and equality of constructed galaxies *)

Section ConstructedGalaxies.

Lemma filter_values_app (f : Value -> bool) (d1 d2 : dict) :
  filter f (dict_values (d1 ++ d2))
  = filter f (dict_values d1) ++ filter f (dict_values d2).
Proof.
  unfold dict_values. rewrite map_app. apply filter_app.
Qed.

Lemma profiles_of_constructed_dict (fresh_id : Z)
  (redshift pixelization regularization hyper_galaxy : Value)
  (kwargs : list (string * Value)) (self : Galaxy.t) :
  not_a_profile redshift ->
  not_a_profile pixelization ->
  not_a_profile regularization ->
  not_a_profile hyper_galaxy ->
  self = Galaxy.mk
           ([ ("id", VInt fresh_id); ("redshift", redshift);
              ("hyper_model_image_1d", VNone); ("hyper_galaxy_image_1d", VNone);
              ("binned_hyper_galaxy_image_1d", VNone) ]
            ++ kwargs
            ++ [ ("pixelization", pixelization); ("regularization", regularization);
                 ("hyper_galaxy", hyper_galaxy) ]) ->
  Galaxy.light_profiles self = filter is_light_profile (map snd kwargs)
  /\ Galaxy.mass_profiles self = filter is_mass_profile (map snd kwargs).
Proof.
  intros [Hzl Hzm] [Hpl Hpm] [Hrl Hrm] [Hhl Hhm] ->.
  unfold Galaxy.light_profiles, Galaxy.mass_profiles. cbn [Galaxy.__dict__].
  rewrite !filter_values_app. unfold dict_values. cbn [map snd filter].
  rewrite Hzl, Hpl, Hrl, Hhl, Hzm, Hpm, Hrm, Hhm.
  cbn [is_light_profile is_mass_profile app]. rewrite !app_nil_r.
  split; reflexivity.
Qed.

(** X2. The light profiles and the mass profiles of a constructed galaxy
    are the keyword arguments that are light profiles, respectively mass
    profiles, in the order of the call, when the four named arguments are
    no profiles. *)
Theorem profiles_are_the_keyword_profiles :
  forall (fresh_id : Z) (redshift pixelization regularization hyper_galaxy : Value)
         (kwargs : list (string * Value)),
    keywords_ok kwargs ->
    is_None pixelization = is_None regularization ->
    not_a_profile redshift ->
    not_a_profile pixelization ->
    not_a_profile regularization ->
    not_a_profile hyper_galaxy ->
    exists self,
      Galaxy.__init__ fresh_id redshift pixelization regularization hyper_galaxy kwargs
      = Ok self
      /\ Galaxy.light_profiles self = filter is_light_profile (map snd kwargs)
      /\ Galaxy.mass_profiles self = filter is_mass_profile (map snd kwargs).
Proof.
  intros fresh_id redshift pixelization regularization hyper_galaxy kwargs
         Hok Hboth Hz Hp Hr Hh.
  rewrite (Galaxy_init_dict _ _ _ _ _ _ Hok Hboth).
  eexists. split; [reflexivity |].
  exact (profiles_of_constructed_dict fresh_id redshift pixelization regularization
           hyper_galaxy kwargs _ Hz Hp Hr Hh eq_refl).
Qed.

Lemma keywords_ok_two_profiles :
  keywords_ok [("bulge", VProfile Examples.sersic);
               ("mass", VProfile (Examples.mass_sheet 1));
               ("disk", VProfile Examples.sersic)].
Proof.
  split; [| split].
  - repeat constructor; cbn; intuition discriminate.
  - reflexivity.
  - intros name Hin. cbn in Hin. unfold constructor_attributes. cbn.
    intuition (subst; discriminate).
Defined.

Lemma profiles_are_the_keyword_profiles_witness :
  exists self,
    Galaxy.__init__ 0 (VFloat (1 # 2)) VNone VNone VNone
      [("bulge", VProfile Examples.sersic);
       ("mass", VProfile (Examples.mass_sheet 1));
       ("disk", VProfile Examples.sersic)] = Ok self
    /\ Galaxy.light_profiles self
       = [VProfile Examples.sersic; VProfile Examples.sersic]
    /\ Galaxy.mass_profiles self = [VProfile (Examples.mass_sheet 1)].
Proof.
  exact (profiles_are_the_keyword_profiles 0 (VFloat (1 # 2)) VNone VNone VNone _
           keywords_ok_two_profiles eq_refl
           (conj eq_refl eq_refl) (conj eq_refl eq_refl)
           (conj eq_refl eq_refl) (conj eq_refl eq_refl)).
Defined.

(** What the constructor checks and assigns last, for any keyword
    arguments. *)
Lemma Galaxy_init_guard (fresh_id : Z)
  (redshift pixelization regularization hyper_galaxy : Value)
  (kwargs : list (string * Value)) (self : Galaxy.t) :
  Galaxy.__init__ fresh_id redshift pixelization regularization hyper_galaxy kwargs
  = Ok self ->
  is_None pixelization = is_None regularization
  /\ Galaxy.attribute self "pixelization" = Ok pixelization
  /\ Galaxy.attribute self "regularization" = Ok regularization
  /\ Galaxy.attribute self "hyper_galaxy" = Ok hyper_galaxy.
Proof.
  unfold Galaxy.__init__.
  rewrite setattr_not_property by reflexivity. cbn [bind].
  rewrite setattr_not_property by reflexivity. cbn [bind].
  rewrite setattr_not_property by reflexivity. cbn [bind].
  rewrite setattr_not_property by reflexivity. cbn [bind].
  match goal with
  | |- context [Galaxy.setattr_items ?s kwargs] =>
      destruct (Galaxy.setattr_items s kwargs) as [self1 | e];
      cbn [bind]; [| discriminate]
  end.
  rewrite setattr_not_property by reflexivity. cbn [bind].
  rewrite setattr_not_property by reflexivity. cbn [bind].
  destruct (is_None pixelization), (is_None regularization);
    cbn [negb andb]; try discriminate;
    rewrite setattr_not_property by reflexivity;
    intros Hself; injection Hself as <-;
    unfold Galaxy.attribute; cbn [Galaxy.__dict__];
    (split; [reflexivity |]); repeat split.
  all: try (rewrite !dict_get_set_other by discriminate;
            rewrite dict_get_set_same; reflexivity).
  all: try (rewrite dict_get_set_other by discriminate;
            rewrite dict_get_set_same; reflexivity).
  all: rewrite dict_get_set_same; reflexivity.
Qed.

(** X3. On every galaxy that the constructor returns, whatever the keyword
    arguments, [has_pixelization] and [has_regularization] give the same
    answer, and a galaxy that uses a cluster inversion has a
    regularization. *)
Theorem pixelization_and_regularization_go_together :
  forall (fresh_id : Z) (redshift pixelization regularization hyper_galaxy : Value)
         (kwargs : list (string * Value)) (self : Galaxy.t),
    Galaxy.__init__ fresh_id redshift pixelization regularization hyper_galaxy kwargs
    = Ok self ->
    exists b,
      Galaxy.has_pixelization self = Ok b
      /\ Galaxy.has_regularization self = Ok b
      /\ (Galaxy.uses_cluster_inversion self = Ok true -> b = true).
Proof.
  intros fresh_id redshift pixelization regularization hyper_galaxy kwargs self Hinit.
  destruct (Galaxy_init_guard _ _ _ _ _ _ _ Hinit) as [Hboth [Hp [Hr _]]].
  exists (negb (is_None pixelization)).
  unfold Galaxy.has_pixelization, Galaxy.has_regularization,
    Galaxy.uses_cluster_inversion.
  rewrite Hp, Hr. cbn [bind]. rewrite Hboth.
  split; [reflexivity |]. split; [reflexivity |].
  rewrite <- Hboth. destruct pixelization; cbn; congruence.
Qed.

Lemma pixelization_and_regularization_go_together_witness :
  exists self b,
    Galaxy.__init__ 0 (VFloat (1 # 2)) (VPixelization Examples.rectangular)
      (VRegularization (Examples.constant 1)) VNone [] = Ok self
    /\ Galaxy.has_pixelization self = Ok b
    /\ Galaxy.has_regularization self = Ok b.
Proof.
  destruct (Galaxy.__init__ 0 (VFloat (1 # 2)) (VPixelization Examples.rectangular)
              (VRegularization (Examples.constant 1)) VNone [])
    as [self | e] eqn:Hinit; [| vm_compute in Hinit; discriminate].
  destruct (pixelization_and_regularization_go_together _ _ _ _ _ _ self Hinit)
    as [b [Hp [Hr _]]].
  exists self, b. split; [reflexivity |]. split; assumption.
Defined.

(** X4. Whether two constructed galaxies are equal is decided by their
    pixelizations, redshifts, hyper-galaxies and by the profiles among their
    keyword arguments, taken in order: the names of the keyword arguments,
    the keyword arguments that are no profiles, the identities and the
    regularizations take no part. *)
Theorem equality_reads_profiles_in_order :
  forall (id1 id2 : Z) (z1 p1 r1 h1 z2 p2 r2 h2 : Value)
         (kw1 kw2 : list (string * Value)),
    keywords_ok kw1 ->
    keywords_ok kw2 ->
    is_None p1 = is_None r1 ->
    is_None p2 = is_None r2 ->
    not_a_profile z1 -> not_a_profile p1 -> not_a_profile r1 -> not_a_profile h1 ->
    not_a_profile z2 -> not_a_profile p2 -> not_a_profile r2 -> not_a_profile h2 ->
    exists g1 g2,
      Galaxy.__init__ id1 z1 p1 r1 h1 kw1 = Ok g1
      /\ Galaxy.__init__ id2 z2 p2 r2 h2 kw2 = Ok g2
      /\ Galaxy.__eq__ g1 (Galaxy.OGalaxy g2)
         = Ok (value_eqb p1 p2 && value_eqb z1 z2 && value_eqb h1 h2
               && value_eqb (VList (filter is_light_profile (map snd kw1)))
                            (VList (filter is_light_profile (map snd kw2)))
               && value_eqb (VList (filter is_mass_profile (map snd kw1)))
                            (VList (filter is_mass_profile (map snd kw2)))).
Proof.
  intros id1 id2 z1 p1 r1 h1 z2 p2 r2 h2 kw1 kw2 Hok1 Hok2 Hb1 Hb2
         Hz1 Hp1 Hr1 Hh1 Hz2 Hp2 Hr2 Hh2.
  pose proof (Galaxy_init_dict id1 z1 p1 r1 h1 kw1 Hok1 Hb1) as Hg1.
  pose proof (Galaxy_init_dict id2 z2 p2 r2 h2 kw2 Hok2 Hb2) as Hg2.
  match type of Hg1 with _ = Ok ?g => set (g1 := g) in * end.
  match type of Hg2 with _ = Ok ?g => set (g2 := g) in * end.
  destruct (profiles_of_constructed_dict id1 z1 p1 r1 h1 kw1 g1 Hz1 Hp1 Hr1 Hh1
              eq_refl) as [Hl1 Hm1].
  destruct (profiles_of_constructed_dict id2 z2 p2 r2 h2 kw2 g2 Hz2 Hp2 Hr2 Hh2
              eq_refl) as [Hl2 Hm2].
  exists g1, g2. split; [exact Hg1 |]. split; [exact Hg2 |].
  rewrite <- Hl1, <- Hl2, <- Hm1, <- Hm2.
  apply (Galaxy_eq_of_constructed id1 id2 z1 p1 r1 h1 z2 p2 r2 h2 kw1 kw2);
    try assumption.
  - destruct Hok1 as [_ [_ Hreserved]]. intros Hin.
    apply (Hreserved "redshift" Hin). cbn. tauto.
  - destruct Hok2 as [_ [_ Hreserved]]. intros Hin.
    apply (Hreserved "redshift" Hin). cbn. tauto.
Qed.

Lemma keywords_ok_one_light :
  keywords_ok [("light", VProfile Examples.sersic)].
Proof.
  split; [| split].
  - repeat constructor; cbn; intuition discriminate.
  - reflexivity.
  - intros name Hin. cbn in Hin. unfold constructor_attributes. cbn.
    intuition (subst; discriminate).
Defined.

Lemma keywords_ok_bulge_and_name :
  keywords_ok [("name", VStr "lens"); ("bulge", VProfile Examples.sersic)].
Proof.
  split; [| split].
  - repeat constructor; cbn; intuition discriminate.
  - reflexivity.
  - intros name Hin. cbn in Hin. unfold constructor_attributes. cbn.
    intuition (subst; discriminate).
Defined.

Lemma equality_reads_profiles_in_order_witness :
  exists g1 g2,
    Galaxy.__init__ 0 (VFloat (1 # 2)) VNone VNone VNone
      [("light", VProfile Examples.sersic)] = Ok g1
    /\ Galaxy.__init__ 1 (VFloat (1 # 2)) VNone VNone VNone
         [("name", VStr "lens"); ("bulge", VProfile Examples.sersic)] = Ok g2
    /\ Galaxy.__eq__ g1 (Galaxy.OGalaxy g2) = Ok true.
Proof.
  destruct (equality_reads_profiles_in_order 0 1
              (VFloat (1 # 2)) VNone VNone VNone (VFloat (1 # 2)) VNone VNone VNone
              [("light", VProfile Examples.sersic)]
              [("name", VStr "lens"); ("bulge", VProfile Examples.sersic)]
              keywords_ok_one_light keywords_ok_bulge_and_name eq_refl eq_refl
              (conj eq_refl eq_refl) (conj eq_refl eq_refl)
              (conj eq_refl eq_refl) (conj eq_refl eq_refl)
              (conj eq_refl eq_refl) (conj eq_refl eq_refl)
              (conj eq_refl eq_refl) (conj eq_refl eq_refl))
    as [g1 [g2 [Hg1 [Hg2 Heq]]]].
  exists g1, g2. split; [exact Hg1 |]. split; [exact Hg2 |]. exact Heq.
Defined.

(** X5. Two galaxies built from the same arguments (a redshift, a
    pixelization and a hyper-galaxy that are equal to themselves) with
    different identities are equal for [__eq__], and [__hash__] gives them
    different values: the hash is the identity, not a function of what
    equality compares. *)
Theorem equal_galaxies_hash_differently :
  forall (id1 id2 : Z) (redshift pixelization regularization hyper_galaxy : Value)
         (kwargs : list (string * Value)),
    keywords_ok kwargs ->
    is_None pixelization = is_None regularization ->
    value_eqb redshift redshift = true ->
    value_eqb pixelization pixelization = true ->
    value_eqb hyper_galaxy hyper_galaxy = true ->
    id1 <> id2 ->
    exists g1 g2,
      Galaxy.__init__ id1 redshift pixelization regularization hyper_galaxy kwargs
      = Ok g1
      /\ Galaxy.__init__ id2 redshift pixelization regularization hyper_galaxy kwargs
         = Ok g2
      /\ Galaxy.__eq__ g1 (Galaxy.OGalaxy g2) = Ok true
      /\ Galaxy.__hash__ g1 = Ok (VInt id1)
      /\ Galaxy.__hash__ g2 = Ok (VInt id2)
      /\ value_eqb (VInt id1) (VInt id2) = false.
Proof.
  intros id1 id2 redshift pixelization regularization hyper_galaxy kwargs
         Hok Hboth Hz Hp Hh Hids.
  pose proof (Galaxy_init_dict id1 redshift pixelization regularization hyper_galaxy
                kwargs Hok Hboth) as Hg1.
  pose proof (Galaxy_init_dict id2 redshift pixelization regularization hyper_galaxy
                kwargs Hok Hboth) as Hg2.
  match type of Hg1 with _ = Ok ?g => set (g1 := g) in * end.
  match type of Hg2 with _ = Ok ?g => set (g2 := g) in * end.
  exists g1, g2. split; [exact Hg1 |]. split; [exact Hg2 |].
  assert (Hredshift : ~ In "redshift" (map fst kwargs)).
  { destruct Hok as [_ [_ Hreserved]]. intros Hin.
    apply (Hreserved "redshift" Hin). cbn. tauto. }
  split.
  - rewrite (Galaxy_eq_of_constructed id1 id2 _ _ _ _ _ _ _ _ kwargs kwargs g1 g2
               Hredshift Hredshift Hg1 Hg2).
    assert (Hlight : Galaxy.light_profiles g1 = Galaxy.light_profiles g2) by reflexivity.
    assert (Hmass : Galaxy.mass_profiles g1 = Galaxy.mass_profiles g2) by reflexivity.
    rewrite Hlight, Hmass, Hz, Hp, Hh, !value_eqb_refl. reflexivity.
  - split; [reflexivity |]. split; [reflexivity |].
    cbn. apply not_true_is_false. intros Heq. apply Qeq_bool_iff in Heq.
    apply Hids. unfold Qeq in Heq. cbn in Heq. lia.
Qed.

Lemma equal_galaxies_hash_differently_witness :
  exists g1 g2,
    Galaxy.__init__ 0 (VFloat (1 # 2)) VNone VNone VNone
      [("light", VProfile Examples.sersic)] = Ok g1
    /\ Galaxy.__init__ 1 (VFloat (1 # 2)) VNone VNone VNone
         [("light", VProfile Examples.sersic)] = Ok g2
    /\ Galaxy.__eq__ g1 (Galaxy.OGalaxy g2) = Ok true
    /\ Galaxy.__hash__ g1 = Ok (VInt 0)
    /\ Galaxy.__hash__ g2 = Ok (VInt 1)
    /\ value_eqb (VInt 0) (VInt 1) = false.
Proof.
  assert (Hids : 0%Z <> 1%Z) by discriminate.
  exact (equal_galaxies_hash_differently 0 1 (VFloat (1 # 2)) VNone VNone VNone
           [("light", VProfile Examples.sersic)] keywords_ok_one_light eq_refl
           eq_refl eq_refl eq_refl Hids).
Defined.

End ConstructedGalaxies.

(** ** Hyper-galaxies *)

Section HyperGalaxies.

Lemma HyperGalaxy_eq_spec (h1 h2 : HyperGalaxyT) :
  HyperGalaxy.__eq__ h1 (VHyperGalaxy h2) = true
  <-> contribution_factor h1 == contribution_factor h2
      /\ noise_factor h1 == noise_factor h2
      /\ noise_power h1 == noise_power h2.
Proof.
  cbn. rewrite !andb_true_iff, !Qeq_bool_iff. tauto.
Qed.

(** X6. Two hyper-galaxies constructed one after the other draw increasing
    component numbers from the class counter, and they are equal exactly
    when their three parameters are equal: the component number takes no
    part in equality. *)
Theorem hyper_galaxies_are_numbered_and_compared_by_parameters :
  forall (ids : nat) (cf1 nf1 pw1 cf2 nf2 pw2 : Q),
  exists (h1 h2 : HyperGalaxyT) (ids1 ids2 : nat),
    HyperGalaxy.__init__ ids cf1 nf1 pw1 = (h1, ids1)
    /\ HyperGalaxy.__init__ ids1 cf2 nf2 pw2 = (h2, ids2)
    /\ component_number h1 = ids
    /\ (component_number h1 < component_number h2)%nat
    /\ (ids < ids1 < ids2)%nat
    /\ (HyperGalaxy.__eq__ h1 (VHyperGalaxy h2) = true
        <-> cf1 == cf2 /\ nf1 == nf2 /\ pw1 == pw2).
Proof.
  intros ids cf1 nf1 pw1 cf2 nf2 pw2.
  do 4 eexists. split; [reflexivity |]. split; [reflexivity |].
  split; [reflexivity |]. split; [cbn; lia |]. split; [lia |].
  apply HyperGalaxy_eq_spec.
Qed.

(** X7. [HyperGalaxy.__eq__] is symmetric and transitive on hyper-galaxies,
    and it answers [False], raising nothing, for every value that is no
    hyper-galaxy. *)
Theorem HyperGalaxy_eq_is_symmetric_and_transitive :
  (forall h1 h2,
         HyperGalaxy.__eq__ h1 (VHyperGalaxy h2)
         = HyperGalaxy.__eq__ h2 (VHyperGalaxy h1))
  /\ (forall h1 h2 h3,
         HyperGalaxy.__eq__ h1 (VHyperGalaxy h2) = true ->
         HyperGalaxy.__eq__ h2 (VHyperGalaxy h3) = true ->
         HyperGalaxy.__eq__ h1 (VHyperGalaxy h3) = true)
  /\ (forall h v,
         (forall h', v <> VHyperGalaxy h') -> HyperGalaxy.__eq__ h v = false).
Proof.
  split; [| split].
  - intros h1 h2.
    destruct (HyperGalaxy.__eq__ h1 (VHyperGalaxy h2)) eqn:H12;
      destruct (HyperGalaxy.__eq__ h2 (VHyperGalaxy h1)) eqn:H21; try reflexivity.
    + apply HyperGalaxy_eq_spec in H12 as [Hc [Hn Hp]].
      assert (Hsym : HyperGalaxy.__eq__ h2 (VHyperGalaxy h1) = true)
        by (apply HyperGalaxy_eq_spec; repeat split; symmetry; assumption).
      congruence.
    + apply HyperGalaxy_eq_spec in H21 as [Hc [Hn Hp]].
      assert (Hsym : HyperGalaxy.__eq__ h1 (VHyperGalaxy h2) = true)
        by (apply HyperGalaxy_eq_spec; repeat split; symmetry; assumption).
      congruence.
  - intros h1 h2 h3 H12 H23.
    apply HyperGalaxy_eq_spec in H12 as [Hc [Hn Hp]].
    apply HyperGalaxy_eq_spec in H23 as [Hc' [Hn' Hp']].
    apply HyperGalaxy_eq_spec. repeat split; etransitivity; eassumption.
  - intros h v Hother. destruct v; try reflexivity.
    exfalso. eapply Hother. reflexivity.
Qed.

Lemma HyperGalaxy_eq_is_symmetric_and_transitive_witness :
  HyperGalaxy.__eq__ Examples.unit_factor (VHyperGalaxy (mkHyperGalaxy (2 # 2) 0 1 7))
  = true
  /\ HyperGalaxy.__eq__ (mkHyperGalaxy (2 # 2) 0 1 7)
       (VHyperGalaxy (mkHyperGalaxy (3 # 3) 0 1 9)) = true
  /\ HyperGalaxy.__eq__ Examples.unit_factor
       (VHyperGalaxy (mkHyperGalaxy (3 # 3) 0 1 9)) = true
  /\ HyperGalaxy.__eq__ Examples.unit_factor VNone = false.
Proof.
  destruct HyperGalaxy_eq_is_symmetric_and_transitive as [_ [Htrans Hother]].
  assert (H12 : HyperGalaxy.__eq__ Examples.unit_factor
                  (VHyperGalaxy (mkHyperGalaxy (2 # 2) 0 1 7)) = true)
    by reflexivity.
  assert (H23 : HyperGalaxy.__eq__ (mkHyperGalaxy (2 # 2) 0 1 7)
                  (VHyperGalaxy (mkHyperGalaxy (3 # 3) 0 1 9)) = true)
    by reflexivity.
  split; [exact H12 |]. split; [exact H23 |]. split.
  - exact (Htrans _ _ _ H12 H23).
  - apply Hother. intros h'. discriminate.
Defined.

(** X8. The hyper noise map has one entry for each entry of the noise map,
    and it is linear in the noise factor: with the same noise power, a noise
    factor [k] times as large gives a map [k] times as large, entry by
    entry. *)
Theorem hyper_noise_map_is_linear_in_noise_factor :
  forall (power : Q -> Q -> Q) (h h' : HyperGalaxyT) (k : Q)
         (noise_map contribution_map : list Q),
    length noise_map = length contribution_map ->
    noise_power h' = noise_power h ->
    noise_factor h' == k * noise_factor h ->
    exists m m',
      HyperGalaxy.hyper_noise_map_from_contribution_map power h noise_map
        contribution_map = Ok m
      /\ HyperGalaxy.hyper_noise_map_from_contribution_map power h' noise_map
           contribution_map = Ok m'
      /\ length m = length noise_map
      /\ length m' = length noise_map
      /\ forall i, (i < length noise_map)%nat -> nth i m' 0 == k * nth i m 0.
Proof.
  intros power h h' k noise_map contribution_map Hlen Hpower Hfactor.
  unfold HyperGalaxy.hyper_noise_map_from_contribution_map.
  rewrite elementwise_same_length by exact Hlen. cbn [bind].
  set (product := np.zip_with Qmult noise_map contribution_map).
  assert (Hproduct : length product = length noise_map)
    by (apply length_zip_with; exact Hlen).
  do 2 eexists. split; [reflexivity |]. split; [reflexivity |].
  split; [rewrite length_map; exact Hproduct |].
  split; [rewrite length_map; exact Hproduct |].
  intros i Hi.
  rewrite (nth_map_in _ product i 0 0) by lia.
  rewrite (nth_map_in _ product i 0 0) by lia.
  rewrite Hpower, Hfactor. ring.
Qed.

Lemma hyper_noise_map_is_linear_in_noise_factor_witness :
  exists m m',
    HyperGalaxy.hyper_noise_map_from_contribution_map (fun v _ => v)
      (mkHyperGalaxy 0 3 1 0) [2; 4] [1; 1 # 2] = Ok m
    /\ HyperGalaxy.hyper_noise_map_from_contribution_map (fun v _ => v)
         (mkHyperGalaxy 0 6 1 1) [2; 4] [1; 1 # 2] = Ok m'
    /\ length m = length [2; 4]
    /\ length m' = length [2; 4]
    /\ forall i, (i < length [2; 4])%nat -> nth i m' 0 == 2 * nth i m 0.
Proof.
  assert (Hfactor : noise_factor (mkHyperGalaxy 0 6 1 1)
                    == 2 * noise_factor (mkHyperGalaxy 0 3 1 0)) by reflexivity.
  exact (hyper_noise_map_is_linear_in_noise_factor (fun v _ => v)
           (mkHyperGalaxy 0 3 1 0) (mkHyperGalaxy 0 6 1 1) 2 [2; 4] [1; 1 # 2]
           eq_refl eq_refl Hfactor).
Defined.

(** X9. When either hyper image is empty the contribution map is not
    returned: the call raises [ValueError], and so does the hyper noise map
    computed from the hyper images, whatever the noise map. *)
Theorem empty_hyper_images_raise :
  forall (self : HyperGalaxyT) (hyper_model_image hyper_galaxy_image : list Q),
    hyper_model_image = [] \/ hyper_galaxy_image = [] ->
    HyperGalaxy.contribution_map_from_hyper_images self hyper_model_image
      hyper_galaxy_image = Raise ValueError
    /\ forall (power : Q -> Q -> Q) (noise_map : list Q),
        HyperGalaxy.hyper_noise_map_from_hyper_images_and_noise_map power self
          hyper_model_image hyper_galaxy_image noise_map = Raise ValueError.
Proof.
  intros self model galaxy Hempty.
  assert (Hraise : HyperGalaxy.contribution_map_from_hyper_images self model galaxy
                   = Raise ValueError).
  { unfold HyperGalaxy.contribution_map_from_hyper_images, np.divide, np.elementwise.
    destruct Hempty as [-> | ->].
    - destruct galaxy; reflexivity.
    - destruct model; reflexivity. }
  split; [exact Hraise |].
  intros power noise_map.
  unfold HyperGalaxy.hyper_noise_map_from_hyper_images_and_noise_map.
  rewrite Hraise. reflexivity.
Qed.

Lemma empty_hyper_images_raise_witness :
  HyperGalaxy.contribution_map_from_hyper_images Examples.unit_factor [] [1; 2]
  = Raise ValueError
  /\ HyperGalaxy.hyper_noise_map_from_hyper_images_and_noise_map (fun v _ => v)
       Examples.unit_factor [] [1; 2] [1; 1] = Raise ValueError.
Proof.
  destruct (empty_hyper_images_raise Examples.unit_factor [] [1; 2]
              (or_introl eq_refl)) as [Hmap Hnoise].
  split; [exact Hmap | apply Hnoise].
Defined.

End HyperGalaxies.

(** ** Superposition of the profiles *)

Section Superposition.

Context `{Collaborators}.

Lemma light_profiles_are_profiles (self : Galaxy.t) (v : Value) :
  In v (Galaxy.light_profiles self) -> exists p, v = VProfile p.
Proof.
  unfold Galaxy.light_profiles. intros Hin. apply filter_In in Hin as [_ Hlight].
  destruct v; try discriminate. eauto.
Qed.

Lemma mapM_call_profile {A : Type} (method : string) (f : Profile -> A)
  (values : list Value) :
  (forall v, In v values -> exists p, v = VProfile p) ->
  mapM (call_profile method f) values = Ok (map f (profiles_of values)).
Proof.
  induction values as [| v values IH]; intros Hall; [reflexivity |].
  destruct (Hall v (or_introl eq_refl)) as [p ->]. cbn.
  rewrite IH by (intros w Hw; apply Hall; right; exact Hw). reflexivity.
Qed.

Lemma in_profiles_of (values : list Value) (p : Profile) :
  In p (profiles_of values) -> In (VProfile p) values.
Proof.
  induction values as [| v values IH]; cbn; [tauto |].
  destruct v; cbn; try (intros Hin; right; apply IH; exact Hin).
  intros [-> | Hin]; [left; reflexivity | right; apply IH; exact Hin].
Qed.

Lemma fold_Qplus_from (l : list Q) (a : Q) :
  fold_left Qplus l a == a + fold_left Qplus l 0.
Proof.
  revert a. induction l as [| x l IH]; intros a; cbn.
  - ring.
  - rewrite (IH (a + x)), (IH (0 + x)). ring.
Qed.

Lemma sum_from_add_spec (n : nat) (rest : list (list Q)) :
  Forall (fun a => length a = n) rest ->
  forall acc, length acc = n ->
  exists total,
    sum_from np.add acc rest = Ok total
    /\ length total = n
    /\ forall i, (i < n)%nat -> nth i total 0 == nth i acc 0 + sum_at rest i.
Proof.
  intros Hrest. induction Hrest as [| a rest Ha Hrest IH]; intros acc Hacc; cbn.
  - exists acc. split; [reflexivity |]. split; [exact Hacc |].
    intros i _. unfold sum_at, sum_numbers. cbn. ring.
  - unfold np.add at 1. rewrite elementwise_same_length by congruence. cbn [bind].
    destruct (IH (np.zip_with Qplus acc a)) as [total [Htotal [Hlen Hpoint]]].
    { rewrite length_zip_with by congruence. exact Hacc. }
    exists total. split; [exact Htotal |]. split; [exact Hlen |].
    intros i Hi. rewrite (Hpoint i Hi).
    rewrite nth_zip_with by (try congruence; lia).
    unfold sum_at, sum_numbers. cbn [map fold_left].
    rewrite (fold_Qplus_from _ (0 + nth i a 0)). ring.
Qed.

(** The sum of all the fields, or zeros when there is none. *)
Lemma superposition (n : nat) (fields : list (list Q)) :
  Forall (fun a => length a = n) fields ->
  exists total,
    match fields with
    | first :: rest => sum_arrays first rest
    | [] => Ok (np.zeros n)
    end = Ok total
    /\ length total = n
    /\ forall i, (i < n)%nat -> nth i total 0 == sum_at fields i.
Proof.
  intros Hfields. destruct Hfields as [| first rest Hfirst Hrest].
  - exists (np.zeros n). split; [reflexivity |]. split; [apply zeros_are_zero |].
    intros i _. rewrite nth_of_zeros by apply zeros_are_zero. reflexivity.
  - unfold sum_arrays.
    destruct (sum_from_add_spec n rest Hrest (map (fun x => 0 + x) first))
      as [total [Htotal [Hlen Hpoint]]]; [rewrite length_map; exact Hfirst |].
    exists total. split; [exact Htotal |]. split; [exact Hlen |].
    intros i Hi. rewrite (Hpoint i Hi).
    rewrite (nth_map_in _ first i 0 0) by lia.
    unfold sum_at, sum_numbers. cbn [map fold_left].
    rewrite (fold_Qplus_from _ (0 + nth i first 0)). ring.
Qed.

Lemma wrapped_superposition (mask : aa.Mask) (n : nat) (fields : list (list Q))
  (total : list Q) :
  match fields with
  | first :: rest => sum_arrays first rest
  | [] => Ok (np.zeros n)
  end = Ok total ->
  match fields with
  | first :: rest =>
      field <- sum_arrays first rest ;;
      Ok (aa.array_from_sub_array_1d mask field)
  | [] => Ok (aa.array_from_sub_array_1d mask (np.zeros n))
  end = Ok (aa.array_from_sub_array_1d mask total).
Proof.
  destruct fields as [| first rest]; intros Htotal.
  - injection Htotal as <-. reflexivity.
  - rewrite Htotal. reflexivity.
Qed.

Lemma fields_of_profiles {A : Type} (f : Profile -> list A) (values : list Value)
  (n : nat) :
  (forall p, In (VProfile p) values -> length (f p) = n) ->
  Forall (fun a => length a = n) (map f (profiles_of values)).
Proof.
  intros Hall. apply Forall_map. apply Forall_forall. intros p Hp.
  apply Hall. apply in_profiles_of. exact Hp.
Qed.

(** X10. The profile image, the convergence and the potential of a galaxy
    are, coordinate by coordinate, the sum of what its light profiles,
    respectively its mass profiles, give there (zero when it has none); the
    arrays are returned in the structure of the grid with one entry for each
    coordinate, provided every profile returns one entry for each
    coordinate. *)
Theorem fields_are_sums_over_the_profiles :
  forall (self : Galaxy.t) (grid : aa.Grid),
    (forall p, In (VProfile p) (Galaxy.light_profiles self) ->
               length (LightProfile_profile_image_from_grid p grid) = aa.shape0 grid) ->
    (forall p, In (VProfile p) (Galaxy.mass_profiles self) ->
               length (MassProfile_convergence_from_grid p grid) = aa.shape0 grid
               /\ length (MassProfile_potential_from_grid p grid) = aa.shape0 grid) ->
    exists image convergence potential,
      Galaxy.profile_image_from_grid self grid
      = Ok (aa.array_from_sub_array_1d (aa.grid_mask grid) image)
      /\ Galaxy.convergence_from_grid self grid
         = Ok (aa.array_from_sub_array_1d (aa.grid_mask grid) convergence)
      /\ Galaxy.potential_from_grid self grid
         = Ok (aa.array_from_sub_array_1d (aa.grid_mask grid) potential)
      /\ length image = aa.shape0 grid
      /\ length convergence = aa.shape0 grid
      /\ length potential = aa.shape0 grid
      /\ forall i, (i < aa.shape0 grid)%nat ->
           nth i image 0
           == sum_at (map (fun p => LightProfile_profile_image_from_grid p grid)
                          (profiles_of (Galaxy.light_profiles self))) i
           /\ nth i convergence 0
              == sum_at (map (fun p => MassProfile_convergence_from_grid p grid)
                             (profiles_of (Galaxy.mass_profiles self))) i
           /\ nth i potential 0
              == sum_at (map (fun p => MassProfile_potential_from_grid p grid)
                             (profiles_of (Galaxy.mass_profiles self))) i.
Proof.
  intros self grid Hlight Hmass.
  destruct (superposition (aa.shape0 grid)
              (map (fun p => LightProfile_profile_image_from_grid p grid)
                   (profiles_of (Galaxy.light_profiles self))))
    as [image [Himage [Hilen Hipoint]]];
    [apply fields_of_profiles; exact Hlight |].
  destruct (superposition (aa.shape0 grid)
              (map (fun p => MassProfile_convergence_from_grid p grid)
                   (profiles_of (Galaxy.mass_profiles self))))
    as [convergence [Hconvergence [Hclen Hcpoint]]];
    [apply fields_of_profiles; intros p Hp; apply (Hmass p Hp) |].
  destruct (superposition (aa.shape0 grid)
              (map (fun p => MassProfile_potential_from_grid p grid)
                   (profiles_of (Galaxy.mass_profiles self))))
    as [potential [Hpotential [Hplen Hppoint]]];
    [apply fields_of_profiles; intros p Hp; apply (Hmass p Hp) |].
  exists image, convergence, potential.
  split; [| split; [| split]].
  - unfold Galaxy.profile_image_from_grid.
    rewrite mapM_call_profile by apply light_profiles_are_profiles. cbn [bind].
    apply wrapped_superposition. exact Himage.
  - unfold Galaxy.convergence_from_grid.
    rewrite mapM_call_profile by apply mass_profiles_are_profiles. cbn [bind].
    apply wrapped_superposition. exact Hconvergence.
  - unfold Galaxy.potential_from_grid.
    rewrite mapM_call_profile by apply mass_profiles_are_profiles. cbn [bind].
    apply wrapped_superposition. exact Hpotential.
  - repeat split; auto.
Qed.

Lemma sum_from_add2_spec (n : nat) (rest : list (list (Q * Q))) :
  Forall (fun a => length a = n) rest ->
  forall acc, length acc = n ->
  exists total,
    sum_from np.add2 acc rest = Ok total
    /\ length total = n
    /\ forall i, (i < n)%nat ->
         fst (nth i total (0, 0))
         == fst (nth i acc (0, 0)) + fst (sum2_at rest i)
         /\ snd (nth i total (0, 0))
            == snd (nth i acc (0, 0)) + snd (sum2_at rest i).
Proof.
  intros Hrest. induction Hrest as [| a rest Ha Hrest IH]; intros acc Hacc; cbn.
  - exists acc. split; [reflexivity |]. split; [exact Hacc |].
    intros i _. unfold sum2_at, sum_numbers. cbn. split; ring.
  - unfold np.add2 at 1. rewrite elementwise_same_length by congruence. cbn [bind].
    destruct (IH (np.zip_with np.pair_add acc a)) as [total [Htotal [Hlen Hpoint]]].
    { rewrite length_zip_with by congruence. exact Hacc. }
    exists total. split; [exact Htotal |]. split; [exact Hlen |].
    intros i Hi. destruct (Hpoint i Hi) as [Hfst Hsnd]. rewrite Hfst, Hsnd.
    rewrite nth_zip_with by (try congruence; lia).
    unfold sum2_at, sum_numbers, np.pair_add. cbn [map fold_left fst snd].
    rewrite (fold_Qplus_from _ (0 + fst (nth i a (0, 0)))).
    rewrite (fold_Qplus_from _ (0 + snd (nth i a (0, 0)))).
    split; ring.
Qed.

(** X11. The deflections of a galaxy are, coordinate by coordinate and
    component by component, the sum of the deflections of its mass profiles
    (zero when it has none), returned in the structure of the grid with one
    pair for each coordinate, provided every mass profile returns one pair
    for each coordinate. *)
Theorem deflections_are_sums_over_the_profiles :
  forall (self : Galaxy.t) (grid : aa.Grid),
    (forall p, In (VProfile p) (Galaxy.mass_profiles self) ->
               length (MassProfile_deflections_from_grid p grid) = aa.shape0 grid) ->
    exists deflections,
      Galaxy.deflections_from_grid self grid
      = Ok (aa.grid_from_sub_grid_1d (aa.grid_mask grid) deflections)
      /\ length deflections = aa.shape0 grid
      /\ forall i, (i < aa.shape0 grid)%nat ->
           let total :=
             sum2_at (map (fun p => MassProfile_deflections_from_grid p grid)
                          (profiles_of (Galaxy.mass_profiles self))) i in
           fst (nth i deflections (0, 0)) == fst total
           /\ snd (nth i deflections (0, 0)) == snd total.
Proof.
  intros self grid Hmass.
  unfold Galaxy.deflections_from_grid.
  rewrite mapM_call_profile by apply mass_profiles_are_profiles. cbn [bind].
  pose proof (fields_of_profiles
                (fun p => MassProfile_deflections_from_grid p grid)
                (Galaxy.mass_profiles self) (aa.shape0 grid) Hmass) as Hfields.
  destruct Hfields as [| first rest Hfirst Hrest].
  - eexists. split; [reflexivity |]. split; [apply full2_is_zero |].
    intros i Hi. cbn zeta.
    assert (Hzero : nth i (np.full2 (aa.shape0 grid) 0) (0, 0) = (0, 0)).
    { destruct (full2_is_zero (aa.shape0 grid)) as [_ Hall].
      rewrite Forall_forall in Hall. apply Hall. apply nth_In.
      rewrite (proj1 (full2_is_zero (aa.shape0 grid))). exact Hi. }
    rewrite Hzero. unfold sum2_at, sum_numbers. cbn. split; reflexivity.
  - unfold sum_arrays2.
    destruct (sum_from_add2_spec (aa.shape0 grid) rest Hrest
                (map (np.pair_add (0, 0)) first))
      as [total [Htotal [Hlen Hpoint]]]; [rewrite length_map; exact Hfirst |].
    rewrite Htotal. cbn [bind]. exists total.
    split; [reflexivity |]. split; [exact Hlen |].
    intros i Hi. cbn zeta. destruct (Hpoint i Hi) as [Hfst Hsnd].
    rewrite Hfst, Hsnd.
    rewrite (nth_map_in _ first i (0, 0) (0, 0)) by lia.
    unfold sum2_at, sum_numbers, np.pair_add. cbn [map fold_left fst snd].
    rewrite (fold_Qplus_from _ (0 + fst (nth i first (0, 0)))).
    rewrite (fold_Qplus_from _ (0 + snd (nth i first (0, 0)))).
    split; ring.
Qed.

End Superposition.

Lemma fields_are_sums_over_the_profiles_witness :
  (forall p, In (VProfile p) (Galaxy.light_profiles Examples.bright_galaxy) ->
             length (LightProfile_profile_image_from_grid p Examples.grid_3x3)
             = aa.shape0 Examples.grid_3x3)
  /\ (forall p, In (VProfile p) (Galaxy.mass_profiles Examples.bright_galaxy) ->
                length (MassProfile_convergence_from_grid p Examples.grid_3x3)
                = aa.shape0 Examples.grid_3x3
                /\ length (MassProfile_potential_from_grid p Examples.grid_3x3)
                   = aa.shape0 Examples.grid_3x3)
  /\ exists image convergence potential,
      Galaxy.profile_image_from_grid Examples.bright_galaxy Examples.grid_3x3
      = Ok (aa.array_from_sub_array_1d (aa.grid_mask Examples.grid_3x3) image)
      /\ Galaxy.convergence_from_grid Examples.bright_galaxy Examples.grid_3x3
         = Ok (aa.array_from_sub_array_1d (aa.grid_mask Examples.grid_3x3) convergence)
      /\ Galaxy.potential_from_grid Examples.bright_galaxy Examples.grid_3x3
         = Ok (aa.array_from_sub_array_1d (aa.grid_mask Examples.grid_3x3) potential)
      /\ nth 0 image 0 == 2
      /\ nth 0 convergence 0 == 1 # 2.
Proof.
  assert (Hlight :
            forall p, In (VProfile p) (Galaxy.light_profiles Examples.bright_galaxy) ->
                      length (LightProfile_profile_image_from_grid p Examples.grid_3x3)
                      = aa.shape0 Examples.grid_3x3).
  { intros p [Hp | [Hp | []]]; injection Hp as <-; reflexivity. }
  assert (Hmass :
            forall p, In (VProfile p) (Galaxy.mass_profiles Examples.bright_galaxy) ->
                      length (MassProfile_convergence_from_grid p Examples.grid_3x3)
                      = aa.shape0 Examples.grid_3x3
                      /\ length (MassProfile_potential_from_grid p Examples.grid_3x3)
                         = aa.shape0 Examples.grid_3x3).
  { intros p [Hp | []]. injection Hp as <-. split; reflexivity. }
  split; [exact Hlight |]. split; [exact Hmass |].
  destruct (fields_are_sums_over_the_profiles Examples.bright_galaxy Examples.grid_3x3
              Hlight Hmass)
    as [image [convergence [potential [Hi [Hc [Hp [_ [_ [_ Hpoint]]]]]]]]].
  exists image, convergence, potential.
  split; [exact Hi |]. split; [exact Hc |]. split; [exact Hp |].
  destruct (Hpoint 0%nat ltac:(cbn; lia)) as [Himage [Hconvergence _]].
  split; [exact Himage | exact Hconvergence].
Defined.

Lemma deflections_are_sums_over_the_profiles_witness :
  (forall p, In (VProfile p) (Galaxy.mass_profiles Examples.bright_galaxy) ->
             length (MassProfile_deflections_from_grid p Examples.grid_3x3)
             = aa.shape0 Examples.grid_3x3)
  /\ exists deflections,
      Galaxy.deflections_from_grid Examples.bright_galaxy Examples.grid_3x3
      = Ok (aa.grid_from_sub_grid_1d (aa.grid_mask Examples.grid_3x3) deflections)
      /\ length deflections = aa.shape0 Examples.grid_3x3
      /\ fst (nth 0 deflections (0, 0)) == 1 # 2
      /\ snd (nth 0 deflections (0, 0)) == - (1 # 2).
Proof.
  assert (Hmass :
            forall p, In (VProfile p) (Galaxy.mass_profiles Examples.bright_galaxy) ->
                      length (MassProfile_deflections_from_grid p Examples.grid_3x3)
                      = aa.shape0 Examples.grid_3x3).
  { intros p [Hp | []]. injection Hp as <-. reflexivity. }
  split; [exact Hmass |].
  destruct (deflections_are_sums_over_the_profiles Examples.bright_galaxy
              Examples.grid_3x3 Hmass) as [deflections [Hd [Hlen Hpoint]]].
  exists deflections. split; [exact Hd |]. split; [exact Hlen |].
  exact (Hpoint 0%nat ltac:(cbn; lia)).
Defined.

(** ** Integrated quantities of a galaxy with profiles *)

Section IntegratedQuantities.

Context `{Collaborators}.

Lemma sum_numbers_total (values : list Q) : sum_numbers values == total values.
Proof.
  unfold sum_numbers. induction values as [| v values IH]; cbn; [reflexivity |].
  rewrite (fold_Qplus_from values (0 + v)), IH. ring.
Qed.

Lemma mapM_returning_calls (method : string) (quantity : Profile -> result Q)
  (values : list Value) :
  (forall v, In v values -> exists p, v = VProfile p) ->
  forall qs,
    Forall2 (fun p q => quantity p = Ok q) (profiles_of values) qs ->
    mapM (call_profile_method method quantity) values = Ok qs.
Proof.
  induction values as [| v values IH]; intros Hall qs Hqs.
  - inversion Hqs. reflexivity.
  - destruct (Hall v (or_introl eq_refl)) as [p ->]. cbn [profiles_of] in Hqs.
    inversion Hqs as [| ? q ? qs' Hq Hqs']; subst.
    cbn [mapM call_profile_method]. rewrite Hq.
    rewrite (IH (fun w Hw => Hall w (or_intror Hw)) qs' Hqs'). reflexivity.
Qed.

Lemma mapM_raising_call (method : string) (quantity : Profile -> result Q)
  (values : list Value) :
  (forall v, In v values -> exists p, v = VProfile p) ->
  forall before p after qs e,
    profiles_of values = before ++ p :: after ->
    Forall2 (fun p q => quantity p = Ok q) before qs ->
    quantity p = Raise e ->
    mapM (call_profile_method method quantity) values = Raise e.
Proof.
  induction values as [| v values IH]; intros Hall before p after qs e Hsplit Hqs He.
  - destruct before; discriminate.
  - destruct (Hall v (or_introl eq_refl)) as [p0 ->]. cbn [profiles_of] in Hsplit.
    cbn [mapM call_profile_method].
    destruct before as [| b before].
    + cbn in Hsplit. injection Hsplit as -> _. rewrite He. reflexivity.
    + cbn in Hsplit. injection Hsplit as -> Hsplit.
      inversion Hqs as [| ? q ? qs' Hq Hqs']; subst. rewrite Hq.
      rewrite (IH (fun w Hw => Hall w (or_intror Hw)) before p after qs' e
                 Hsplit Hqs' He).
      reflexivity.
Qed.

Lemma profiles_of_nil (values : list Value) :
  (forall v, In v values -> exists p, v = VProfile p) ->
  profiles_of values = [] -> values = [].
Proof.
  intros Hall. destruct values as [| v values]; [reflexivity |].
  destruct (Hall v (or_introl eq_refl)) as [p ->]. discriminate.
Qed.

(** The pattern of the six methods: under the guard on the profiles, the
    quantity of every profile, called with the redshift of the galaxy,
    then the sum. *)
Lemma guarded_sum_spec (self : Galaxy.t) (z : Value) (method : string)
  (quantity : Profile -> Value -> result Q) (values : list Value) :
  Galaxy.getattr self "redshift" = Ok z ->
  (forall v, In v values -> exists p, v = VProfile p) ->
  sums_the_profiles (fun p => quantity p z) (profiles_of values)
    (if (0 <? length values)%nat then
       quantities <- mapM (fun obj =>
           redshift <- Galaxy.getattr self "redshift" ;;
           call_profile_method method (fun p => quantity p redshift) obj) values ;;
       Ok (VFloat (sum_numbers quantities))
     else Ok VNone).
Proof.
  intros Hz Hall. rewrite Hz. cbn [bind].
  change (fun obj : Value =>
            call_profile_method method (fun p => quantity p z) obj)
    with (call_profile_method method (fun p => quantity p z)).
  split; [| split].
  - intros Hnone. rewrite (profiles_of_nil values Hall Hnone). reflexivity.
  - intros qs Hsome Hqs.
    assert (Hlen : (0 <? length values)%nat = true).
    { destruct values; [contradiction Hsome; reflexivity | reflexivity]. }
    rewrite Hlen, (mapM_returning_calls method _ values Hall qs Hqs). cbn [bind].
    eexists. split; [reflexivity | apply sum_numbers_total].
  - intros before p after qs e Hsplit Hqs He.
    assert (Hlen : (0 <? length values)%nat = true).
    { destruct values; [destruct before; discriminate | reflexivity]. }
    rewrite Hlen, (mapM_raising_call method _ values Hall before p after qs e
                     Hsplit Hqs He).
    reflexivity.
Qed.

(** X12. On a galaxy whose redshift can be read, each of the six integrated
    quantities sums the quantity of its light profiles, respectively its
    mass profiles, called in the order of the attributes with the redshift
    of the galaxy: [None] without such a profile, the float total when every
    profile returns, and otherwise the error of the first profile that
    raises. *)
Theorem integrated_quantities_are_sums_over_the_profiles :
  forall (self : Galaxy.t) (z : Value),
    Galaxy.getattr self "redshift" = Ok z ->
    let light := profiles_of (Galaxy.light_profiles self) in
    let mass := profiles_of (Galaxy.mass_profiles self) in
    (forall radius unit_luminosity exposure_time cosmology kwargs,
        sums_the_profiles
          (fun p => LightProfile_luminosity_within_circle_in_units
                      p radius unit_luminosity z exposure_time cosmology kwargs)
          light
          (Galaxy.luminosity_within_circle_in_units self radius unit_luminosity
             exposure_time cosmology kwargs))
    /\ (forall major_axis unit_luminosity exposure_time cosmology kwargs,
           sums_the_profiles
             (fun p => LightProfile_luminosity_within_ellipse_in_units
                         p major_axis unit_luminosity z exposure_time cosmology
                         kwargs)
             light
             (Galaxy.luminosity_within_ellipse_in_units self major_axis
                unit_luminosity exposure_time cosmology kwargs))
    /\ (forall radius redshift_source unit_mass cosmology kwargs,
           sums_the_profiles
             (fun p => MassProfile_mass_within_circle_in_units
                         p radius z redshift_source unit_mass cosmology kwargs)
             mass
             (Galaxy.mass_within_circle_in_units self radius redshift_source
                unit_mass cosmology kwargs))
    /\ (forall major_axis redshift_source unit_mass cosmology kwargs,
           sums_the_profiles
             (fun p => MassProfile_mass_within_ellipse_in_units
                         p major_axis z redshift_source unit_mass cosmology kwargs)
             mass
             (Galaxy.mass_within_ellipse_in_units self major_axis redshift_source
                unit_mass cosmology kwargs))
    /\ (forall unit_length cosmology kwargs,
           sums_the_profiles
             (fun p => MassProfile_einstein_radius_in_units p unit_length z cosmology)
             mass
             (Galaxy.einstein_radius_in_units self unit_length cosmology kwargs))
    /\ (forall unit_mass redshift_source cosmology kwargs,
           sums_the_profiles
             (fun p => MassProfile_einstein_mass_in_units
                         p unit_mass z redshift_source cosmology kwargs)
             mass
             (Galaxy.einstein_mass_in_units self unit_mass redshift_source cosmology
                kwargs)).
Proof.
  intros self z Hz light mass. subst light mass.
  pose proof (light_profiles_are_profiles self) as Hlight.
  pose proof (mass_profiles_are_profiles self) as Hmass.
  split; [| split; [| split; [| split; [| split]]]]; intros.
  - exact (guarded_sum_spec self z "luminosity_within_circle_in_units"
             (fun p redshift => LightProfile_luminosity_within_circle_in_units
                                  p radius unit_luminosity redshift exposure_time
                                  cosmology kwargs)
             (Galaxy.light_profiles self) Hz Hlight).
  - exact (guarded_sum_spec self z "luminosity_within_ellipse_in_units"
             (fun p redshift => LightProfile_luminosity_within_ellipse_in_units
                                  p major_axis unit_luminosity redshift exposure_time
                                  cosmology kwargs)
             (Galaxy.light_profiles self) Hz Hlight).
  - exact (guarded_sum_spec self z "mass_within_circle_in_units"
             (fun p redshift => MassProfile_mass_within_circle_in_units
                                  p radius redshift redshift_source unit_mass
                                  cosmology kwargs)
             (Galaxy.mass_profiles self) Hz Hmass).
  - exact (guarded_sum_spec self z "mass_within_ellipse_in_units"
             (fun p redshift => MassProfile_mass_within_ellipse_in_units
                                  p major_axis redshift redshift_source unit_mass
                                  cosmology kwargs)
             (Galaxy.mass_profiles self) Hz Hmass).
  - exact (guarded_sum_spec self z "einstein_radius_in_units"
             (fun p redshift => MassProfile_einstein_radius_in_units
                                  p unit_length redshift cosmology)
             (Galaxy.mass_profiles self) Hz Hmass).
  - exact (guarded_sum_spec self z "einstein_mass_in_units"
             (fun p redshift => MassProfile_einstein_mass_in_units
                                  p unit_mass redshift redshift_source cosmology
                                  kwargs)
             (Galaxy.mass_profiles self) Hz Hmass).
Qed.

End IntegratedQuantities.

Lemma integrated_quantities_are_sums_over_the_profiles_witness :
  Galaxy.getattr Examples.bright_galaxy "redshift" = Ok (VFloat (1 # 2))
  /\ (exists v,
         Galaxy.luminosity_within_circle_in_units Examples.bright_galaxy 2 "eps" VNone
           Planck15 [] = Ok (VFloat v)
         /\ v == 8)
  /\ Galaxy.einstein_mass_in_units Examples.bright_galaxy "solMass" VNone Planck15 []
     = Raise ValueError.
Proof.
  split; [reflexivity |].
  destruct (integrated_quantities_are_sums_over_the_profiles Examples.bright_galaxy
              (VFloat (1 # 2)) eq_refl)
    as [Hcircle [_ [_ [_ [_ Hmass]]]]].
  split.
  - destruct (Hcircle 2 "eps" VNone Planck15 []) as [_ [Hsum _]].
    destruct (Hsum [1 * 2 * 2; 1 * 2 * 2]) as [v [Hv Htotal]].
    + discriminate.
    + repeat constructor.
    + exists v. split; [exact Hv |]. rewrite Htotal. reflexivity.
  - destruct (Hmass "solMass" VNone Planck15 []) as [_ [_ Hraise]].
    apply (Hraise [] (Examples.mass_sheet (1 # 2)) [] []);
      [reflexivity | constructor | reflexivity].
Defined.

(** ** Quantities derived from the Jacobian *)

Section LensingQuantities.

Context `{Collaborators}.

Lemma zip_array_laid_out (mask mask' : aa.Mask) (n : nat) (f : Q -> Q -> Q)
  (a b : aa.Array) :
  laid_out mask n a ->
  laid_out mask' n b ->
  exists r,
    aa.zip_array f a b = Ok r
    /\ laid_out mask n r
    /\ forall i, (i < n)%nat -> value_at r i = f (value_at a i) (value_at b i).
Proof.
  intros [Hmask Hlen] [_ Hlen']. unfold aa.zip_array.
  rewrite elementwise_same_length by congruence. cbn [bind].
  eexists. split; [reflexivity |]. split.
  - split; cbn; [exact Hmask |]. rewrite length_zip_with by congruence. exact Hlen.
  - intros i Hi. unfold value_at. cbn [aa.sub_array_1d].
    apply nth_zip_with; [congruence | lia].
Qed.

Lemma map_array_laid_out (mask : aa.Mask) (n : nat) (g : Q -> Q) (a : aa.Array) :
  laid_out mask n a ->
  laid_out mask n (aa.map_array g a)
  /\ forall i, (i < n)%nat -> value_at (aa.map_array g a) i = g (value_at a i).
Proof.
  intros [Hmask Hlen]. split.
  - split; cbn; [exact Hmask |]. rewrite length_map. exact Hlen.
  - intros i Hi. unfold value_at. cbn [aa.map_array aa.sub_array_1d].
    apply nth_map_in. lia.
Qed.

Lemma remapped_laid_out (mask mask' : aa.Mask) (n : nat) (a : aa.Array) :
  laid_out mask' n a ->
  laid_out mask n (aa.array_from_sub_array_1d mask (aa.sub_array_1d a))
  /\ forall i, value_at (aa.array_from_sub_array_1d mask (aa.sub_array_1d a)) i
               = value_at a i.
Proof.
  intros [_ Hlen]. split; [split; [reflexivity | exact Hlen] | reflexivity].
Qed.

(** On a grid of [ny] rows and [nx] columns, at least two of each, the four
    entries of the Jacobian are returned with one value for each pixel. *)
Lemma jacobian_laid_out (self : Galaxy.t) (grid : aa.Grid) (ny nx : nat) :
  aa.sub_shape_2d (aa.grid_mask grid) = (ny, nx) ->
  aa.shape0 grid = (ny * nx)%nat ->
  (2 <= ny)%nat ->
  (2 <= nx)%nat ->
  (forall p, In (VProfile p) (Galaxy.mass_profiles self) ->
             length (MassProfile_deflections_from_grid p grid) = aa.shape0 grid) ->
  exists a11 a12 a21 a22,
    Galaxy.jacobian_from_grid self grid = Ok ((a11, a12), (a21, a22))
    /\ laid_out (aa.grid_mask grid) (ny * nx) a11
    /\ laid_out (aa.grid_mask grid) (ny * nx) a12
    /\ laid_out (aa.grid_mask grid) (ny * nx) a21
    /\ laid_out (aa.grid_mask grid) (ny * nx) a22.
Proof.
  intros Hshape Hshape0 Hny Hnx Hprofiles.
  destruct (deflections_from_grid_returns self grid Hprofiles)
    as [deflections [Hdeflections [Hdlen Hdmask]]].
  set (alpha := aa.reshape (ny, nx) (aa.sub_grid_1d deflections)).
  set (g2 := aa.reshape (ny, nx) (aa.sub_grid_1d grid)).
  assert (Halpha : aa.grid_in_2d deflections = Ok alpha).
  { unfold aa.grid_in_2d, aa.in_2d. rewrite Hdmask, Hshape. cbn [fst snd].
    rewrite Hdlen, Hshape0, Nat.eqb_refl. reflexivity. }
  assert (Hg2 : aa.grid_in_2d grid = Ok g2).
  { unfold aa.grid_in_2d, aa.in_2d. rewrite Hshape. cbn [fst snd].
    unfold aa.shape0 in Hshape0. rewrite Hshape0, Nat.eqb_refl. reflexivity. }
  assert (Harows : Forall (fun row => length row = nx) alpha)
    by (apply rows_reshape; congruence).
  assert (Hgrows : Forall (fun row => length row = nx) g2)
    by (apply rows_reshape; exact Hshape0).
  assert (Halen : length alpha = ny) by apply length_reshape.
  assert (Hglen : length g2 = ny) by apply length_reshape.
  destruct (x_of_first_row_returns g2 nx) as [xs [Hxs Hxlen]]; [lia | exact Hgrows |].
  destruct (y_of_first_column_returns g2 nx) as [ys [Hys Hylen]];
    [lia | exact Hgrows |].
  rewrite Hglen in Hylen.
  assert (Hxrows : Forall (fun row => length row = nx) (Galaxy.component_x alpha))
    by (apply rows_of_component; exact Harows).
  assert (Hyrows : Forall (fun row => length row = nx) (Galaxy.component_y alpha))
    by (apply rows_of_component; exact Harows).
  assert (Hxlength : length (Galaxy.component_x alpha) = ny)
    by (unfold Galaxy.component_x; rewrite length_map; exact Halen).
  assert (Hylength : length (Galaxy.component_y alpha) = ny)
    by (unfold Galaxy.component_y; rewrite length_map; exact Halen).
  destruct (axis1_entries (aa.grid_mask grid) (Galaxy.component_x alpha) xs
              (fun v => 1 - v) ny nx Hshape Hxlength Hxrows Hxlen Hnx)
    as [g11 [Hg11 [H11 _]]].
  destruct (axis0_entries (aa.grid_mask grid) (Galaxy.component_x alpha) ys
              (fun v => (-1) * v) ny nx Hshape Hxlength Hxrows Hylen Hny)
    as [g12 [Hg12 [H12 _]]].
  destruct (axis1_entries (aa.grid_mask grid) (Galaxy.component_y alpha) xs
              (fun v => (-1) * v) ny nx Hshape Hylength Hyrows Hxlen Hnx)
    as [g21 [Hg21 [H21 _]]].
  destruct (axis0_entries (aa.grid_mask grid) (Galaxy.component_y alpha) ys
              (fun v => 1 - v) ny nx Hshape Hylength Hyrows Hylen Hny)
    as [g22 [Hg22 [H22 _]]].
  do 4 eexists. split.
  { unfold Galaxy.jacobian_from_grid, Galaxy.jacobian_a11_from_grid,
      Galaxy.jacobian_a12_from_grid, Galaxy.jacobian_a21_from_grid,
      Galaxy.jacobian_a22_from_grid.
    rewrite Hdeflections. cbn [bind]. rewrite Halpha, Hg2. cbn [bind].
    rewrite Hxs, Hys. cbn [bind]. rewrite Hg11, Hg12, Hg21, Hg22. cbn [bind].
    reflexivity. }
  repeat split; try (apply (laid_out_of_rows _ ny nx); assumption);
    eapply laid_out_of_rows; eassumption.
Qed.

(** X13. On a grid of at least two rows and two columns whose coordinates
    are spaced so that the gradients divide by no zero, and whose mass
    profiles return one deflection for each coordinate, the convergence and
    the shear from the Jacobian, both eigenvalues and the magnification are
    all returned, in the structure of the grid and with one value for each
    pixel; at every pixel they are the expressions of the code in the four
    entries of the Jacobian there: [1 - 0.5 (a11 + a22)], the root of
    [gamma_1^2 + gamma_2^2], [1 - convergence -+ shear] and, where the
    determinant [a11 a22 - a12 a21] is not zero, its inverse.  Where the
    determinant is zero numpy gives an infinity, which the rationals do not
    represent, and nothing is stated. *)
Theorem lensing_quantities_follow_the_jacobian :
  forall (self : Galaxy.t) (grid : aa.Grid) (ny nx : nat),
    aa.sub_shape_2d (aa.grid_mask grid) = (ny, nx) ->
    aa.shape0 grid = (ny * nx)%nat ->
    (2 <= ny)%nat ->
    (2 <= nx)%nat ->
    well_spaced grid ny nx ->
    (forall p, In (VProfile p) (Galaxy.mass_profiles self) ->
               length (MassProfile_deflections_from_grid p grid) = aa.shape0 grid) ->
    exists a11 a12 a21 a22 convergence shear tangential radial magnification,
      Galaxy.jacobian_from_grid self grid = Ok ((a11, a12), (a21, a22))
      /\ Galaxy.convergence_via_jacobian_from_grid self grid = Ok convergence
      /\ Galaxy.shear_via_jacobian_from_grid self grid = Ok shear
      /\ Galaxy.tangential_eigen_value_from_grid self grid = Ok tangential
      /\ Galaxy.radial_eigen_value_from_grid self grid = Ok radial
      /\ Galaxy.magnification_from_grid self grid = Ok magnification
      /\ laid_out (aa.grid_mask grid) (ny * nx) convergence
      /\ laid_out (aa.grid_mask grid) (ny * nx) shear
      /\ laid_out (aa.grid_mask grid) (ny * nx) tangential
      /\ laid_out (aa.grid_mask grid) (ny * nx) radial
      /\ laid_out (aa.grid_mask grid) (ny * nx) magnification
      /\ forall i, (i < ny * nx)%nat ->
           value_at convergence i
           = 1 - (1 # 2) * (value_at a11 i + value_at a22 i)
           /\ value_at shear i
              = sqrt (((1 # 2) * (value_at a22 i - value_at a11 i)) ^ 2
                      + ((- (1 # 2)) * (value_at a12 i + value_at a21 i)) ^ 2)
           /\ value_at tangential i
              = 1 - value_at convergence i - value_at shear i
           /\ value_at radial i
              = 1 - value_at convergence i + value_at shear i
           /\ (~ value_at a11 i * value_at a22 i - value_at a12 i * value_at a21 i
                 == 0 ->
               value_at magnification i
               = 1 / (value_at a11 i * value_at a22 i
                      - value_at a12 i * value_at a21 i)).
Proof.
  intros self grid ny nx Hshape Hshape0 Hny Hnx Hspaced Hprofiles.
  destruct (jacobian_laid_out self grid ny nx Hshape Hshape0 Hny Hnx Hprofiles)
    as [a11 [a12 [a21 [a22 [Hjacobian [L11 [L12 [L21 L22]]]]]]]].
  set (mask := aa.grid_mask grid) in *. set (n := (ny * nx)%nat) in *.
  (* convergence *)
  destruct (zip_array_laid_out mask mask n Qplus a11 a22 L11 L22)
    as [trace [Htrace [Ltrace Vtrace]]].
  destruct (map_array_laid_out mask n (fun v => 1 - (1 # 2) * v) trace Ltrace)
    as [Lkappa Vkappa].
  destruct (remapped_laid_out mask mask n _ Lkappa) as [Lconvergence Vconvergence].
  (* shear *)
  destruct (zip_array_laid_out mask mask n Qminus a22 a11 L22 L11)
    as [d [Hd [Ld Vd]]].
  destruct (map_array_laid_out mask n (fun v => (1 # 2) * v) d Ld) as [Lg1 Vg1].
  destruct (zip_array_laid_out mask mask n Qplus a12 a21 L12 L21)
    as [s [Hs [Ls Vs]]].
  destruct (map_array_laid_out mask n (fun v => (- (1 # 2)) * v) s Ls) as [Lg2 Vg2].
  destruct (map_array_laid_out mask n (fun v => v ^ 2) _ Lg1) as [Lq1 Vq1].
  destruct (map_array_laid_out mask n (fun v => v ^ 2) _ Lg2) as [Lq2 Vq2].
  destruct (zip_array_laid_out mask mask n Qplus _ _ Lq1 Lq2) as [q [Hq [Lq Vq]]].
  destruct (map_array_laid_out mask n sqrt q Lq) as [Lroot Vroot].
  destruct (remapped_laid_out mask mask n _ Lroot) as [Lshear Vshear].
  set (convergence :=
         aa.array_from_sub_array_1d mask
           (aa.sub_array_1d (aa.map_array (fun v => 1 - (1 # 2) * v) trace))) in *.
  set (shear :=
         aa.array_from_sub_array_1d mask (aa.sub_array_1d (aa.map_array sqrt q))) in *.
  (* eigenvalues *)
  destruct (map_array_laid_out mask n (fun v => 1 - v) convergence Lconvergence)
    as [Lone Vone].
  destruct (zip_array_laid_out mask mask n Qminus _ shear Lone Lshear)
    as [t [Ht [Lt Vt]]].
  destruct (remapped_laid_out mask mask n _ Lt) as [Ltangential Vtangential].
  destruct (zip_array_laid_out mask mask n Qplus _ shear Lone Lshear)
    as [r [Hr [Lr Vr]]].
  (* magnification *)
  destruct (zip_array_laid_out mask mask n Qmult a11 a22 L11 L22)
    as [m1 [Hm1 [Lm1 Vm1]]].
  destruct (zip_array_laid_out mask mask n Qmult a12 a21 L12 L21)
    as [m2 [Hm2 [Lm2 Vm2]]].
  destruct (zip_array_laid_out mask mask n Qminus m1 m2 Lm1 Lm2)
    as [det [Hdet [Ldet Vdet]]].
  destruct (map_array_laid_out mask n (fun v => 1 / v) det Ldet) as [Linverse Vinverse].
  destruct (remapped_laid_out mask mask n _ Linverse) as [Lmagnification Vmagnification].
  assert (Hconvergence :
            Galaxy.convergence_via_jacobian_from_grid self grid = Ok convergence).
  { unfold Galaxy.convergence_via_jacobian_from_grid.
    rewrite Hjacobian. cbn [bind fst snd]. rewrite Htrace. reflexivity. }
  assert (Hshear : Galaxy.shear_via_jacobian_from_grid self grid = Ok shear).
  { unfold Galaxy.shear_via_jacobian_from_grid.
    rewrite Hjacobian. cbn [bind fst snd]. rewrite Hd. cbn [bind].
    rewrite Hs. cbn [bind]. rewrite Hq. reflexivity. }
  exists a11, a12, a21, a22, convergence, shear,
    (aa.array_from_sub_array_1d mask (aa.sub_array_1d t)), r,
    (aa.array_from_sub_array_1d mask
       (aa.sub_array_1d (aa.map_array (fun v => 1 / v) det))).
  split; [exact Hjacobian |]. split; [exact Hconvergence |].
  split; [exact Hshear |].
  split.
  { unfold Galaxy.tangential_eigen_value_from_grid.
    rewrite Hconvergence, Hshear. cbn [bind]. rewrite Ht. reflexivity. }
  split.
  { unfold Galaxy.radial_eigen_value_from_grid.
    rewrite Hconvergence, Hshear. cbn [bind]. exact Hr. }
  split.
  { unfold Galaxy.magnification_from_grid.
    rewrite Hjacobian. cbn [bind fst snd]. rewrite Hm1. cbn [bind].
    rewrite Hm2. cbn [bind]. rewrite Hdet. reflexivity. }
  split; [exact Lconvergence |]. split; [exact Lshear |].
  split; [exact Ltangential |]. split; [exact Lr |]. split; [exact Lmagnification |].
  intros i Hi.
  assert (Ekappa : value_at convergence i
                   = 1 - (1 # 2) * (value_at a11 i + value_at a22 i)).
  { unfold convergence. rewrite Vconvergence, (Vkappa i Hi), (Vtrace i Hi).
    reflexivity. }
  assert (Egamma : value_at shear i
                   = sqrt (((1 # 2) * (value_at a22 i - value_at a11 i)) ^ 2
                           + ((- (1 # 2)) * (value_at a12 i + value_at a21 i)) ^ 2)).
  { unfold shear. rewrite Vshear, (Vroot i Hi), (Vq i Hi), (Vq1 i Hi), (Vq2 i Hi),
      (Vg1 i Hi), (Vg2 i Hi), (Vd i Hi), (Vs i Hi). reflexivity. }
  split; [exact Ekappa |]. split; [exact Egamma |].
  split; [rewrite Vtangential, (Vt i Hi), (Vone i Hi); reflexivity |].
  split; [rewrite (Vr i Hi), (Vone i Hi); reflexivity |].
  intros _.
  rewrite Vmagnification, (Vinverse i Hi), (Vdet i Hi), (Vm1 i Hi), (Vm2 i Hi).
  reflexivity.
Qed.

End LensingQuantities.

Lemma well_spaced_3x3 : well_spaced Examples.grid_3x3 3 3.
Proof.
  split; intros k Hk; destruct k as [| [| [| k]]]; try lia;
    (split; [| split]);
    first [ intros Hk'; discriminate Hk'
          | intros Hpos Hlt; exfalso; cbn in Hpos, Hlt; lia
          | intros _; cbn; intros Hzero; discriminate Hzero
          | intros _ _; unfold regular_at; cbn; repeat split;
            intros Hzero; discriminate Hzero ].
Qed.

Lemma lensing_quantities_follow_the_jacobian_witness :
  aa.sub_shape_2d (aa.grid_mask Examples.grid_3x3) = (3, 3)%nat
  /\ aa.shape0 Examples.grid_3x3 = (3 * 3)%nat
  /\ (2 <= 3)%nat
  /\ well_spaced Examples.grid_3x3 3 3
  /\ (forall p, In (VProfile p) (Galaxy.mass_profiles Examples.lens_galaxy) ->
                length (MassProfile_deflections_from_grid p Examples.grid_3x3)
                = aa.shape0 Examples.grid_3x3)
  /\ exists a11 a12 a21 a22 convergence tangential radial magnification,
      Galaxy.jacobian_from_grid Examples.lens_galaxy Examples.grid_3x3
      = Ok ((a11, a12), (a21, a22))
      /\ ~ value_at a11 4 * value_at a22 4 - value_at a12 4 * value_at a21 4 == 0
      /\ Galaxy.convergence_via_jacobian_from_grid Examples.lens_galaxy
           Examples.grid_3x3 = Ok convergence
      /\ Galaxy.tangential_eigen_value_from_grid Examples.lens_galaxy
           Examples.grid_3x3 = Ok tangential
      /\ Galaxy.radial_eigen_value_from_grid Examples.lens_galaxy
           Examples.grid_3x3 = Ok radial
      /\ Galaxy.magnification_from_grid Examples.lens_galaxy Examples.grid_3x3
         = Ok magnification
      /\ laid_out Examples.mask_3x3 9 magnification
      /\ value_at convergence 4 == 1 # 2
      /\ value_at magnification 4 == 4.
Proof.
  assert (Hprofiles :
            forall p, In (VProfile p) (Galaxy.mass_profiles Examples.lens_galaxy) ->
                      length (MassProfile_deflections_from_grid p Examples.grid_3x3)
                      = aa.shape0 Examples.grid_3x3).
  { intros p [Hp | []]. injection Hp as <-. reflexivity. }
  assert (Htwo : (2 <= 3)%nat) by lia.
  split; [reflexivity |]. split; [reflexivity |]. split; [exact Htwo |].
  split; [exact well_spaced_3x3 |]. split; [exact Hprofiles |].
  destruct (lensing_quantities_follow_the_jacobian Examples.lens_galaxy
              Examples.grid_3x3 3 3 eq_refl eq_refl Htwo Htwo well_spaced_3x3
              Hprofiles)
    as [a11 [a12 [a21 [a22 [convergence [shear [tangential [radial [magnification
          [Hjacobian [Hconvergence [_ [Htangential [Hradial [Hmagnification
             [_ [_ [_ [_ [Lmagnification Hvalues]]]]]]]]]]]]]]]]]]]].
  exists a11, a12, a21, a22, convergence, tangential, radial, magnification.
  split; [exact Hjacobian |].
  destruct (Hvalues 4%nat ltac:(lia)) as [Ekappa [_ [_ [_ Emagnification]]]].
  assert (Hkappa : value_at convergence 4 == 1 # 2).
  { rewrite Ekappa. vm_compute in Hjacobian. injection Hjacobian as <- <- <- <-.
    reflexivity. }
  assert (Hdet : ~ value_at a11 4 * value_at a22 4 - value_at a12 4 * value_at a21 4
                   == 0).
  { vm_compute in Hjacobian. injection Hjacobian as <- <- <- <-.
    intros Hzero. vm_compute in Hzero. discriminate Hzero. }
  split; [exact Hdet |].
  split; [exact Hconvergence |].
  split; [exact Htangential |]. split; [exact Hradial |].
  split; [exact Hmagnification |]. split; [exact Lmagnification |].
  split; [exact Hkappa |].
  rewrite (Emagnification Hdet).
  vm_compute in Hjacobian. injection Hjacobian as <- <- <- <-. reflexivity.
Defined.

(** ** A galaxy without mass profiles does not lens *)

Section NoLensing.

Context `{Collaborators}.

Lemma rectangular_positive_layout (mask : aa.Mask) (a : aa.Array) (ny nx : nat) :
  aa.sub_shape_2d mask = (ny, nx) ->
  constant_array mask 1 (ny * nx) a ->
  exists e2,
    aa.array_in_2d a = Ok e2
    /\ length e2 = ny
    /\ Forall (fun row => length row = nx) e2
    /\ Forall (Forall (fun v => 0 < v)) e2.
Proof.
  intros Hshape [Hmask [Hlen Hall]].
  unfold aa.array_in_2d, aa.in_2d. rewrite Hmask, Hshape. cbn [fst snd].
  rewrite Hlen, Nat.eqb_refl. eexists. split; [reflexivity |].
  split; [apply length_reshape |]. split; [apply rows_reshape; exact Hlen |].
  apply rows_within. eapply Forall_impl; [| exact Hall].
  cbn. intros v ->. reflexivity.
Qed.

(** X14. For a galaxy without mass profiles, on a grid of at least two rows
    and two columns whose coordinates are spaced so that the gradients
    divide by no zero (on other grids numpy gives [nan], which the rationals
    do not represent), the convergence from the Jacobian is zero and the
    magnification is one at every pixel; when the square root sends zero to
    zero the shear is zero and both eigenvalues are one at every pixel. *)
Theorem galaxy_without_mass_does_not_lens :
  forall (self : Galaxy.t) (grid : aa.Grid) (ny nx : nat),
    aa.sub_shape_2d (aa.grid_mask grid) = (ny, nx) ->
    aa.shape0 grid = (ny * nx)%nat ->
    (2 <= ny)%nat ->
    (2 <= nx)%nat ->
    well_spaced grid ny nx ->
    Galaxy.has_mass_profile self = false ->
    (exists convergence magnification,
        Galaxy.convergence_via_jacobian_from_grid self grid = Ok convergence
        /\ constant_array (aa.grid_mask grid) 0 (ny * nx) convergence
        /\ Galaxy.magnification_from_grid self grid = Ok magnification
        /\ constant_array (aa.grid_mask grid) 1 (ny * nx) magnification)
    /\ ((forall v, v == 0 -> sqrt v == 0) ->
        exists shear tangential radial,
          Galaxy.shear_via_jacobian_from_grid self grid = Ok shear
          /\ constant_array (aa.grid_mask grid) 0 (ny * nx) shear
          /\ Galaxy.tangential_eigen_value_from_grid self grid = Ok tangential
          /\ constant_array (aa.grid_mask grid) 1 (ny * nx) tangential
          /\ Galaxy.radial_eigen_value_from_grid self grid = Ok radial
          /\ constant_array (aa.grid_mask grid) 1 (ny * nx) radial).
Proof.
  intros self grid ny nx Hshape Hshape0 Hny Hnx Hspaced Hnone.
  destruct (jacobian_without_mass self grid ny nx Hshape Hshape0 Hny Hnx Hnone)
    as [a11 [a12 [a21 [a22 [Hjacobian [C11 [C12 [C21 C22]]]]]]]].
  set (mask := aa.grid_mask grid) in *. set (n := (ny * nx)%nat) in *.
  assert (Hconvergence :
            exists convergence,
              Galaxy.convergence_via_jacobian_from_grid self grid = Ok convergence
              /\ constant_array mask 0 n convergence).
  { unfold Galaxy.convergence_via_jacobian_from_grid.
    rewrite Hjacobian. cbn [bind fst snd].
    destruct (constant_zip mask Qplus 1 1 2 n a11 a22 C11 C22) as [s [Hs Cs]];
      [intros u v -> ->; reflexivity |].
    rewrite Hs. cbn [bind]. eexists. split; [reflexivity |].
    apply constant_remapped. apply (constant_map mask _ 2 0); [exact Cs |].
    intros v ->. reflexivity. }
  destruct Hconvergence as [convergence [Hconvergence Cconvergence]].
  split.
  - exists convergence.
    destruct (constant_zip mask Qmult 1 1 1 n a11 a22 C11 C22) as [m1 [Hm1 Cm1]];
      [intros u v -> ->; reflexivity |].
    destruct (constant_zip mask Qmult 0 0 0 n a12 a21 C12 C21) as [m2 [Hm2 Cm2]];
      [intros u v -> ->; reflexivity |].
    destruct (constant_zip mask Qminus 1 0 1 n m1 m2 Cm1 Cm2) as [det [Hdet Cdet]];
      [intros u v -> ->; reflexivity |].
    eexists. split; [exact Hconvergence |]. split; [exact Cconvergence |].
    unfold Galaxy.magnification_from_grid.
    rewrite Hjacobian. cbn [bind fst snd]. rewrite Hm1. cbn [bind].
    rewrite Hm2. cbn [bind]. rewrite Hdet. cbn [bind].
    split; [reflexivity |].
    apply constant_remapped. apply (constant_map mask _ 1 1); [exact Cdet |].
    intros v ->. reflexivity.
  - intros Hsqrt.
    assert (Hshear :
              exists shear,
                Galaxy.shear_via_jacobian_from_grid self grid = Ok shear
                /\ constant_array mask 0 n shear).
    { unfold Galaxy.shear_via_jacobian_from_grid.
      rewrite Hjacobian. cbn [bind fst snd].
      destruct (constant_zip mask Qminus 1 1 0 n a22 a11 C22 C11) as [d [Hd Cd]];
        [intros u v -> ->; reflexivity |].
      rewrite Hd. cbn [bind].
      destruct (constant_zip mask Qplus 0 0 0 n a12 a21 C12 C21) as [s [Hs Cs]];
        [intros u v -> ->; reflexivity |].
      rewrite Hs. cbn [bind].
      assert (C1 : constant_array mask 0 n
                     (aa.map_array (fun v => v ^ 2)
                        (aa.map_array (fun v => (1 # 2) * v) d))).
      { apply (constant_map mask _ 0 0); [| intros v ->; reflexivity].
        apply (constant_map mask _ 0 0); [exact Cd | intros v ->; reflexivity]. }
      assert (C2 : constant_array mask 0 n
                     (aa.map_array (fun v => v ^ 2)
                        (aa.map_array (fun v => (- (1 # 2)) * v) s))).
      { apply (constant_map mask _ 0 0); [| intros v ->; reflexivity].
        apply (constant_map mask _ 0 0); [exact Cs | intros v ->; reflexivity]. }
      destruct (constant_zip mask Qplus 0 0 0 n _ _ C1 C2) as [q [Hq Cq]];
        [intros u v -> ->; reflexivity |].
      rewrite Hq. cbn [bind]. eexists. split; [reflexivity |].
      apply constant_remapped.
      apply (constant_map mask _ 0 0); [exact Cq | exact Hsqrt]. }
    destruct Hshear as [shear [Hshear Cshear]].
    assert (Cone : constant_array mask 1 n (aa.map_array (fun v => 1 - v) convergence))
      by (apply (constant_map mask _ 0 1);
          [exact Cconvergence | intros v ->; reflexivity]).
    destruct (constant_zip mask Qminus 1 0 1 n _ shear Cone Cshear) as [t [Ht Ct]];
      [intros u v -> ->; reflexivity |].
    destruct (constant_zip mask Qplus 1 0 1 n _ shear Cone Cshear) as [r [Hr Cr]];
      [intros u v -> ->; reflexivity |].
    exists shear, (aa.array_from_sub_array_1d mask (aa.sub_array_1d t)), r.
    unfold Galaxy.tangential_eigen_value_from_grid,
      Galaxy.radial_eigen_value_from_grid.
    rewrite Hconvergence, Hshear. cbn [bind]. rewrite Ht, Hr. cbn [bind].
    split; [reflexivity |]. split; [exact Cshear |].
    split; [reflexivity |]. split; [apply constant_remapped; exact Ct |].
    split; [reflexivity | exact Cr].
Qed.

(** X15. For a galaxy without mass profiles, on a grid of [ny] rows and [nx]
    columns, at least two of each, with a square root that sends zero to
    zero and a tracer that finds no contour at level 0 in an [ny] by [nx]
    field of positive values, [critical_curves_from_grid] and
    [caustics_from_grid] both return two empty lists: no deflection is
    evaluated on a curve. *)
Theorem galaxy_without_mass_has_no_curves :
  forall (self : Galaxy.t) (grid : aa.Grid) (ny nx : nat),
    aa.sub_shape_2d (aa.grid_mask grid) = (ny, nx) ->
    aa.shape0 grid = (ny * nx)%nat ->
    (2 <= ny)%nat ->
    (2 <= nx)%nat ->
    Galaxy.has_mass_profile self = false ->
    (forall v, v == 0 -> sqrt v == 0) ->
    (forall field,
        length field = ny ->
        Forall (fun row => length row = nx) field ->
        Forall (Forall (fun v => 0 < v)) field ->
        find_contours field 0 = []) ->
    Galaxy.critical_curves_from_grid self grid
    = Ok (Galaxy.EmptyList, Galaxy.EmptyList)
    /\ Galaxy.caustics_from_grid self grid
       = Ok (Galaxy.EmptyList, Galaxy.EmptyList).
Proof.
  intros self grid ny nx Hshape Hshape0 Hny Hnx Hnone Hsqrt Htracer.
  destruct (eigen_values_without_mass self grid ny nx Hshape Hshape0 Hny Hnx Hnone
              Hsqrt) as [tangential [radial [Ht [Ct [Hr Cr]]]]].
  destruct (rectangular_positive_layout _ _ _ _ Hshape Ct)
    as [t2 [Ht2 [Htlen [Htrows Htpositive]]]].
  destruct (rectangular_positive_layout _ _ _ _ Hshape Cr)
    as [r2 [Hr2 [Hrlen [Hrrows Hrpositive]]]].
  assert (Htangential :
            Galaxy.tangential_critical_curve_from_grid self grid = Ok Galaxy.EmptyList).
  { unfold Galaxy.tangential_critical_curve_from_grid.
    rewrite Ht. cbn [bind]. rewrite Ht2. cbn [bind].
    rewrite (Htracer t2 Htlen Htrows Htpositive). reflexivity. }
  assert (Hradial :
            Galaxy.radial_critical_curve_from_grid self grid = Ok Galaxy.EmptyList).
  { unfold Galaxy.radial_critical_curve_from_grid.
    rewrite Hr. cbn [bind]. rewrite Hr2. cbn [bind].
    rewrite (Htracer r2 Hrlen Hrrows Hrpositive). reflexivity. }
  unfold Galaxy.critical_curves_from_grid, Galaxy.caustics_from_grid,
    Galaxy.tangential_caustic_from_grid, Galaxy.radial_caustic_from_grid.
  rewrite Htangential, Hradial. split; reflexivity.
Qed.

End NoLensing.

Lemma integer_sqrt_of_zero (v : Q) : v == 0 -> Examples.integer_sqrt v == 0.
Proof.
  destruct v as [num den]. unfold Qeq, Examples.integer_sqrt. cbn.
  intros Hnum. rewrite Z.mul_1_r in Hnum. subst num. reflexivity.
Qed.

Lemma concat_map_nil {A B : Type} (f : A -> list B) (l : list A) :
  (forall a, In a l -> f a = []) -> concat (map f l) = [].
Proof.
  induction l as [| a l IH]; intros Hall; [reflexivity |].
  cbn. rewrite (Hall a (or_introl eq_refl)). cbn. apply IH.
  intros b Hb. apply Hall. right. exact Hb.
Qed.

Lemma one_contour_of_positive (field : list (list Q)) (nx : nat) :
  Forall (fun row => length row = nx) field ->
  Forall (Forall (fun v => 0 < v)) field ->
  Examples.one_contour field 0 = [].
Proof.
  intros Hrows Hpositive.
  assert (Hnone : Examples.pixels_at_or_below field 0 = []).
  { unfold Examples.pixels_at_or_below. apply concat_map_nil. intros i Hi.
    apply in_seq in Hi. apply concat_map_nil. intros j Hj. apply in_seq in Hj.
    assert (Hin : In (nth i field []) field) by (apply nth_In; lia).
    rewrite Forall_forall in Hrows, Hpositive.
    assert (Hcols : np.ncols field = nx).
    { apply ncols_of_rows; [lia | apply Forall_forall; exact Hrows]. }
    assert (Hv : In (nth j (nth i field []) 0) (nth i field [])).
    { apply nth_In. rewrite (Hrows _ Hin). lia. }
    specialize (Hpositive _ Hin). rewrite Forall_forall in Hpositive.
    specialize (Hpositive _ Hv).
    destruct (Qle_bool (nth j (nth i field []) 0) 0) eqn:Hle; [| reflexivity].
    apply Qle_bool_iff in Hle. exfalso. exact (Qlt_not_le _ _ Hpositive Hle). }
  unfold Examples.one_contour. rewrite Hnone. reflexivity.
Qed.

Lemma galaxy_without_mass_does_not_lens_witness :
  aa.sub_shape_2d (aa.grid_mask Examples.grid_3x3) = (3, 3)%nat
  /\ aa.shape0 Examples.grid_3x3 = (3 * 3)%nat
  /\ (2 <= 3)%nat
  /\ well_spaced Examples.grid_3x3 3 3
  /\ Galaxy.has_mass_profile Examples.galaxy_without_profiles = false
  /\ (forall v, v == 0 -> sqrt v == 0)
  /\ exists convergence magnification shear tangential radial,
      Galaxy.convergence_via_jacobian_from_grid Examples.galaxy_without_profiles
        Examples.grid_3x3 = Ok convergence
      /\ constant_array Examples.mask_3x3 0 9 convergence
      /\ Galaxy.magnification_from_grid Examples.galaxy_without_profiles
           Examples.grid_3x3 = Ok magnification
      /\ constant_array Examples.mask_3x3 1 9 magnification
      /\ Galaxy.shear_via_jacobian_from_grid Examples.galaxy_without_profiles
           Examples.grid_3x3 = Ok shear
      /\ constant_array Examples.mask_3x3 0 9 shear
      /\ Galaxy.tangential_eigen_value_from_grid Examples.galaxy_without_profiles
           Examples.grid_3x3 = Ok tangential
      /\ constant_array Examples.mask_3x3 1 9 tangential
      /\ Galaxy.radial_eigen_value_from_grid Examples.galaxy_without_profiles
           Examples.grid_3x3 = Ok radial
      /\ constant_array Examples.mask_3x3 1 9 radial.
Proof.
  assert (Htwo : (2 <= 3)%nat) by lia.
  split; [reflexivity |]. split; [reflexivity |]. split; [exact Htwo |].
  split; [exact well_spaced_3x3 |].
  split; [reflexivity |]. split; [exact integer_sqrt_of_zero |].
  destruct (galaxy_without_mass_does_not_lens Examples.galaxy_without_profiles
              Examples.grid_3x3 3 3 eq_refl eq_refl Htwo Htwo well_spaced_3x3
              eq_refl)
    as [[convergence [magnification [Hc [Cc [Hm Cm]]]]] Hrest].
  destruct (Hrest integer_sqrt_of_zero)
    as [shear [tangential [radial [Hs [Cs [Ht [Ct [Hr Cr]]]]]]]].
  exists convergence, magnification, shear, tangential, radial.
  repeat (split; [assumption |]). assumption.
Defined.

Lemma galaxy_without_mass_has_no_curves_witness :
  aa.sub_shape_2d (aa.grid_mask Examples.grid_3x3) = (3, 3)%nat
  /\ aa.shape0 Examples.grid_3x3 = (3 * 3)%nat
  /\ (2 <= 3)%nat
  /\ Galaxy.has_mass_profile Examples.galaxy_without_profiles = false
  /\ (forall v, v == 0 -> sqrt v == 0)
  /\ (forall field,
         length field = 3%nat ->
         Forall (fun row => length row = 3%nat) field ->
         Forall (Forall (fun v => 0 < v)) field ->
         find_contours field 0 = [])
  /\ Galaxy.critical_curves_from_grid Examples.galaxy_without_profiles
       Examples.grid_3x3 = Ok (Galaxy.EmptyList, Galaxy.EmptyList)
  /\ Galaxy.caustics_from_grid Examples.galaxy_without_profiles Examples.grid_3x3
     = Ok (Galaxy.EmptyList, Galaxy.EmptyList).
Proof.
  assert (Htwo : (2 <= 3)%nat) by lia.
  assert (Htracer :
            forall field,
              length field = 3%nat ->
              Forall (fun row => length row = 3%nat) field ->
              Forall (Forall (fun v => 0 < v)) field ->
              find_contours field 0 = []).
  { intros field _ Hrows Hpositive.
    exact (one_contour_of_positive field 3 Hrows Hpositive). }
  split; [reflexivity |]. split; [reflexivity |]. split; [exact Htwo |].
  split; [reflexivity |]. split; [exact integer_sqrt_of_zero |].
  split; [exact Htracer |].
  exact (galaxy_without_mass_has_no_curves Examples.galaxy_without_profiles
           Examples.grid_3x3 3 3 eq_refl eq_refl Htwo Htwo eq_refl
           integer_sqrt_of_zero Htracer).
Defined.

(** ** Deflections from the potential *)

Section DeflectionsViaPotential.

Context `{Collaborators}.

Lemma reshape_concat_rows {A : Type} (nx : nat) (rows : list (list A)) :
  Forall (fun row => length row = nx) rows ->
  aa.reshape (length rows, nx) (concat rows) = rows.
Proof.
  intros Hrows. induction Hrows as [| row rows Hrow Hrows IH].
  - reflexivity.
  - unfold aa.reshape in *. cbn [fst snd length seq map concat] in *.
    f_equal.
    + cbn [Nat.mul skipn]. rewrite firstn_app, Hrow, Nat.sub_diag.
      cbn [firstn]. rewrite app_nil_r. rewrite <- Hrow. apply firstn_all.
    + rewrite <- seq_shift, map_map. rewrite <- IH at 2.
      apply map_ext. intros i. f_equal.
      replace (S i * nx)%nat with (i * nx + nx)%nat by lia.
      rewrite <- skipn_skipn, skipn_app, Hrow, Nat.sub_diag.
      rewrite (skipn_all2 (n := nx) row) by lia. reflexivity.
Qed.

Lemma length_concat_of_rows {A : Type} (nx : nat) (rows : list (list A)) :
  Forall (fun row => length row = nx) rows ->
  length (concat rows) = (length rows * nx)%nat.
Proof.
  intros Hrows. induction Hrows as [| row rows Hrow Hrows IH]; [reflexivity |].
  cbn [concat length]. rewrite length_app, IH, Hrow. lia.
Qed.

(** Stacking two arrays of one shape pairs their entries. *)
Lemma stack2_spec (nx : nat) (a : list (list Q)) :
  forall b : list (list Q),
    length a = length b ->
    Forall (fun row => length row = nx) a ->
    Forall (fun row => length row = nx) b ->
    exists s,
      np.stack2 a b = Ok s
      /\ length s = length a
      /\ Forall (fun row => length row = nx) s
      /\ forall i j, (i < length a)%nat -> (j < nx)%nat ->
           nth j (nth i s []) (0, 0) = (entry a i j, entry b i j).
Proof.
  unfold np.stack2.
  induction a as [| x a IH]; intros b Hlen Ha Hb.
  - destruct b; [| discriminate]. exists []. cbn.
    repeat split; [constructor | intros; lia].
  - destruct b as [| y b]; [discriminate |].
    inversion Ha as [| ? ? Hx Ha']; subst. inversion Hb as [| ? ? Hy Hb']; subst.
    cbn in Hlen. destruct (IH b ltac:(lia) Ha' Hb') as [s [Hs [Hslen [Hsrows Hspoint]]]].
    assert (Hab : (length a =? length b)%nat = true) by (apply Nat.eqb_eq; lia).
    rewrite Hab in Hs.
    cbn [length]. rewrite Hlen, Nat.eqb_refl. cbn [combine mapM fst snd].
    rewrite Hy, Nat.eqb_refl, Hs.
    exists (combine x y :: s).
    split; [reflexivity |]. split; [cbn; lia |]. split.
    + constructor; [| exact Hsrows].
      rewrite length_combine, Hy. apply Nat.min_id.
    + intros [| i] j Hi Hj; cbn [nth].
      * unfold entry. cbn [nth]. apply combine_nth. congruence.
      * unfold entry. cbn [nth]. apply Hspoint; [cbn in Hi; lia | exact Hj].
Qed.

Lemma potential_from_grid_returns (self : Galaxy.t) (grid : aa.Grid) :
  (forall p, In (VProfile p) (Galaxy.mass_profiles self) ->
             length (MassProfile_potential_from_grid p grid) = aa.shape0 grid) ->
  exists potential,
    Galaxy.potential_from_grid self grid
    = Ok (aa.array_from_sub_array_1d (aa.grid_mask grid) potential)
    /\ length potential = aa.shape0 grid.
Proof.
  intros Hmass. unfold Galaxy.potential_from_grid.
  rewrite mapM_call_profile by apply mass_profiles_are_profiles. cbn [bind].
  destruct (superposition (aa.shape0 grid)
              (map (fun p => MassProfile_potential_from_grid p grid)
                   (profiles_of (Galaxy.mass_profiles self))))
    as [potential [Hpotential [Hlen _]]].
  { apply fields_of_profiles. exact Hmass. }
  exists potential. split; [| exact Hlen].
  apply wrapped_superposition. exact Hpotential.
Qed.

(** The deflections from the potential on the two-dimensional layouts that
    the code reads. *)
Lemma deflections_via_potential_in_2d :
  forall (self : Galaxy.t) (grid : aa.Grid) (ny nx : nat),
    aa.sub_shape_2d (aa.grid_mask grid) = (ny, nx) ->
    aa.shape0 grid = (ny * nx)%nat ->
    (2 <= ny)%nat ->
    (2 <= nx)%nat ->
    (forall p, In (VProfile p) (Galaxy.mass_profiles self) ->
               length (MassProfile_potential_from_grid p grid) = aa.shape0 grid) ->
    exists (potential : aa.Array) (p2 : list (list Q)) (g2 : list (list (Q * Q)))
           (xs ys : list Q) (deflections : aa.Grid) (d2 : list (list (Q * Q))),
      Galaxy.potential_from_grid self grid = Ok potential
      /\ laid_out (aa.grid_mask grid) (ny * nx) potential
      /\ aa.array_in_2d potential = Ok p2
      /\ aa.grid_in_2d grid = Ok g2
      /\ Galaxy.x_of_first_row g2 = Ok xs
      /\ Galaxy.y_of_first_column g2 = Ok ys
      /\ Galaxy.deflections_via_potential_from_grid self grid = Ok deflections
      /\ aa.grid_mask deflections = aa.grid_mask grid
      /\ aa.shape0 deflections = (ny * nx)%nat
      /\ aa.grid_in_2d deflections = Ok d2
      /\ forall i j,
          (i < ny)%nat -> (j < nx)%nat ->
          ((0 < j)%nat -> (j + 1 < nx)%nat -> regular_at xs j) ->
          ((0 < i)%nat -> (i + 1 < ny)%nat -> regular_at ys i) ->
          fst (nth j (nth i d2 []) (0, 0))
          == central_difference ys (np.column p2 j) i
          /\ snd (nth j (nth i d2 []) (0, 0))
             == central_difference xs (nth i p2 []) j.
Proof.
  intros self grid ny nx Hshape Hshape0 Hny Hnx Hmass.
  destruct (potential_from_grid_returns self grid Hmass)
    as [flat [Hpotential Hflat]].
  rewrite Hshape0 in Hflat.
  set (potential := aa.array_from_sub_array_1d (aa.grid_mask grid) flat) in *.
  set (p2 := aa.reshape (ny, nx) flat).
  set (g2 := aa.reshape (ny, nx) (aa.sub_grid_1d grid)).
  assert (Hp2 : aa.array_in_2d potential = Ok p2).
  { unfold aa.array_in_2d, aa.in_2d, potential, aa.array_from_sub_array_1d.
    cbn [aa.array_mask aa.sub_array_1d]. rewrite Hshape. cbn [fst snd].
    rewrite Hflat, Nat.eqb_refl. reflexivity. }
  assert (Hg2 : aa.grid_in_2d grid = Ok g2).
  { unfold aa.grid_in_2d, aa.in_2d. rewrite Hshape. cbn [fst snd].
    unfold aa.shape0 in Hshape0. rewrite Hshape0, Nat.eqb_refl. reflexivity. }
  assert (Hprows : Forall (fun row => length row = nx) p2)
    by (apply rows_reshape; exact Hflat).
  assert (Hgrows : Forall (fun row => length row = nx) g2)
    by (apply rows_reshape; exact Hshape0).
  assert (Hplen : length p2 = ny) by apply length_reshape.
  assert (Hglen : length g2 = ny) by apply length_reshape.
  assert (Hcols : np.ncols p2 = nx) by (apply ncols_of_rows; [lia | exact Hprows]).
  destruct (x_of_first_row_returns g2 nx) as [xs [Hxs Hxlen]]; [lia | exact Hgrows |].
  destruct (y_of_first_column_returns g2 nx) as [ys [Hys Hylen]];
    [lia | exact Hgrows |].
  rewrite Hglen in Hylen.
  destruct (gradient_axis0_returns p2 ys) as [gy Hgy]; [congruence | lia |].
  destruct (gradient_axis1_returns p2 xs) as [gx Hgx];
    [rewrite Hxlen; exact Hprows | lia |].
  destruct (gradient_axis0_spec p2 ys gy Hgy) as [Hgylen [Hgyrows Hgypoint]].
  destruct (gradient_axis1_spec p2 xs gx Hgx) as [Hgxlen [Hgxrows Hgxpoint]].
  rewrite Hcols in Hgyrows, Hgypoint. rewrite Hxlen in Hgxrows, Hgxpoint.
  rewrite Hplen in Hgylen, Hgxlen, Hgypoint, Hgxpoint. rewrite Hylen in Hgypoint.
  destruct (stack2_spec nx gy gx ltac:(congruence) Hgyrows Hgxrows)
    as [d2 [Hd2 [Hdlen [Hdrows Hdpoint]]]].
  rewrite Hgylen in Hdlen, Hdpoint.
  exists potential, p2, g2, xs, ys,
    (aa.grid_from_sub_grid_2d (aa.grid_mask grid) d2), d2.
  split; [exact Hpotential |]. split; [split; [reflexivity | exact Hflat] |].
  split; [exact Hp2 |]. split; [exact Hg2 |].
  split; [exact Hxs |]. split; [exact Hys |].
  split.
  { unfold Galaxy.deflections_via_potential_from_grid.
    rewrite Hpotential. cbn [bind]. rewrite Hp2, Hg2. cbn [bind].
    rewrite Hys. cbn [bind]. rewrite Hgy. cbn [bind].
    rewrite Hxs. cbn [bind]. rewrite Hgx. cbn [bind].
    rewrite Hd2. reflexivity. }
  split; [reflexivity |].
  assert (Hconcat : length (concat d2) = (ny * nx)%nat)
    by (rewrite (length_concat_of_rows nx d2 Hdrows), Hdlen; reflexivity).
  split; [exact Hconcat |].
  split.
  { unfold aa.grid_in_2d, aa.in_2d, aa.grid_from_sub_grid_2d.
    cbn [aa.grid_mask aa.sub_grid_1d]. rewrite Hshape. cbn [fst snd].
    rewrite Hconcat, Nat.eqb_refl. rewrite <- Hdlen.
    rewrite reshape_concat_rows by exact Hdrows. reflexivity. }
  intros i j Hi Hj Hregular_x Hregular_y.
  rewrite (Hdpoint i j Hi Hj). cbn [fst snd].
  split; [apply Hgypoint | apply Hgxpoint]; assumption.
Qed.

Lemma plain_column (ny nx : nat) (flat : list Q) (j : nat) :
  length flat = (ny * nx)%nat ->
  (j < nx)%nat ->
  np.column (aa.reshape (ny, nx) flat) j
  = samples_down_column (fun k => nth k flat 0) ny nx j.
Proof.
  intros Hlen Hj. unfold np.column, samples_down_column, aa.reshape.
  cbn [fst snd]. rewrite map_map. apply map_ext_in. intros i Hi.
  rewrite nth_firstn. apply Nat.ltb_lt in Hj. rewrite Hj.
  apply nth_skipn.
Qed.

(** X16. On a grid of at least two rows and two columns whose mass profiles
    return one potential for each coordinate, the deflections computed from
    the potential are returned in the structure of the grid with one pair
    for each pixel.  The y component at pixel [(i, j)] is the difference
    quotient of the potential down column [j] against the physical y
    coordinates of the grid down its first column, the x component the
    difference quotient along row [i] against its x coordinates along its
    first row, at every sample where these coordinates are spaced so that
    nothing is divided by zero. *)
Theorem deflections_via_potential_are_coordinate_gradients :
  forall (self : Galaxy.t) (grid : aa.Grid) (ny nx : nat),
    aa.sub_shape_2d (aa.grid_mask grid) = (ny, nx) ->
    aa.shape0 grid = (ny * nx)%nat ->
    (2 <= ny)%nat ->
    (2 <= nx)%nat ->
    (forall p, In (VProfile p) (Galaxy.mass_profiles self) ->
               length (MassProfile_potential_from_grid p grid) = aa.shape0 grid) ->
    exists (potential : aa.Array) (deflections : aa.Grid),
      Galaxy.potential_from_grid self grid = Ok potential
      /\ laid_out (aa.grid_mask grid) (ny * nx) potential
      /\ Galaxy.deflections_via_potential_from_grid self grid = Ok deflections
      /\ aa.grid_mask deflections = aa.grid_mask grid
      /\ aa.shape0 deflections = (ny * nx)%nat
      /\ forall i j,
          (i < ny)%nat -> (j < nx)%nat ->
          let xs := coordinates_along_x grid nx in
          let ys := coordinates_along_y grid ny nx in
          let psi k := value_at potential k in
          spaced_at xs j ->
          spaced_at ys i ->
          fst (nth (i * nx + j) (aa.sub_grid_1d deflections) (0, 0))
          == central_difference ys (samples_down_column psi ny nx j) i
          /\ snd (nth (i * nx + j) (aa.sub_grid_1d deflections) (0, 0))
             == central_difference xs (samples_along_row psi nx i) j.
Proof.
  intros self grid ny nx Hshape Hshape0 Hny Hnx Hmass.
  destruct (deflections_via_potential_in_2d self grid ny nx Hshape Hshape0 Hny Hnx
              Hmass)
    as [potential [p2 [g2 [xs [ys [deflections [d2
          [Hpotential [Lpotential [Hp2 [Hg2 [Hxs [Hys [Hdeflections [Hdmask [Hsize
             [Hd2 Hentries]]]]]]]]]]]]]]]]].
  destruct Lpotential as [Hpmask Hplen].
  unfold aa.array_in_2d in Hp2. rewrite Hpmask in Hp2.
  destruct (in_2d_is_reshape _ _ _ ny nx Hshape Hp2) as [-> _].
  unfold aa.grid_in_2d in Hg2, Hd2. rewrite Hdmask in Hd2.
  destruct (in_2d_is_reshape _ _ _ ny nx Hshape Hg2) as [-> Hglen].
  destruct (in_2d_is_reshape _ _ _ ny nx Hshape Hd2) as [-> Hdlen].
  apply (x_of_first_row_is grid ny nx xs Hglen ltac:(lia)) in Hxs. subst xs.
  apply (y_of_first_column_is grid ny nx ys Hglen ltac:(lia)) in Hys. subst ys.
  exists potential, deflections.
  split; [exact Hpotential |]. split; [split; assumption |].
  split; [exact Hdeflections |]. split; [exact Hdmask |]. split; [exact Hsize |].
  intros i j Hi Hj xs ys psi [_ [_ Hx]] [_ [_ Hy]].
  assert (Hxlen : length xs = nx)
    by (unfold xs, coordinates_along_x; rewrite length_map, length_seq; reflexivity).
  assert (Hylen : length ys = ny)
    by (unfold ys, coordinates_along_y; rewrite length_map, length_seq; reflexivity).
  rewrite Hxlen in Hx. rewrite Hylen in Hy.
  destruct (Hentries i j Hi Hj Hx Hy) as [Ey Ex].
  rewrite (entry_of_reshape (0, 0) ny nx _ i j Hdlen Hi Hj) in Ey, Ex.
  rewrite (plain_column ny nx _ j Hplen Hj) in Ey.
  rewrite (row_of_reshape 0 ny nx _ i Hplen Hi) in Ex.
  split; [exact Ey | exact Ex].
Qed.

End DeflectionsViaPotential.

Lemma deflections_via_potential_are_coordinate_gradients_witness :
  aa.sub_shape_2d (aa.grid_mask Examples.grid_wide) = (3, 3)%nat
  /\ aa.shape0 Examples.grid_wide = (3 * 3)%nat
  /\ (2 <= 3)%nat
  /\ (forall p, In (VProfile p) (Galaxy.mass_profiles Examples.lens_galaxy) ->
                length (MassProfile_potential_from_grid p Examples.grid_wide)
                = aa.shape0 Examples.grid_wide)
  /\ spaced_at (coordinates_along_x Examples.grid_wide 3) 2
  /\ spaced_at (coordinates_along_y Examples.grid_wide 3 3) 1
  /\ exists deflections : aa.Grid,
      Galaxy.deflections_via_potential_from_grid Examples.lens_galaxy
        Examples.grid_wide = Ok deflections
      /\ aa.shape0 deflections = (3 * 3)%nat
      /\ nth 5 (aa.sub_grid_1d Examples.grid_wide) (0, 0) = (0, 2)
      /\ fst (nth 5 (aa.sub_grid_1d deflections) (0, 0)) == 0
      /\ snd (nth 5 (aa.sub_grid_1d deflections) (0, 0)) == 1 # 2.
Proof.
  assert (Hprofiles :
            forall p, In (VProfile p) (Galaxy.mass_profiles Examples.lens_galaxy) ->
                      length (MassProfile_potential_from_grid p Examples.grid_wide)
                      = aa.shape0 Examples.grid_wide).
  { intros p [Hp | []]. injection Hp as <-. reflexivity. }
  assert (Htwo : (2 <= 3)%nat) by lia.
  assert (Hx : spaced_at (coordinates_along_x Examples.grid_wide 3) 2).
  { split; [discriminate |]. split; [intros _; cbn; discriminate |].
    cbn. intros _ Hlt. exfalso. lia. }
  destruct spaced_at_centre_of_wide_grid as [_ Hy].
  split; [reflexivity |]. split; [reflexivity |]. split; [exact Htwo |].
  split; [exact Hprofiles |]. split; [exact Hx |]. split; [exact Hy |].
  destruct (deflections_via_potential_are_coordinate_gradients Examples.lens_galaxy
              Examples.grid_wide 3 3 eq_refl eq_refl Htwo Htwo Hprofiles)
    as [potential [deflections
          [Hpotential [_ [Hdeflections [_ [Hsize Hentries]]]]]]].
  exists deflections.
  split; [exact Hdeflections |]. split; [exact Hsize |]. split; [reflexivity |].
  vm_compute in Hpotential. injection Hpotential as <-.
  destruct (Hentries 1%nat 2%nat ltac:(lia) ltac:(lia) Hx Hy) as [Ey Ex].
  split; [rewrite Ey; reflexivity | rewrite Ex; reflexivity].
Defined.

(** ** Critical curves and caustics in a plot *)

Section IncludedCurves.

Variable Curves : Type.

Lemma try_except_ValueError_raises (value : result Curves) (e : exn) :
  Include.try_except_ValueError value = Raise e ->
  e <> ValueError /\ value = Raise e.
Proof.
  destruct value as [c | e']; cbn; [discriminate |].
  destruct e'; intros Hraise; try discriminate Hraise;
    injection Hraise as <-; (split; [discriminate | reflexivity]).
Qed.

(** X17. When [critical_curves_from_obj] or [caustics_from_obj] raises, the
    error is not a [ValueError] and it was raised by the property of the
    object, which is a lensing object with a mass profile; the switch of
    the include is on and no caustics are preloaded.  In every other case
    the methods return, with [None] for a [ValueError] of the object. *)
Theorem include_passes_on_only_other_errors :
  forall (self : Include.t Curves) (obj : Include.Obj Curves) (e : exn),
    (Include.critical_curves_from_obj self obj = Raise e ->
     e <> ValueError
     /\ Include.obj_critical_curves obj = Raise e
     /\ Include.critical_curves self = true
     /\ Include.preloaded_caustics self = None
     /\ Include.isinstance_LensingObject obj = true
     /\ Include.has_mass_profile obj = true)
    /\ (Include.caustics_from_obj self obj = Raise e ->
        e <> ValueError
        /\ Include.obj_caustics obj = Raise e
        /\ Include.caustics self = true
        /\ Include.preloaded_caustics self = None
        /\ Include.isinstance_LensingObject obj = true
        /\ Include.has_mass_profile obj = true)
    /\ (Include.obj_critical_curves obj = Raise ValueError ->
        Include.critical_curves_from_obj self obj = Ok None
        \/ Include.critical_curves_from_obj self obj
           = Ok (Include.preloaded_critical_curves self))
    /\ (Include.obj_caustics obj = Raise ValueError ->
        Include.caustics_from_obj self obj = Ok None
        \/ Include.caustics_from_obj self obj = Ok (Include.preloaded_caustics self)).
Proof.
  intros [switch_critical switch_caustics preloaded_critical preloaded]
         [lensing mass critical caustic] e.
  unfold Include.critical_curves_from_obj, Include.caustics_from_obj. cbn.
  split; [| split; [| split]].
  - destruct switch_critical; cbn; [| discriminate].
    destruct preloaded; [discriminate |].
    destruct lensing; cbn; [| discriminate].
    destruct mass; cbn; [| discriminate].
    intros Hraise. apply try_except_ValueError_raises in Hraise as [Hother Hvalue].
    repeat split; assumption.
  - destruct switch_caustics; cbn; [| discriminate].
    destruct preloaded; [discriminate |].
    destruct lensing; cbn; [| discriminate].
    destruct mass; cbn; [| discriminate].
    intros Hraise. apply try_except_ValueError_raises in Hraise as [Hother Hvalue].
    repeat split; assumption.
  - intros ->. destruct switch_critical; cbn; [| left; reflexivity].
    destruct preloaded; [right; reflexivity |].
    destruct lensing, mass; left; reflexivity.
  - intros ->. destruct switch_caustics; cbn; [| left; reflexivity].
    destruct preloaded; [right; reflexivity |].
    destruct lensing, mass; left; reflexivity.
Qed.

(** X18. On the include made by
    [new_include_with_preloaded_critical_curves_and_caustics], with both
    switches on: when caustics are preloaded, both methods return the
    preloaded values whatever the object is and without evaluating it; when
    no caustics are preloaded, the preloaded critical curves are not used,
    and what [critical_curves_from_obj] gives is what it gives without any
    preloaded value. *)
Theorem preloaded_curves_need_preloaded_caustics :
  forall (self : Include.t Curves) (obj : Include.Obj Curves)
         (preloaded_critical_curves : option Curves),
    Include.critical_curves self = true ->
    Include.caustics self = true ->
    (forall preloaded_caustics : Curves,
        let include :=
          Include.new_include_with_preloaded_critical_curves_and_caustics self
            preloaded_critical_curves (Some preloaded_caustics) in
        Include.critical_curves_from_obj include obj = Ok preloaded_critical_curves
        /\ Include.caustics_from_obj include obj = Ok (Some preloaded_caustics))
    /\ Include.critical_curves_from_obj
         (Include.new_include_with_preloaded_critical_curves_and_caustics self
            preloaded_critical_curves None) obj
       = Include.critical_curves_from_obj
           (Include.new_include_with_preloaded_critical_curves_and_caustics self
              None None) obj.
Proof.
  intros self obj preloaded Hcritical Hcaustics.
  unfold Include.critical_curves_from_obj, Include.caustics_from_obj,
    Include.new_include_with_preloaded_critical_curves_and_caustics.
  cbn. rewrite Hcritical, Hcaustics. cbn. split; [| reflexivity].
  intros preloaded_caustics. split; reflexivity.
Qed.

End IncludedCurves.

Lemma include_passes_on_only_other_errors_witness :
  let include := Include.mk true true None None in
  let failing := Include.mkObj true true (Raise IndexError) (Raise ValueError) in
  Include.critical_curves_from_obj (Curves := nat) include failing = Raise IndexError
  /\ Include.obj_caustics failing = Raise ValueError
  /\ IndexError <> ValueError
  /\ Include.obj_critical_curves failing = Raise IndexError
  /\ (Include.caustics_from_obj include failing = Ok None
      \/ Include.caustics_from_obj include failing
         = Ok (Include.preloaded_caustics include)).
Proof.
  intros include failing.
  destruct (include_passes_on_only_other_errors nat include failing IndexError)
    as [Hcritical [_ [_ Hcaustics]]].
  destruct (Hcritical eq_refl) as [Hother [Hvalue _]].
  split; [reflexivity |]. split; [reflexivity |]. split; [exact Hother |].
  split; [exact Hvalue |]. exact (Hcaustics eq_refl).
Defined.

Lemma preloaded_curves_need_preloaded_caustics_witness :
  let include := Include.mk true true None None in
  let object := Include.mkObj true true (Ok 1%nat) (Ok 2%nat) in
  Include.critical_curves include = true
  /\ Include.caustics include = true
  /\ Include.critical_curves_from_obj
       (Include.new_include_with_preloaded_critical_curves_and_caustics include
          (Some 3%nat) (Some 4%nat)) object = Ok (Some 3%nat)
  /\ Include.critical_curves_from_obj
       (Include.new_include_with_preloaded_critical_curves_and_caustics include
          (Some 3%nat) None) object
     = Include.critical_curves_from_obj
         (Include.new_include_with_preloaded_critical_curves_and_caustics include
            None None) object.
Proof.
  intros include object.
  destruct (preloaded_curves_need_preloaded_caustics nat include object
              (Some 3%nat) eq_refl eq_refl) as [Hpreloaded Hignored].
  split; [reflexivity |]. split; [reflexivity |].
  split; [exact (proj1 (Hpreloaded 4%nat)) | exact Hignored].
Defined.
